(** * Real-time fMRI classification loop (notebook 11-real-time)

    A shallow embedding of the notebook's streaming pipeline: the file
    watchers [tr_watcher_simple] and [tr_watcher], the controller
    [realtime] and the cell that calls it.  The classifier, the volume
    preprocessing and the file system are collaborators; they appear as
    parameters and as an explicit world state. *)

From Stdlib Require Import String Ascii DecimalString.
From Stdlib Require Import List ZArith QArith Bool Arith Lia.
From Stdlib Require Import Reals Lra.
Import ListNotations.

Set Implicit Arguments.

(** ** Python and numpy primitives used by the notebook *)

Module Py.

Definition len {A} (l : list A) : Z := Z.of_nat (length l).

(** Bound of a slice with step 1: a negative bound counts from the end,
    and both bounds are clamped to [0, len]. *)
Definition adjust (n x : Z) : Z :=
  if (x <? 0)%Z then Z.max 0 (x + n) else Z.min x n.

(** [l[start:stop]] *)
Definition slice {A} (l : list A) (start stop : Z) : list A :=
  let lo := adjust (len l) start in
  let hi := adjust (len l) stop in
  firstn (Z.to_nat (hi - lo)) (skipn (Z.to_nat lo) l).

(** Position designated by the index [i] in a sequence of length [n];
    [None] is an IndexError. *)
Definition position (n i : Z) : option nat :=
  let j := if (i <? 0)%Z then (i + n)%Z else i in
  if ((j <? 0) || (n <=? j))%Z then None else Some (Z.to_nat j).

(** [l[i]] *)
Definition getitem {A} (l : list A) (i : Z) : option A :=
  match position (len l) i with
  | Some j => nth_error l j
  | None => None
  end.

Fixpoint replace_nth {A} (l : list A) (j : nat) (x : A) : list A :=
  match l, j with
  | [], _ => []
  | _ :: t, O => x :: t
  | h :: t, S j' => h :: replace_nth t j' x
  end.

(** [l[i] = x] *)
Definition setitem {A} (l : list A) (i : Z) (x : A) : option (list A) :=
  match position (len l) i with
  | Some j => Some (replace_nth l j x)
  | None => None
  end.

(** [a / b] on integers (true division); [None] is a ZeroDivisionError. *)
Definition truediv (a b : Z) : option Q :=
  if (b =? 0)%Z then None
  else Some (Qmake (a * Z.sgn b) (Z.to_pos (Z.abs b))).

(** ['{0:0>3}'.format(idx)]: the decimal digits, right-aligned in a
    field of width 3 filled with zeros. *)
Definition zfill3 (s : string) : string :=
  match String.length s with
  | 0%nat => ("000" ++ s)%string
  | 1%nat => ("00" ++ s)%string
  | 2%nat => ("0" ++ s)%string
  | _ => s
  end.

Definition str_of_nat (n : nat) : string :=
  NilZero.string_of_uint (Nat.to_uint n).

End Py.

(** ** Outcomes of a computation *)

Inductive exn : Type :=
| UnboundLocalError (name : string)
| FileNotFoundError (path : string)
| LoadError (path : string)      (* np.load on contents not yet flushed *)
| IndexError
| ZeroDivisionError
| CollaboratorError (code : nat). (* raised inside preprocessing or the classifier *)

(** A call returns, raises, or never returns ([Blocked]: a blocking
    [Queue.get] on a queue that stays empty, a polling loop whose file
    never appears). *)
Inductive result (A : Type) : Type :=
| Ok (a : A)
| Raise (e : exn)
| Blocked.

Arguments Ok {A} a.
Arguments Raise {A} e.
Arguments Blocked {A}.

Definition file_pattern : nat -> string :=
  fun idx => ("rt_" ++ Py.zfill3 (Py.str_of_nat idx) ++ ".npy")%string.

(** [tr_shift = 3] in the notebook. *)
Definition tr_shift : Z := 3%Z.

Section Controller.

(** The collaborators' data: a raw volume, a preprocessed vector, a
    fitted classifier object, the mask. *)
Variables volume vec clf_t mask_t : Type.

(** A row of [tr_data]: preset to NaNs, later a stored vector. *)
Inductive row : Type :=
| NaNs
| Vals (v : vec).

(** What [clf.predict] yields: booleans for the logistic model (fit on
    [labels == 2]), class codes for the incremental one. *)
Inductive prediction : Type :=
| PBool (b : bool)
| PInt (z : Z).

(** A file on disk: np.load fails on it [partial_reads] more times
    (its contents are still being written), then yields [contents]. *)
Record file : Type := File { partial_reads : nat; contents : volume }.

(** A creation event of the watchdog observer. *)
Record fs_event : Type := Created { src_path : string; created : file }.

(** Calls made on the collaborators, with their arguments and outcome. *)
Inductive call : Type :=
| Stored (idx : nat) (r : row)
| Train (idx : nat) (data : list row) (lbls : list Z)
        (prev : option clf_t) (out : result clf_t)
| Predict (idx : nat) (m : clf_t) (r : row) (out : result prediction).

(** World and frame.  [disk] holds the files that exist; [file_queue]
    the creation events in arrival order, those still to come included;
    [observers] the running flag of every observer object, by identity;
    [calls] the history of collaborator calls, most recent first.  The
    last four fields are the locals of [realtime]. *)
Record state : Type := State {
  disk : list (string * file);
  file_queue : list fs_event;
  observers : list bool;
  calls : list call;
  tr_data : list row;
  clf : option clf_t;
  num_correct : Z;
  accuracy : option Q
}.

Definition with_disk d (s : state) :=
  State d (file_queue s) (observers s) (calls s) (tr_data s) (clf s) (num_correct s) (accuracy s).
Definition with_file_queue q (s : state) :=
  State (disk s) q (observers s) (calls s) (tr_data s) (clf s) (num_correct s) (accuracy s).
Definition with_observers o (s : state) :=
  State (disk s) (file_queue s) o (calls s) (tr_data s) (clf s) (num_correct s) (accuracy s).
Definition with_calls c (s : state) :=
  State (disk s) (file_queue s) (observers s) c (tr_data s) (clf s) (num_correct s) (accuracy s).
Definition with_tr_data t (s : state) :=
  State (disk s) (file_queue s) (observers s) (calls s) t (clf s) (num_correct s) (accuracy s).
Definition with_clf m (s : state) :=
  State (disk s) (file_queue s) (observers s) (calls s) (tr_data s) m (num_correct s) (accuracy s).
Definition with_num_correct n (s : state) :=
  State (disk s) (file_queue s) (observers s) (calls s) (tr_data s) (clf s) n (accuracy s).
Definition with_accuracy a (s : state) :=
  State (disk s) (file_queue s) (observers s) (calls s) (tr_data s) (clf s) (num_correct s) a.

(** *** The monad of the notebook's code: state and outcomes *)

Definition M (A : Type) : Type := state -> result A * state.

Definition ret {A} (a : A) : M A := fun s => (Ok a, s).

Definition bind {A B} (m : M A) (k : A -> M B) : M B :=
  fun s =>
    match m s with
    | (Ok a, s') => k a s'
    | (Raise e, s') => (Raise e, s')
    | (Blocked, s') => (Blocked, s')
    end.

Definition raise {A} (e : exn) : M A := fun s => (Raise e, s).
Definition get {A} (f : state -> A) : M A := fun s => (Ok (f s), s).
Definition modify (f : state -> state) : M unit := fun s => (Ok tt, f s).

Definition or_raise {A} (o : option A) (e : exn) : M A :=
  match o with
  | Some a => ret a
  | None => raise e
  end.

Definition record (c : call) : M unit :=
  modify (fun s => with_calls (c :: calls s) s).

(** A collaborator's outcome becomes the outcome of the caller. *)
Definition lift {A} (r : result A) : M A := fun s => (r, s).

Notation "x <- m ;; k" := (bind m (fun x => k))
  (at level 61, m at next level, right associativity).
Notation "m ;;; k" := (bind m (fun _ => k))
  (at level 61, right associativity).

(** [for idx in idxs: body(idx)] *)
Fixpoint for_each (idxs : list nat) (body : nat -> M unit) : M unit :=
  match idxs with
  | [] => ret tt
  | idx :: rest => body idx ;;; for_each rest body
  end.

(** [wp m s Q]: running [m] from [s] ends in an outcome and a state
    related by [Q]. *)
Definition wp {A} (m : M A) (s : state) (Q : result A -> state -> Prop) : Prop :=
  Q (fst (m s)) (snd (m s)).

(** *** The file system and the notification queue *)

Fixpoint lookup (name : string) (d : list (string * file)) : option file :=
  match d with
  | [] => None
  | (n, f) :: d' => if String.eqb n name then Some f else lookup name d'
  end.

Definition os_path_exists (filename : string) : M bool :=
  get (fun s => match lookup filename (disk s) with Some _ => true | None => false end).

(** [np.load(filename)]: one parse attempt.  A failed attempt takes
    time, during which the writer progresses. *)
Definition np_load (filename : string) : M volume :=
  fun s =>
    match lookup filename (disk s) with
    | None => (Raise (FileNotFoundError filename), s)
    | Some f =>
        match partial_reads f with
        | O => (Ok (contents f), s)
        | S k => (Raise (LoadError filename),
                  with_disk ((filename, File k (contents f)) :: disk s) s)
        end
    end.

(** The loop of [tr_watcher]: [file_queue.get()] until an event carries
    the awaited path.  An event taken from the queue tells that its file
    has been created.  Yields the disk, the rest of the queue and
    whether the awaited event came; on an exhausted queue the next [get]
    never returns. *)
Fixpoint await_event (filename : string) (d : list (string * file))
         (q : list fs_event) : bool * list (string * file) * list fs_event :=
  match q with
  | [] => (false, d, [])
  | event :: q' =>
      let d' := (src_path event, created event) :: d in
      if String.eqb (src_path event) filename then (true, d', q')
      else await_event filename d' q'
  end.

Definition wait_for_event (filename : string) : M unit :=
  fun s =>
    match await_event filename (disk s) (file_queue s) with
    | (true, d, q) => (Ok tt, with_file_queue q (with_disk d s))
    | (false, d, q) => (Blocked, with_file_queue q (with_disk d s))
    end.

Definition tr_watcher (filename : string) : M volume :=
  file_exists <- os_path_exists filename ;;
  (if file_exists then ret tt else wait_for_event filename) ;;;
  vol <- np_load filename ;;
  ret vol.

(** The loop of [tr_watcher_simple]: [time.sleep] until the file exists.
    While the caller sleeps the pending creations take place, one per
    interval; the polling loop does not read the queue, so the events
    stay in it. *)
Fixpoint poll (filename : string) (d : list (string * file))
         (pending : list fs_event) : bool * list (string * file) :=
  match lookup filename d with
  | Some _ => (true, d)
  | None =>
      match pending with
      | [] => (false, d)
      | event :: rest => poll filename ((src_path event, created event) :: d) rest
      end
  end.

Definition tr_watcher_simple (filename : string) : M volume :=
  fun s =>
    match poll filename (disk s) (file_queue s) with
    | (true, d) => np_load filename (with_disk d s)
    | (false, d) => (Blocked, with_disk d s)
    end.

(** *** Observers *)

(** [Observer()]: a new, not yet running, observer object. *)
Definition Observer : M nat :=
  fun s => (Ok (length (observers s)), with_observers (observers s ++ [false]) s).

Definition observer_start (o : nat) : M unit :=
  modify (fun s => with_observers (Py.replace_nth (observers s) o true) s).

Definition observer_stop (o : nat) : M unit :=
  modify (fun s => with_observers (Py.replace_nth (observers s) o false) s).

(** *** The controller *)

Variable preprocess_vol : volume -> mask_t -> result vec.
Variable predict : clf_t -> row -> result prediction.

Definition classifier : Type :=
  list row -> list Z -> option clf_t -> result clf_t.

Definition call_clf_obj (clf_obj : classifier) (idx : nat)
           (data : list row) (lbls : list Z) (prev : option clf_t) : M clf_t :=
  let out := clf_obj data lbls prev in
  record (Train idx data lbls prev out) ;;;
  lift out.

Definition call_predict (idx : nat) (m : clf_t) (r : row) : M prediction :=
  let out := predict m r in
  record (Predict idx m r out) ;;;
  lift out.

(** [tr_data[idx, :] = v] *)
Definition store_row (idx : nat) (v : vec) : M unit :=
  td <- get tr_data ;;
  td' <- or_raise (Py.setitem td (Z.of_nat idx) (Vals v)) IndexError ;;
  modify (with_tr_data td') ;;;
  record (Stored idx (Vals v)).

(** If it is a boolean then add 1 to turn it into the labels. *)
Definition as_label (p : prediction) : Z :=
  match p with
  | PBool b => (Z.b2z b + 1)%Z
  | PInt z => z
  end.

(** *** Reading the history of calls *)

(** Indices of the volumes stored, most recent first. *)
Fixpoint stored_idxs (cs : list call) : list nat :=
  match cs with
  | [] => []
  | Stored idx _ :: older => idx :: stored_idxs older
  | _ :: older => stored_idxs older
  end.

(** The row that the history [cs] has put at index [j] of [tr_data]. *)
Fixpoint row_at (cs : list call) (j : nat) : row :=
  match cs with
  | [] => NaNs
  | Stored idx r :: older => if Nat.eqb idx j then r else row_at older j
  | _ :: older => row_at older j
  end.

(** [tr_data] as the history [cs] has filled it, for [n] volumes. *)
Definition table (n : nat) (cs : list call) : list row :=
  map (row_at cs) (seq 0 n).

(** The model that the history [cs] leaves bound to [clf]: the value of
    the most recent training call that returned. *)
Fixpoint live (cs : list call) : option clf_t :=
  match cs with
  | [] => None
  | Train _ _ _ _ (Ok m) :: _ => Some m
  | _ :: older => live older
  end.

(** The first fit is the two-argument call of [clf_obj]; an incremental
    update passes the current model as third argument. *)
Definition is_fit (c : call) : bool :=
  match c with
  | Train _ _ _ None _ => true
  | _ => false
  end.

Definition is_update (c : call) : bool :=
  match c with
  | Train _ _ _ (Some _) _ => true
  | _ => false
  end.

Definition is_predict (c : call) : bool :=
  match c with
  | Predict _ _ _ _ => true
  | _ => false
  end.

(** Everything of a state but the disk and the queue. *)
Definition frame_of (s : state) :=
  (observers s, calls s, tr_data s, clf s, num_correct s, accuracy s).

(** The disk and the queue. *)
Definition world_of (s : state) := (disk s, file_queue s).

(** Every file named in [names] has come or is announced, and every file
    is completely written. *)
Definition ready (names : list string) (s : state) : Prop :=
  Forall (fun nf => partial_reads (snd nf) = 0%nat) (disk s) /\
  Forall (fun event => partial_reads (created event) = 0%nat) (file_queue s) /\
  forall name, In name names ->
    lookup name (disk s) <> None \/ In name (map src_path (file_queue s)).

(** The outcome of a statement whose value is dropped. *)
Definition outcome_of {A} (r : result A) : result unit :=
  match r with
  | Ok _ => Ok tt
  | Raise e => Raise e
  | Blocked => Blocked
  end.

Section Run.

(** [labels] is the column of the label file and [mask] the mask
    file, both loaded before the loop; [shift] is [tr_shift]. *)
Variable shift : Z.
Variable labels : list Z.
Variable mask : mask_t.
Variable input_dir : string.
Variable train_count : Z.
Variable clf_obj : classifier.
Variable incremental_batch : Z.

Definition data_dir : string := (input_dir ++ "data/")%string.

(** The body of [for idx in range(len(labels))]. *)
Definition on_volume (idx : nat) : M unit :=
  let i := Z.of_nat idx in
  let next_filename := (data_dir ++ file_pattern idx)%string in
  vol <- tr_watcher next_filename ;;
  v <- lift (preprocess_vol vol mask) ;;
  store_row idx v ;;;
  if (i <? train_count)%Z then ret tt
  else if (i =? train_count)%Z then
    td <- get tr_data ;;
    m <- call_clf_obj clf_obj idx
           (Py.slice td shift train_count)
           (Py.slice labels 0 (train_count - shift)) None ;;
    modify (with_clf (Some m))
  else if (i >? train_count)%Z then
    c <- get clf ;;
    m <- or_raise c (UnboundLocalError "clf") ;;
    td <- get tr_data ;;
    r <- or_raise (Py.getitem td i) IndexError ;;
    p <- call_predict idx m r ;;
    lbl <- or_raise (Py.getitem labels (i - shift)) IndexError ;;
    modify (fun s =>
      with_num_correct
        (if (as_label p =? lbl)%Z then num_correct s + 1 else num_correct s)%Z
        s) ;;;
    n <- get num_correct ;;
    a <- or_raise (Py.truediv n (i - train_count)) ZeroDivisionError ;;
    modify (with_accuracy (Some a)) ;;;
    if ((incremental_batch >? 0) &&
        ((i - train_count) mod incremental_batch =? 0))%Z then
      let start_idx := (i - incremental_batch)%Z in
      td <- get tr_data ;;
      c <- get clf ;;
      m <- or_raise c (UnboundLocalError "clf") ;;
      m' <- call_clf_obj clf_obj idx
              (Py.slice td (start_idx + shift) i)
              (Py.slice labels start_idx (i - shift)) (Some m) ;;
      modify (with_clf (Some m'))
    else ret tt
  else ret tt.

(** The locals of a fresh call: [tr_data] preset to NaNs, [clf] and
    [accuracy] not yet bound. *)
Definition enter : M unit :=
  modify (fun s =>
    with_accuracy None (with_num_correct 0%Z (with_clf None
      (with_tr_data (repeat NaNs (length labels)) s)))).

Definition realtime_from (file_observer : nat) : M Q :=
  for_each (seq 0 (length labels)) on_volume ;;;
  observer_stop file_observer ;;;
  a <- get accuracy ;;
  or_raise a (UnboundLocalError "accuracy").

Definition realtime_shifted : M Q :=
  enter ;;;
  file_observer <- Observer ;;
  observer_start file_observer ;;;
  realtime_from file_observer.

(** *** The controller as a transition system

    One constructor per path through the loop body: the volume does not
    come (the watcher or the preprocessing does not return, or there is
    no row for it); Collecting; Training; Classifying without a model,
    with a failing prediction, with a label that cannot be read, and with
    a prediction, without and with an incremental update. *)
Inductive transition (idx : nat) (s : state) : result unit -> state -> Prop :=
| no_volume : forall r s',
    r <> Ok tt ->
    frame_of s' = frame_of s ->
    match fst (tr_watcher (data_dir ++ file_pattern idx) s) with
    | Ok vol =>
        match preprocess_vol vol mask with
        | Ok _ => (length (tr_data s) <= idx)%nat
        | _ => True
        end
    | _ => True
    end ->
    transition idx s r s'
| collecting : forall v s',
    (Z.of_nat idx < train_count)%Z ->
    frame_of s' =
      (observers s, Stored idx (Vals v) :: calls s,
       Py.replace_nth (tr_data s) idx (Vals v),
       clf s, num_correct s, accuracy s) ->
    transition idx s (Ok tt) s'
| training : forall v s' td data lbls out,
    Z.of_nat idx = train_count ->
    td = Py.replace_nth (tr_data s) idx (Vals v) ->
    data = Py.slice td shift train_count ->
    lbls = Py.slice labels 0 (train_count - shift) ->
    out = clf_obj data lbls None ->
    frame_of s' =
      (observers s,
       Train idx data lbls None out :: Stored idx (Vals v) :: calls s,
       td,
       match out with Ok m => Some m | _ => clf s end,
       num_correct s, accuracy s) ->
    transition idx s (outcome_of out) s'
| no_model : forall v s',
    (train_count < Z.of_nat idx)%Z ->
    clf s = None ->
    frame_of s' =
      (observers s, Stored idx (Vals v) :: calls s,
       Py.replace_nth (tr_data s) idx (Vals v),
       clf s, num_correct s, accuracy s) ->
    transition idx s (Raise (UnboundLocalError "clf")) s'
| predict_failed : forall v s' m out,
    (train_count < Z.of_nat idx)%Z ->
    clf s = Some m ->
    out = predict m (Vals v) ->
    outcome_of out <> Ok tt ->
    frame_of s' =
      (observers s,
       Predict idx m (Vals v) out :: Stored idx (Vals v) :: calls s,
       Py.replace_nth (tr_data s) idx (Vals v),
       clf s, num_correct s, accuracy s) ->
    transition idx s (outcome_of out) s'
| label_missing : forall v s' m p,
    (train_count < Z.of_nat idx)%Z ->
    clf s = Some m ->
    predict m (Vals v) = Ok p ->
    Py.getitem labels (Z.of_nat idx - shift) = None ->
    frame_of s' =
      (observers s,
       Predict idx m (Vals v) (Ok p) :: Stored idx (Vals v) :: calls s,
       Py.replace_nth (tr_data s) idx (Vals v),
       clf s, num_correct s, accuracy s) ->
    transition idx s (Raise IndexError) s'
| classifying : forall v s' m p lbl n a,
    (train_count < Z.of_nat idx)%Z ->
    clf s = Some m ->
    predict m (Vals v) = Ok p ->
    Py.getitem labels (Z.of_nat idx - shift) = Some lbl ->
    n = (if (as_label p =? lbl)%Z then num_correct s + 1 else num_correct s)%Z ->
    Py.truediv n (Z.of_nat idx - train_count) = Some a ->
    ((incremental_batch >? 0) &&
     ((Z.of_nat idx - train_count) mod incremental_batch =? 0))%Z = false ->
    frame_of s' =
      (observers s,
       Predict idx m (Vals v) (Ok p) :: Stored idx (Vals v) :: calls s,
       Py.replace_nth (tr_data s) idx (Vals v),
       clf s, n, Some a) ->
    transition idx s (Ok tt) s'
| updating : forall v s' m p lbl n a td data lbls out,
    (train_count < Z.of_nat idx)%Z ->
    clf s = Some m ->
    predict m (Vals v) = Ok p ->
    Py.getitem labels (Z.of_nat idx - shift) = Some lbl ->
    n = (if (as_label p =? lbl)%Z then num_correct s + 1 else num_correct s)%Z ->
    Py.truediv n (Z.of_nat idx - train_count) = Some a ->
    ((incremental_batch >? 0) &&
     ((Z.of_nat idx - train_count) mod incremental_batch =? 0))%Z = true ->
    td = Py.replace_nth (tr_data s) idx (Vals v) ->
    data = Py.slice td (Z.of_nat idx - incremental_batch + shift) (Z.of_nat idx) ->
    lbls = Py.slice labels (Z.of_nat idx - incremental_batch) (Z.of_nat idx - shift) ->
    out = clf_obj data lbls (Some m) ->
    frame_of s' =
      (observers s,
       Train idx data lbls (Some m) out ::
         Predict idx m (Vals v) (Ok p) :: Stored idx (Vals v) :: calls s,
       td,
       match out with Ok m' => Some m' | _ => clf s end,
       n, Some a) ->
    transition idx s (outcome_of out) s'.

(** *** What a history of calls must look like

    Each call owes something to the calls made before it: a volume is
    stored after exactly the volumes of lower index; the first fit comes
    right after volume [train_count], on slices of the table as it then
    stands; a prediction is made with the live model on the row just
    stored; an update comes right after the prediction of its index, which
    returned, and is given the model that made it. *)
Definition ok_event (c : call) (older : list call) : Prop :=
  match c with
  | Stored idx r => stored_idxs older = rev (seq 0 idx)
  | Train idx data lbls None out =>
      Z.of_nat idx = train_count /\
      (exists r older', older = Stored idx r :: older') /\
      filter is_fit older = [] /\
      live older = None /\
      data = Py.slice (table (length labels) older) shift train_count /\
      lbls = Py.slice labels 0 (train_count - shift)
  | Train idx data lbls (Some m) out =>
      (train_count < Z.of_nat idx)%Z /\
      (0 < incremental_batch)%Z /\
      ((Z.of_nat idx - train_count) mod incremental_batch = 0)%Z /\
      (exists r p older', older = Predict idx m r (Ok p) :: older') /\
      data = Py.slice (table (length labels) older)
                      (Z.of_nat idx - incremental_batch + shift) (Z.of_nat idx) /\
      lbls = Py.slice labels (Z.of_nat idx - incremental_batch) (Z.of_nat idx - shift)
  | Predict idx m r out =>
      (train_count < Z.of_nat idx)%Z /\
      live older = Some m /\
      (exists older', older = Stored idx r :: older')
  end.

Fixpoint hist_ok (cs : list call) : Prop :=
  match cs with
  | [] => True
  | c :: older => ok_event c older /\ hist_ok older
  end.

(** Between two volumes nothing is pending: volume [train_count], once
    stored, has had its fit, and a prediction at a batch boundary that
    returned has had its update (unless its label could not be read). *)
Definition settled (cs : list call) : Prop :=
  (forall idx r, In (Stored idx r) cs -> Z.of_nat idx = train_count ->
     exists data lbls out, In (Train idx data lbls None out) cs) /\
  (forall idx m r p, In (Predict idx m r (Ok p)) cs ->
     (0 < incremental_batch)%Z ->
     ((Z.of_nat idx - train_count) mod incremental_batch = 0)%Z ->
     Py.getitem labels (Z.of_nat idx - shift) <> None ->
     exists data lbls out, In (Train idx data lbls (Some m) out) cs).

(** [accuracy], once bound, is a proportion, and some volume past
    [train_count] has been stored. *)
Definition acc_ok (s : state) : Prop :=
  match accuracy s with
  | None => True
  | Some a =>
      (0 <= a <= 1)%Q /\
      exists idx r, In (Stored idx r) (calls s) /\ (train_count < Z.of_nat idx)%Z
  end.

(** The frame agrees with the history. *)
Definition consistent (obs : list bool) (s : state) : Prop :=
  observers s = obs /\
  hist_ok (calls s) /\
  tr_data s = table (length labels) (calls s) /\
  clf s = live (calls s) /\
  acc_ok s /\
  settled (calls s).

(** Invariant of the loop before volume [i]. *)
Definition loop_inv (obs : list bool) (i : nat) (s : state) : Prop :=
  consistent obs s /\
  stored_idxs (calls s) = rev (seq 0 i) /\
  (0 <= num_correct s <= Z.max 0 (Z.of_nat i - 1 - train_count))%Z.

(** What holds when the loop has stopped on an exception or for ever. *)
Definition halted (obs : list bool) (s : state) : Prop :=
  consistent obs s /\
  exists k, (k <= length labels)%nat /\ stored_idxs (calls s) = rev (seq 0 k).

End Run.

(** [realtime(input_dir, train_count, clf_obj, incremental_batch)] *)
Definition realtime (labels : list Z) (mask : mask_t) (input_dir : string)
           (train_count : Z) (clf_obj : classifier) (incremental_batch : Z) : M Q :=
  realtime_shifted tr_shift labels mask input_dir train_count clf_obj incremental_batch.

(** The calling cell:
    [try: realtime(...) except Exception as err: file_observer.stop(); print(...)],
    where [file_observer] is the module-level observer of the earlier cells. *)
Definition calling_cell (file_observer : nat) (labels : list Z) (mask : mask_t)
           (input_dir : string) (train_count : Z) (clf_obj : classifier)
           (incremental_batch : Z) : M unit :=
  fun s =>
    match realtime labels mask input_dir train_count clf_obj incremental_batch s with
    | (Ok _, s') => (Ok tt, s')
    | (Raise err, s') => observer_stop file_observer s'
    | (Blocked, s') => (Blocked, s')
    end.

(** A session before the call: the files on disk, the events to come,
    the observers created by earlier cells; nothing called yet. *)
Definition boot (d : list (string * file)) (q : list fs_event)
           (obs : list bool) : state :=
  State d q obs [] [] None 0%Z None.

End Controller.

Arguments boot {volume vec clf_t} d q obs.
Arguments Stored {vec clf_t} idx r.
Arguments NaNs {vec}.
Arguments is_fit {vec clf_t} c.
Arguments is_update {vec clf_t} c.
Arguments is_predict {vec clf_t} c.

(** Indices at which the history holds a prediction, most recent first. *)
Definition predicted_idxs {vec clf_t} (cs : list (call vec clf_t)) : list nat :=
  flat_map (fun c => match c with Predict idx _ _ _ => [idx] | _ => [] end) cs.

(** ** A small session to run the controller on *)

Module Demo.

(** Volumes and vectors are numbers, a model is the number of training
    calls that made it, the mask is trivial. *)
Definition preprocess_vol (vol : Z) (_ : unit) : result Z := Ok vol.

Definition predict (m : nat) (r : row Z) : result prediction := Ok (PInt 1).

Definition clf_obj (data : list (row Z)) (lbls : list Z) (prev : option nat)
  : result nat :=
  Ok (match prev with None => 1%nat | Some k => S k end).

(** A classifier whose [predict] raises. *)
Definition broken_predict (m : nat) (r : row Z) : result prediction :=
  Raise (CollaboratorError 1).

Definition input_dir : string := "./11-real-time/fmrisim/".

Definition path (idx : nat) : string :=
  (data_dir input_dir ++ file_pattern idx)%string.

(** Volume [idx], completely written. *)
Definition volume_file (idx : nat) : string * file Z :=
  (path idx, File 0 (Z.of_nat idx)).

Definition disk_upto (n : nat) : list (string * file Z) :=
  map volume_file (seq 0 n).

Definition alternating : list Z := [1; 2; 1; 2; 1; 2; 1; 2; 1; 2]%Z.

(** A session in which earlier cells have created, run and stopped one
    observer, the module-level [file_observer]. *)
Definition session (d : list (string * file Z)) (q : list (fs_event Z))
  : state Z Z nat :=
  boot d q [false].

End Demo.

(** ** Preprocessing of one volume *)

Module Preprocess.

Local Open Scope R_scope.

(** A 3-dimensional array, and its elements in row-major order. *)
Definition array3 (A : Type) : Type := list (list (list A)).

Definition ravel {A} (a : array3 A) : list A := concat (concat a).

(** [vol[mask]]: the elements of [vol] at the true entries of [mask]. *)
Definition select (vol : list R) (mask : list bool) : list R :=
  map fst (filter snd (combine vol mask)).


Definition sum (xs : list R) : R := fold_right Rplus 0 xs.

Definition mean (xs : list R) : R := sum xs / INR (length xs).

(** Standard deviation with [ddof] delta degrees of freedom. *)
Definition std (ddof : nat) (xs : list R) : R :=
  sqrt (sum (map (fun x => (x - mean xs) * (x - mean xs)) xs)
        / (INR (length xs) - INR ddof)).

Definition zscore (ddof : nat) (xs : list R) : list R :=
  map (fun x => (x - mean xs) / std ddof xs) xs.

(** Modelled from the spec: the body of [preprocess_vol], which the
    notebook leaves to the reader.  The mask selects elements, the
    selection is flattened, then z-scored (subtract the mean, divide by
    the standard deviation) across the selected elements of this one
    volume.  Floating-point numbers are taken as reals. *)
Definition preprocess_vol (ddof : nat) (vol : array3 R) (mask : array3 bool)
  : list R :=
  zscore ddof (select (ravel vol) (ravel mask)).

End Preprocess.

From Stdlib Require DecimalNat.

(** ** File names *)

(** [names] is in strictly increasing lexicographic order: every name
    is below all the names after it. *)
Fixpoint increasing (names : list string) : bool :=
  match names with
  | [] => true
  | name :: later => forallb (String.ltb name) later && increasing later
  end.

(** The number that a file name of digits stands for, leading zeros
    included. *)
Definition digits_value (s : string) : option nat :=
  option_map Nat.of_uint (NilEmpty.uint_of_string s).

(** ** Reading more of the history of calls *)

Section History.

Variables vec clf_t : Type.

(** A prediction that returned and agrees with the label it is compared
    with, [labels[idx - shift]]. *)
Definition is_correct (shift : Z) (labels : list Z) (c : call vec clf_t) : bool :=
  match c with
  | Predict idx _ _ (Ok p) =>
      match Py.getitem labels (Z.of_nat idx - shift) with
      | Some lbl => (as_label p =? lbl)%Z
      | None => false
      end
  | _ => false
  end.

End History.

(** ** The trainers of the notebook *)

Section Trainers.

Variables vec clf_t : Type.

(** The [penalty] argument of [LogisticRegression]: the name of a norm,
    or whatever object the caller passes in third position. *)
Inductive penalty : Type :=
| penalty_name (name : string)
| penalty_object (c : clf_t).

(** [LogisticRegression(penalty=p).fit(X, y)], a collaborator. *)
Variable LogisticRegression_fit :
  penalty -> list (row vec) -> list bool -> result clf_t.

(** [training_labels == 2] *)
Definition is_state_2 (training_labels : list Z) : list bool :=
  map (fun l => (l =? 2)%Z) training_labels.

(** [train_logistic(training_data, training_labels, parameters='l2')] *)
Definition train_logistic : classifier vec clf_t :=
  fun training_data training_labels parameters =>
    let p := match parameters with
             | None => penalty_name "l2"
             | Some c => penalty_object c
             end in
    LogisticRegression_fit p training_data (is_state_2 training_labels).

(** [linear_model.SGDClassifier()] and
    [clf.partial_fit(X, y, classes=all_classes)], collaborators; the
    classifier that comes back is the one given, updated. *)
Variable SGDClassifier : clf_t.
Variable partial_fit :
  clf_t -> list (row vec) -> list Z -> list Z -> result clf_t.

Definition all_classes : list Z := [1; 2]%Z.

(** [train_incremental(training_data, training_labels, parameters=None)] *)
Definition train_incremental : classifier vec clf_t :=
  fun training_data training_labels parameters =>
    let clf := match parameters with
               | None => SGDClassifier
               | Some c => c
               end in
    partial_fit clf training_data training_labels all_classes.

(** The batches of the training calls of a history, oldest first. *)
Definition training_batches (cs : list (call vec clf_t))
  : list (list (row vec) * list Z) :=
  flat_map (fun c => match c with
                     | Train _ data lbls _ _ => [(data, lbls)]
                     | _ => []
                     end) (rev cs).

(** A fresh classifier taken through [batches], one [partial_fit] each;
    the first failure ends it. *)
Definition replay (batches : list (list (row vec) * list Z)) : result clf_t :=
  fold_left (fun acc batch =>
               match acc with
               | Ok c => partial_fit c (fst batch) (snd batch) all_classes
               | failed => failed
               end) batches (Ok SGDClassifier).

End Trainers.

(** ** The cells that come before [realtime] *)

Section Cells.

Variables volume vec clf_t mask_t : Type.
Variable preprocess_vol : volume -> mask_t -> result vec.
Variable LogisticRegression_fit :
  penalty clf_t -> list (row vec) -> list bool -> result clf_t.

#[local] Notation "x <- m ;; k" := (bind m (fun x => k))
  (at level 61, m at next level, right associativity).
#[local] Notation "m ;;; k" := (bind m (fun _ => k))
  (at level 61, right associativity).

(** The cell that streams the training volumes: it starts an observer,
    waits for the volumes [0] to [train_count - 1] in turn, and stops the
    observer. *)
Definition watch_cell (data_dir : string) (train_count : nat)
  : M volume vec clf_t unit :=
  file_observer <- @Observer volume vec clf_t ;;
  observer_start file_observer ;;;
  for_each (seq 0 train_count)
    (fun idx =>
       vol <- tr_watcher (data_dir ++ file_pattern idx) ;;
       ret tt) ;;;
  observer_stop file_observer.

(** The cell that preprocesses the training volumes: [tr_data] has
    [train_count] rows preset to NaNs, and row [idx] receives the
    preprocessed volume [idx]. *)
Definition preprocess_cell (mask : mask_t) (data_dir : string) (train_count : nat)
  : M volume vec clf_t unit :=
  modify (with_tr_data (repeat NaNs train_count)) ;;;
  file_observer <- @Observer volume vec clf_t ;;
  observer_start file_observer ;;;
  for_each (seq 0 train_count)
    (fun idx =>
       vol <- tr_watcher (data_dir ++ file_pattern idx) ;;
       v <- lift (preprocess_vol vol mask) ;;
       store_row idx v) ;;;
  observer_stop file_observer.

(** The cells that shift the labels and fit the model:
    [training_data = tr_data[tr_shift:train_count, :]],
    [training_labels = labels[0:train_count - tr_shift]],
    [clf = train_logistic(training_data, training_labels[:,0])]. *)
Definition fit_cell (labels : list Z) (train_count : nat)
  : M volume vec clf_t clf_t :=
  td <- get (@tr_data volume vec clf_t) ;;
  let training_data := Py.slice td tr_shift (Z.of_nat train_count) in
  let training_labels := Py.slice labels 0 (Z.of_nat train_count - tr_shift) in
  m <- lift (train_logistic LogisticRegression_fit training_data training_labels None) ;;
  modify (with_clf (Some m)) ;;;
  ret m.

End Cells.

(** ** Names of the participants' folders (both notebooks) *)

(** [if (sub_id < 10): sids = '0' + str(sub_id) else: sids = str(sub_id)],
    for the participant numbers, which are natural numbers. *)
Definition sids (sub_id : nat) : string :=
  if (sub_id <? 10)%nat then ("0" ++ Py.str_of_nat sub_id)%string
  else Py.str_of_nat sub_id.

(** [sub = 'sub-' + sids] *)
Definition sub (sub_id : nat) : string := ("sub-" ++ sids sub_id)%string.

(** ** The volumes of a session and the rows stored *)

(** The rows that a history has stored, each with its index, oldest
    first. *)
Definition stored_rows {vec clf_t} (cs : list (call vec clf_t))
  : list (nat * row vec) :=
  flat_map (fun c => match c with
                     | Stored idx r => [(idx, r)]
                     | _ => []
                     end) (rev cs).

(** [f] is a file named [name] of the session that starts with the disk
    [d] and the queue [q]: it is on disk, or an event of the queue tells
    its creation. *)
Definition in_session {volume} (d : list (string * file volume))
           (q : list (fs_event volume)) (name : string) (f : file volume) : Prop :=
  In (name, f) d \/ In (Created name f) q.

(** ** Invariants of the loop *)

Section Invariants.

Variables volume vec clf_t mask_t : Type.
Variable preprocess_vol : volume -> mask_t -> result vec.
Variable predict : clf_t -> row vec -> result prediction.
Variable shift : Z.
Variable labels : list Z.
Variable mask : mask_t.
Variable input_dir : string.
Variable train_count : Z.
Variable clf_obj : classifier vec clf_t.
Variable SGDClassifier : clf_t.
Variable partial_fit :
  clf_t -> list (row vec) -> list Z -> list Z -> result clf_t.

(** A call put in the history by the step of volume [idx] from [s]: a row
    stored is the preprocessed volume that the watcher has returned, and a
    collaborator's outcome is the one recorded. *)
Definition sound_call (idx : nat) (s : state volume vec clf_t)
           (c : call vec clf_t) : Prop :=
  match c with
  | Stored j r =>
      j = idx /\
      exists vol v,
        fst (tr_watcher (data_dir input_dir ++ file_pattern idx) s) = Ok vol /\
        preprocess_vol vol mask = Ok v /\ r = Vals v
  | Train j data lbls prev out => j = idx /\ out = clf_obj data lbls prev
  | Predict j m r out => j = idx /\ out = predict m r
  end.

(** The calls of a run are sound: every collaborator's outcome in the
    history is the one of the call recorded, and every row stored holds a
    vector. *)
Definition faithful_call (c : call vec clf_t) : Prop :=
  match c with
  | Stored _ r => exists v, r = Vals v
  | Train _ data lbls prev out => out = clf_obj data lbls prev
  | Predict _ m r out => out = predict m r
  end.

(** Before volume [i]: [num_correct] counts the predictions of the
    history that agree with their label, there is one prediction for each
    index past [train_count], and [accuracy], once bound, is their
    quotient. *)
Definition counted (i : nat) (s : state volume vec clf_t) : Prop :=
  num_correct s =
    Z.of_nat (length (filter (is_correct shift labels) (calls s))) /\
  (clf s <> None -> (0 <= train_count)%Z) /\
  (accuracy s <> None -> (0 <= train_count)%Z /\ (train_count + 1 < Z.of_nat i)%Z) /\
  ((0 <= train_count)%Z ->
   Z.of_nat (length (filter is_predict (calls s))) =
     Z.max 0 (Z.of_nat i - 1 - train_count) /\
   ((train_count + 1 < Z.of_nat i)%Z ->
    accuracy s = Py.truediv (num_correct s) (Z.of_nat i - 1 - train_count))).

(** The model bound to [clf] is the fresh classifier taken through the
    batches of the training calls so far. *)
Definition replayed (s : state volume vec clf_t) : Prop :=
  match clf s with
  | None => training_batches (calls s) = []
  | Some m => replay SGDClassifier partial_fit (training_batches (calls s)) = Ok m
  end /\
  (accuracy s <> None -> clf s <> None).

(** The rows filled so far, then NaNs. *)
Definition filled (pv : nat -> vec) (t i : nat) : list (row vec) :=
  map (fun j => Vals (pv j)) (seq 0 i) ++ repeat NaNs (t - i).

(** Neither on disk nor announced. *)
Definition never_comes (name : string) (s : state volume vec clf_t) : Prop :=
  lookup name (disk s) = None /\
  forall e, In e (file_queue s) -> src_path e <> name.

End Invariants.

(** ** Trainers for the small session *)

Module Trial.

(** A logistic model is the number of rows it was fit on. *)
Definition LogisticRegression_fit (p : penalty nat) (X : list (row Z))
           (y : list bool) : result nat :=
  Ok (length X).

Definition SGDClassifier : nat := 0%nat.

(** An incremental model counts the rows it has been given. *)
Definition partial_fit (c : nat) (X : list (row Z)) (y classes : list Z)
  : result nat :=
  Ok (c + length X)%nat.

End Trial.

(** ** From samples back to volumes (notebook 07-searchlight) *)

Module Searchlight.

Section Volume.

(** The numbers of the arrays, and their zero. *)
Variable A : Type.
Variable zero : A.

(** A 3-dimensional array; a 4-dimensional one is a 3-dimensional array
    of series. *)
Definition array3 (B : Type) : Type := list (list (list B)).

(** [a.shape], for an array that has the same extent along every plane
    and every line. *)
Definition shape {B} (a : array3 B) : nat * nat * nat :=
  (length a, length (hd [] a), length (hd [] (hd [] a))).

(** [a[i, j, k]] for indices that are not negative; [None] is an
    IndexError. *)
Definition getitem3 {B} (a : array3 B) (c : nat * (nat * nat)) : option B :=
  match nth_error a (fst c) with
  | Some plane =>
      match nth_error plane (fst (snd c)) with
      | Some line => nth_error line (snd (snd c))
      | None => None
      end
  | None => None
  end.

Fixpoint update {B} (l : list B) (n : nat) (f : B -> B) : list B :=
  match l, n with
  | [], _ => []
  | x :: rest, O => f x :: rest
  | x :: rest, S n' => x :: update rest n' f
  end.

(** [a[i, j, k] = x] for indices within the shape. *)
Definition setitem3 {B} (a : array3 B) (c : nat * (nat * nat)) (x : B) : array3 B :=
  update a (fst c)
         (fun plane => update plane (fst (snd c))
                              (fun line => update line (snd (snd c)) (fun _ => x))).

(** The indices of an array of shape [(x, y, z)], in row-major order. *)
Definition ndindex (x y z : nat) : list (nat * (nat * nat)) :=
  list_prod (seq 0 x) (list_prod (seq 0 y) (seq 0 z)).

(** [np.where(mask)]: the indices of the non-zero entries, in row-major
    order; an entry of [mask] tells whether the number there is non-zero. *)
Definition np_where (mask : array3 bool) : list (nat * (nat * nat)) :=
  let '(x, y, z) := shape mask in
  filter (fun c => match getitem3 mask c with
                   | Some b => b
                   | None => false
                   end)
         (ndindex x y z).

(** [np.zeros((x, y, z, t))] *)
Definition np_zeros (x y z t : nat) : array3 (list A) :=
  repeat (repeat (repeat (repeat zero t) z) y) x.

(** [m.T], for a matrix given by its rows *)
Definition transpose (m : list (list A)) : list (list A) :=
  map (fun n => map (fun r => nth n r zero) m) (seq 0 (length (hd [] m))).

(** The cell that stacks the samples as volumes:
    [bold_vol = np.zeros(mask.shape + (bold_data.shape[0],))],
    [coords = np.where(whole_brain_mask)],
    [bold_vol[coords[0], coords[1], coords[2], :] = bold_data.T].
    The assignment wants as many series as there are coordinates, or one
    series, which it gives to every coordinate; [None] is its ValueError. *)
Definition stack_volumes (whole_brain_mask : array3 bool)
           (bold_data : list (list A)) : option (array3 (list A)) :=
  let '(x, y, z) := shape whole_brain_mask in
  let bold_vol := np_zeros x y z (length bold_data) in
  let coords := np_where whole_brain_mask in
  let values := transpose bold_data in
  if (length values =? length coords)%nat then
    Some (fold_left (fun vol cv => setitem3 vol (fst cv) (snd cv))
                    (combine coords values) bold_vol)
  else if (length values =? 1)%nat then
    Some (fold_left (fun vol c => setitem3 vol c (hd [] values)) coords bold_vol)
  else None.

End Volume.

End Searchlight.

(** * Properties *)

Unset Implicit Arguments.

(** ** Python sequences *)

Lemma replace_nth_length {A} (l : list A) j x :
  length (Py.replace_nth l j x) = length l.
Proof.
  revert j; induction l as [|h t IH]; intros [|j]; simpl; auto.
Qed.

Lemma nth_error_replace_nth {A} (l : list A) j x :
  (j < length l)%nat -> nth_error (Py.replace_nth l j x) j = Some x.
Proof.
  revert j; induction l as [|h t IH]; intros [|j] H; simpl in *; try lia; auto.
  apply IH; lia.
Qed.

Lemma position_inv n i j :
  Py.position n i = Some j -> (Z.of_nat j < n)%Z.
Proof.
  unfold Py.position.
  destruct (i <? 0)%Z;
    match goal with |- context [(?a || ?b)%bool] => destruct a eqn:Ha; destruct b eqn:Hb end;
    simpl; intros H; inversion H; subst; lia.
Qed.

Lemma position_nat n (j : nat) :
  (j < n)%nat -> Py.position (Z.of_nat n) (Z.of_nat j) = Some j.
Proof.
  intros H. unfold Py.position.
  destruct (Z.of_nat j <? 0)%Z eqn:E0; [apply Z.ltb_lt in E0; lia|].
  rewrite E0. simpl.
  destruct (Z.of_nat n <=? Z.of_nat j)%Z eqn:E1; [apply Z.leb_le in E1; lia|].
  f_equal. apply Nat2Z.id.
Qed.

Lemma position_of_nat n (i j : nat) :
  Py.position (Z.of_nat n) (Z.of_nat i) = Some j -> j = i /\ (i < n)%nat.
Proof.
  unfold Py.position.
  destruct (Z.of_nat i <? 0)%Z eqn:E0; [apply Z.ltb_lt in E0; lia|].
  rewrite E0. simpl.
  destruct (Z.of_nat n <=? Z.of_nat i)%Z eqn:E1; intros H; inversion H.
  apply Z.leb_gt in E1. split; [apply Nat2Z.id | lia].
Qed.

Lemma getitem_nat {A} (l : list A) (j : nat) x :
  nth_error l j = Some x -> Py.getitem l (Z.of_nat j) = Some x.
Proof.
  intros H. unfold Py.getitem, Py.len.
  rewrite position_nat; [exact H|].
  apply nth_error_Some. congruence.
Qed.

Lemma replace_nth_map_seq {A} (f : nat -> A) a n i x :
  Py.replace_nth (map f (seq a n)) i x =
  map (fun j => if Nat.eqb (a + i) j then x else f j) (seq a n).
Proof.
  revert a i; induction n as [|n IH]; intros a i; simpl; [reflexivity|].
  destruct i as [|i]; simpl.
  - rewrite Nat.add_0_r, Nat.eqb_refl. f_equal.
    apply map_ext_in. intros j Hj. apply in_seq in Hj.
    destruct (Nat.eqb_spec a j); [lia | reflexivity].
  - destruct (Nat.eqb_spec (a + S i) a); [lia|]. f_equal.
    rewrite IH. apply map_ext. intros j.
    replace (S a + i)%nat with (a + S i)%nat by lia. reflexivity.
Qed.

Lemma truediv_proportion n b a :
  (0 < b)%Z -> (0 <= n <= b)%Z -> Py.truediv n b = Some a -> (0 <= a <= 1)%Q.
Proof.
  intros Hb Hn. unfold Py.truediv.
  destruct (b =? 0)%Z eqn:E; [apply Z.eqb_eq in E; lia|].
  intros H; inversion H; subst a; clear H.
  rewrite Z.sgn_pos, Z.abs_eq by lia.
  unfold Qle; simpl. rewrite Z2Pos.id by lia. lia.
Qed.

Lemma rev_seq_S i : rev (seq 0 (S i)) = i :: rev (seq 0 i).
Proof. rewrite seq_S, rev_app_distr. reflexivity. Qed.

Lemma firstn_seq_le len : forall k start,
  (k <= len)%nat -> firstn k (seq start len) = seq start k.
Proof.
  induction len as [|len IH]; intros [|k] start Hk; simpl; try reflexivity; try lia.
  f_equal. apply IH. lia.
Qed.

(** Slices with bounds inside the sequence. *)
Lemma slice_map_seq {A} (f : nat -> A) n a b :
  (a <= b <= n)%nat ->
  Py.slice (map f (seq 0 n)) (Z.of_nat a) (Z.of_nat b) = map f (seq a (b - a)).
Proof.
  intros H. unfold Py.slice, Py.len, Py.adjust.
  rewrite length_map, length_seq.
  destruct (Z.of_nat a <? 0)%Z eqn:Ea; [apply Z.ltb_lt in Ea; lia|].
  destruct (Z.of_nat b <? 0)%Z eqn:Eb; [apply Z.ltb_lt in Eb; lia|].
  rewrite !Z.min_l by lia.
  replace (Z.to_nat (Z.of_nat b - Z.of_nat a)) with (b - a)%nat by lia.
  rewrite Nat2Z.id, skipn_map, firstn_map, skipn_seq. simpl.
  f_equal. apply firstn_seq_le. lia.
Qed.

Lemma map_nth_seq {A} (l : list A) d :
  map (fun i => nth i l d) (seq 0 (length l)) = l.
Proof.
  induction l as [|h t IH]; simpl; [reflexivity|].
  f_equal. rewrite <- seq_shift, map_map. exact IH.
Qed.

Lemma slice_nth {A} (l : list A) d a b :
  (a <= b <= length l)%nat ->
  Py.slice l (Z.of_nat a) (Z.of_nat b) = map (fun i => nth i l d) (seq a (b - a)).
Proof.
  intros H. rewrite <- (map_nth_seq l d) at 1.
  apply (slice_map_seq (fun i => nth i l d)). exact H.
Qed.

Lemma combine_map_seq {A B} (f : nat -> A) (g : nat -> B) a a' k :
  combine (map f (seq a k)) (map g (seq a' k)) =
  map (fun i => (f i, g (i - a + a')%nat)) (seq a k).
Proof.
  revert a a'. induction k as [|k IH]; intros a a'; simpl; [reflexivity|].
  rewrite Nat.sub_diag. simpl. f_equal.
  rewrite IH. apply map_ext_in. intros i Hi. apply in_seq in Hi.
  f_equal. f_equal. lia.
Qed.

Lemma singleton_of_short {A} (l : list A) x :
  (length l <= 1)%nat -> In x l -> l = [x].
Proof.
  destruct l as [|y [|z l]]; simpl; intros Hlen Hin; try lia; try tauto.
  destruct Hin as [->|[]]. reflexivity.
Qed.

Lemma multiple_ge a b :
  (0 < a)%Z -> (0 < b)%Z -> (a mod b = 0)%Z -> (b <= a)%Z.
Proof.
  intros Ha Hb Hm. apply Z.mod_divide in Hm; [|lia].
  apply Z.divide_pos_le; assumption.
Qed.

Ltac split6 := split; [|split; [|split; [|split; [|split]]]].

Ltac frame_tac := unfold frame_of; simpl; congruence.

Section Properties.

Variables volume vec clf_t mask_t : Type.

Set Default Proof Using "Type".

(** ** Weakest preconditions for the monad *)

Lemma wp_bind {A B} (m : M volume vec clf_t A) (k : A -> M volume vec clf_t B) s Q :
  wp m s (fun r s' =>
            match r with
            | Ok a => wp (k a) s' Q
            | Raise e => Q (Raise e) s'
            | Blocked => Q Blocked s'
            end) ->
  wp (bind m k) s Q.
Proof.
  unfold wp, bind. destruct (m s) as [[a|e|] s']; simpl; auto.
Qed.

Lemma wp_ret {A} (a : A) (s : state volume vec clf_t) (Q : result A -> _ -> Prop) : Q (Ok a) s -> wp (ret a) s Q.
Proof. exact (fun H => H). Qed.

Lemma wp_get {A} (f : state volume vec clf_t -> A) s (Q : result A -> _ -> Prop) :
  Q (Ok (f s)) s -> wp (get f) s Q.
Proof. exact (fun H => H). Qed.

Lemma wp_modify f (s : state volume vec clf_t) (Q : result unit -> _ -> Prop) :
  Q (Ok tt) (f s) -> wp (modify f) s Q.
Proof. exact (fun H => H). Qed.

Lemma wp_or_raise {A} (o : option A) e (s : state volume vec clf_t) (Q : result A -> _ -> Prop) :
  match o with Some a => Q (Ok a) s | None => Q (Raise e) s end ->
  wp (or_raise o e) s Q.
Proof. destruct o; exact (fun H => H). Qed.

Lemma wp_lift {A} (r : result A) (s : state volume vec clf_t) (Q : result A -> _ -> Prop) :
  Q r s -> wp (lift r) s Q.
Proof. exact (fun H => H). Qed.

Lemma wp_conseq {A} (m : M volume vec clf_t A) s (Q Q' : result A -> _ -> Prop) :
  wp m s Q -> (forall r s', Q r s' -> Q' r s') -> wp m s Q'.
Proof. unfold wp; auto. Qed.

Ltac wp_walk :=
  repeat (cbv beta iota;
          first [ apply wp_bind | apply wp_get | apply wp_modify | apply wp_ret
                | apply wp_lift | apply wp_or_raise
                | progress unfold store_row, call_clf_obj, call_predict, record
                | match goal with
                  | |- wp (if ?b then _ else _) _ _ => destruct b
                  | |- match ?x with _ => _ end => destruct x
                  end ]).

(** ** The watchers leave the frame alone *)

Lemma np_load_frame filename (s : state volume vec clf_t) :
  frame_of (snd (np_load filename s)) = frame_of s.
Proof.
  unfold np_load. destruct (lookup filename (disk s)) as [[[|k] c]|]; reflexivity.
Qed.

Lemma tr_watcher_frame filename (s : state volume vec clf_t) :
  frame_of (snd (tr_watcher filename s)) = frame_of s.
Proof.
  unfold tr_watcher, bind, os_path_exists, get, wait_for_event, ret.
  destruct (lookup filename (disk s)) as [f|] eqn:E.
  - pose proof (np_load_frame filename s) as H.
    destruct (np_load filename s) as [[v|e|] s']; exact H.
  - destruct (await_event filename (disk s) (file_queue s)) as [[[|] d] q]; [|reflexivity].
    match goal with |- context [np_load filename ?t] =>
      pose proof (np_load_frame filename t) as H;
      destruct (np_load filename t) as [[v|e|] s'] end; exact H.
Qed.

(** ** Files that have come or are announced are found *)

Lemma lookup_cons_found name n (f : file volume) d :
  lookup name d <> None -> lookup name ((n, f) :: d) <> None.
Proof. simpl. destruct (String.eqb n name); [discriminate | auto]. Qed.

Lemma lookup_complete name (d : list (string * file volume)) f :
  Forall (fun nf => partial_reads (snd nf) = 0%nat) d ->
  lookup name d = Some f -> partial_reads f = 0%nat.
Proof.
  induction d as [|[n g] d IH]; simpl; [discriminate|].
  intros Hall. inversion Hall as [|x l Hg Hd]; subst.
  destruct (String.eqb n name); [|auto].
  intros H; inversion H; subst. exact Hg.
Qed.

Lemma await_event_ready names name : forall q (d : list (string * file volume)),
  Forall (fun nf => partial_reads (snd nf) = 0%nat) d ->
  Forall (fun event => partial_reads (created event) = 0%nat) q ->
  (forall n, In n names -> lookup n d <> None \/ In n (map (@src_path volume) q)) ->
  In name names ->
  lookup name d = None ->
  exists d' q',
    await_event name d q = (true, d', q') /\
    Forall (fun nf => partial_reads (snd nf) = 0%nat) d' /\
    Forall (fun event => partial_reads (created event) = 0%nat) q' /\
    (forall n, In n names -> lookup n d' <> None \/ In n (map (@src_path volume) q')) /\
    lookup name d' <> None.
Proof.
  induction q as [|event q IH]; intros d Hd Hq Hav Hin Hno.
  - destruct (Hav name Hin) as [H|[]]. contradiction.
  - inversion Hq as [|x l He Hq']; subst. simpl.
    assert (Hd' : Forall (fun nf => partial_reads (snd nf) = 0%nat)
                         ((src_path event, created event) :: d))
      by (constructor; [exact He | exact Hd]).
    assert (Hav' : forall n, In n names ->
              lookup n ((src_path event, created event) :: d) <> None \/
              In n (map (@src_path volume) q)).
    { intros n Hn. destruct (Hav n Hn) as [H|[H|H]].
      - left. apply lookup_cons_found. exact H.
      - left. simpl. rewrite H, String.eqb_refl. discriminate.
      - right. exact H. }
    destruct (String.eqb (src_path event) name) eqn:E.
    + exists ((src_path event, created event) :: d), q.
      repeat split; auto. simpl. rewrite E. discriminate.
    + apply IH; auto. simpl. rewrite E. exact Hno.
Qed.

Lemma tr_watcher_ready names name (s : state volume vec clf_t) :
  ready names s -> In name names ->
  (exists vol, fst (tr_watcher name s) = Ok vol) /\
  ready names (snd (tr_watcher name s)).
Proof.
  intros (Hd & Hq & Hav) Hin.
  unfold tr_watcher, bind, os_path_exists, get, wait_for_event, ret.
  destruct (lookup name (disk s)) as [f|] eqn:E.
  - unfold np_load. rewrite E, (lookup_complete _ _ _ Hd E). simpl.
    split; [eexists; reflexivity | repeat split; assumption].
  - destruct (await_event_ready names name _ _ Hd Hq Hav Hin E)
      as (d' & q' & -> & Hd' & Hq' & Hav' & Hfound).
    unfold np_load. simpl.
    destruct (lookup name d') as [f|] eqn:E'; [|contradiction].
    rewrite (lookup_complete _ _ _ Hd' E'). simpl.
    split; [eexists; reflexivity | repeat split; assumption].
Qed.

Lemma tr_watcher_wp filename (s : state volume vec clf_t) :
  wp (tr_watcher filename) s (fun _ s' => frame_of s' = frame_of s).
Proof. exact (tr_watcher_frame filename s). Qed.

Section Run.

Variable preprocess_vol : volume -> mask_t -> result vec.
Variable predict : clf_t -> row vec -> result prediction.
Variable shift : Z.
Variable labels : list Z.
Variable mask : mask_t.
Variable input_dir : string.
Variable train_count : Z.
Variable clf_obj : classifier vec clf_t.
Variable incremental_batch : Z.

#[local] Abbreviation step :=
  (on_volume preprocess_vol predict shift labels mask input_dir
             train_count clf_obj incremental_batch).
#[local] Abbreviation moves :=
  (transition preprocess_vol predict shift labels mask input_dir
              train_count clf_obj incremental_batch).

Lemma on_volume_transition idx s :
  moves idx s (fst (step idx s)) (snd (step idx s)).
Proof.
  change (wp (step idx) s (moves idx s)).
  unfold on_volume.
  apply wp_bind. unfold wp at 1.
  pose proof (tr_watcher_frame (data_dir input_dir ++ file_pattern idx) s) as Hs1.
  destruct (tr_watcher (data_dir input_dir ++ file_pattern idx) s)
    as [[vol|e|] s1] eqn:Hw; simpl in Hs1; simpl fst; simpl snd; cbv iota;
    [| apply no_volume; [discriminate | exact Hs1 | rewrite Hw; exact I] ..].
  unfold frame_of in Hs1. injection Hs1 as Hobs Hcalls Htd Hclf Hnc Hacc.
  apply wp_bind, wp_lift.
  destruct (preprocess_vol vol mask) as [v|e|] eqn:Hpp;
    [| apply no_volume;
       [discriminate | unfold frame_of; congruence | rewrite Hw; simpl; rewrite Hpp; exact I] ..].
  apply wp_bind. unfold store_row.
  apply wp_bind, wp_get. apply wp_bind, wp_or_raise.
  unfold Py.setitem.
  destruct (Py.position (Py.len (tr_data s1)) (Z.of_nat idx)) as [j|] eqn:Hpos.
  2:{ apply no_volume; [discriminate | unfold frame_of; congruence |].
      rewrite Hw; simpl; rewrite Hpp. rewrite <- Htd.
      destruct (Nat.le_gt_cases (length (tr_data s1)) idx) as [Hle|Hgt]; [exact Hle|].
      unfold Py.len in Hpos. rewrite (position_nat _ _ Hgt) in Hpos. discriminate. }
  apply position_of_nat in Hpos. destruct Hpos as [-> Hlt].
  apply wp_bind, wp_modify. unfold record. apply wp_modify.
  match goal with |- wp _ ?t _ => set (s2 := t) end.
  assert (Hs2 : frame_of s2 =
                (observers s, Stored idx (Vals v) :: calls s,
                 Py.replace_nth (tr_data s) idx (Vals v),
                 clf s, num_correct s, accuracy s))
    by (unfold s2, frame_of; simpl; congruence).
  assert (Hlen : (idx < length (tr_data s2))%nat)
    by (unfold s2; simpl; rewrite replace_nth_length; exact Hlt).
  assert (Hrow : nth_error (tr_data s2) idx = Some (Vals v))
    by (unfold s2; simpl; apply nth_error_replace_nth; exact Hlt).
  clearbody s2. clear Hlt Hobs Hcalls Htd Hclf Hnc Hacc Hw Hpp s1.
  pose proof Hs2 as Hf. unfold frame_of in Hf.
  injection Hf as Hobs Hcalls Htd Hclf Hnc Hacc.
  destruct (Z.of_nat idx <? train_count)%Z eqn:Hlt.
  { apply wp_ret. apply Z.ltb_lt in Hlt. eapply collecting; eauto. }
  apply Z.ltb_ge in Hlt.
  destruct (Z.of_nat idx =? train_count)%Z eqn:Heq.
  { apply Z.eqb_eq in Heq.
    apply wp_bind, wp_get. apply wp_bind. unfold call_clf_obj.
    apply wp_bind, wp_modify. apply wp_lift.
    destruct (clf_obj (Py.slice (tr_data s2) shift train_count)
                      (Py.slice labels 0 (train_count - shift)) None) as [m|e|] eqn:Hout.
    - apply wp_modify.
      eapply training with (v := v) (out := Ok m); eauto; frame_tac.
    - eapply training with (v := v) (out := Raise e); eauto; frame_tac.
    - eapply training with (v := v) (out := Blocked); eauto; frame_tac. }
  apply Z.eqb_neq in Heq.
  destruct (Z.of_nat idx >? train_count)%Z eqn:Hgt;
    [| rewrite Z.gtb_ltb in Hgt; apply Z.ltb_ge in Hgt; lia].
  rewrite Z.gtb_ltb in Hgt; apply Z.ltb_lt in Hgt.
  apply wp_bind, wp_get. apply wp_bind, wp_or_raise. rewrite Hclf.
  destruct (clf s) as [m|] eqn:Hm;
    [| eapply no_model with (v := v); eauto; frame_tac].
  apply wp_bind, wp_get. apply wp_bind, wp_or_raise.
  rewrite (getitem_nat _ _ _ Hrow).
  apply wp_bind. unfold call_predict. apply wp_bind, wp_modify. apply wp_lift.
  destruct (predict m (Vals v)) as [p|e|] eqn:Hp;
    [| eapply predict_failed with (v := v) (out := Raise e); eauto;
       [discriminate | frame_tac]
     | eapply predict_failed with (v := v) (out := Blocked); eauto;
       [discriminate | frame_tac]].
  apply wp_bind, wp_or_raise.
  destruct (Py.getitem labels (Z.of_nat idx - shift)) as [lbl|] eqn:Hlbl;
    [| eapply label_missing with (v := v); eauto; frame_tac].
  apply wp_bind, wp_modify. simpl num_correct. rewrite Hnc.
  set (n := (if (as_label p =? lbl)%Z then num_correct s + 1 else num_correct s)%Z).
  apply wp_bind, wp_get. apply wp_bind, wp_or_raise. simpl.
  destruct (Py.truediv n (Z.of_nat idx - train_count)) as [a|] eqn:Hdiv.
  2:{ unfold Py.truediv in Hdiv.
      destruct (Z.of_nat idx - train_count =? 0)%Z eqn:E; [|discriminate].
      apply Z.eqb_eq in E. lia. }
  apply wp_bind, wp_modify.
  destruct ((incremental_batch >? 0) &&
            ((Z.of_nat idx - train_count) mod incremental_batch =? 0))%Z eqn:Hb.
  2:{ apply wp_ret. eapply classifying with (v := v) (n := n); eauto; frame_tac. }
  apply wp_bind, wp_get. apply wp_bind, wp_get. apply wp_bind, wp_or_raise.
  simpl. rewrite Hclf.
  apply wp_bind. unfold call_clf_obj. apply wp_bind, wp_modify. apply wp_lift.
  simpl.
  destruct (clf_obj (Py.slice (tr_data s2) (Z.of_nat idx - incremental_batch + shift)
                              (Z.of_nat idx))
                    (Py.slice labels (Z.of_nat idx - incremental_batch)
                              (Z.of_nat idx - shift)) (Some m)) as [m'|e|] eqn:Hout.
  - apply wp_modify.
    eapply updating with (v := v) (n := n) (out := Ok m'); eauto; frame_tac.
  - eapply updating with (v := v) (n := n) (out := Raise e); eauto; frame_tac.
  - eapply updating with (v := v) (n := n) (out := Blocked); eauto; frame_tac.
Qed.

(** After the watcher nothing touches the disk or the queue. *)
Lemma step_world idx s :
  world_of (snd (step idx s)) =
  world_of (snd (tr_watcher (data_dir input_dir ++ file_pattern idx) s)).
Proof.
  change (wp (step idx) s (fun _ s' => world_of s' =
            world_of (snd (tr_watcher (data_dir input_dir ++ file_pattern idx) s)))).
  unfold on_volume. apply wp_bind. unfold wp at 1.
  destruct (tr_watcher (data_dir input_dir ++ file_pattern idx) s)
    as [[vol|e|] s1]; simpl fst; simpl snd; cbv iota; try reflexivity.
  wp_walk; reflexivity.
Qed.

Lemma ready_world names (s s' : state volume vec clf_t) :
  world_of s' = world_of s -> ready names s -> ready names s'.
Proof.
  unfold world_of, ready. intros H. injection H as -> ->. auto.
Qed.

(** *** Progress: with the files at hand and collaborators that return,
    a volume is handled to the end *)

Section Progress.

Hypothesis preprocess_returns : forall vol, exists v, preprocess_vol vol mask = Ok v.
Hypothesis predict_returns :
  (train_count + 1 < Z.of_nat (length labels))%Z ->
  forall m r, exists p, predict m r = Ok p.
Hypothesis clf_obj_returns : forall d l prev, exists m, clf_obj d l prev = Ok m.

Lemma step_progress names i s :
  ready names s ->
  In (data_dir input_dir ++ file_pattern i)%string names ->
  (i < length (tr_data s))%nat ->
  (i < length labels)%nat ->
  ((train_count < Z.of_nat i)%Z ->
   clf s <> None /\ Py.getitem labels (Z.of_nat i - shift) <> None) ->
  fst (step i s) = Ok tt /\
  ready names (snd (step i s)) /\
  length (tr_data (snd (step i s))) = length (tr_data s) /\
  ((train_count < Z.of_nat (S i))%Z -> clf (snd (step i s)) <> None) /\
  ((train_count + 1 < Z.of_nat (S i))%Z -> accuracy (snd (step i s)) <> None).
Proof using preprocess_returns predict_returns clf_obj_returns.
  intros Hready Hname Hlen Hlab Hclf.
  destruct (tr_watcher_ready names _ s Hready Hname) as [[vol Hvol] Hready'].
  assert (Hw : ready names (snd (step i s)))
    by (apply (ready_world names _ _ (step_world i s)); exact Hready').
  pose proof (on_volume_transition i s) as Hmove.
  set (r := fst (step i s)) in *. set (s' := snd (step i s)) in *.
  clearbody r s'.
  destruct Hmove as
    [ r s' Hr Hf Hcause
    | v s' Hlt Hf
    | v s' td data lbls out Heq -> -> -> Eout Hf
    | v s' Hgt Hm Hf
    | v s' m out Hgt Hm Eout Hout Hf
    | v s' m p Hgt Hm Hp Hlbl Hf
    | v s' m p lbl n a Hgt Hm Hp Hlbl En Hdiv Hb Hf
    | v s' m p lbl n a td data lbls out Hgt Hm Hp Hlbl En Hdiv Hb -> -> -> Eout Hf ];
    unfold frame_of in Hf; injection Hf as Eobs Ecalls Etd Eclf Enc Eacc;
    rewrite ?Etd, ?replace_nth_length, ?Eclf, ?Eacc.
  - exfalso. rewrite Hvol in Hcause.
    destruct (preprocess_returns vol) as [v Hv]. rewrite Hv in Hcause. lia.
  - split; [reflexivity | split; [exact Hw | split; [reflexivity|]]].
    split; intros; lia.
  - destruct (clf_obj_returns (Py.slice (Py.replace_nth (tr_data s) i (Vals v))
                                        shift train_count)
                              (Py.slice labels 0 (train_count - shift)) None)
      as [m Hm].
    rewrite Hm in Eout. subst out.
    split; [reflexivity | split; [exact Hw | split; [reflexivity|]]].
    split; intros; [discriminate | lia].
  - exfalso. apply (proj1 (Hclf Hgt)). exact Hm.
  - exfalso. destruct (predict_returns ltac:(lia) m (Vals v)) as [p Hp]. rewrite Hp in Eout.
    subst out. apply Hout. reflexivity.
  - exfalso. apply (proj2 (Hclf Hgt)). exact Hlbl.
  - split; [reflexivity | split; [exact Hw | split; [reflexivity|]]].
    split; intros; [apply (proj1 (Hclf Hgt)) | discriminate].
  - destruct (clf_obj_returns
                (Py.slice (Py.replace_nth (tr_data s) i (Vals v))
                          (Z.of_nat i - incremental_batch + shift) (Z.of_nat i))
                (Py.slice labels (Z.of_nat i - incremental_batch)
                          (Z.of_nat i - shift)) (Some m))
      as [m' Hm'].
    rewrite Hm' in Eout. subst out.
    split; [reflexivity | split; [exact Hw | split; [reflexivity|]]].
    split; intros; discriminate.
Qed.

Lemma loop_progress names n : forall i s,
  (forall j, (i <= j < i + n)%nat ->
     In (data_dir input_dir ++ file_pattern j)%string names) ->
  ready names s ->
  (i + n <= length (tr_data s))%nat ->
  (i + n <= length labels)%nat ->
  (forall j, (train_count < Z.of_nat j)%Z -> (j < i + n)%nat ->
     Py.getitem labels (Z.of_nat j - shift) <> None) ->
  ((train_count < Z.of_nat i)%Z -> clf s <> None) ->
  ((train_count + 1 < Z.of_nat i)%Z -> accuracy s <> None) ->
  fst (for_each (seq i n) step s) = Ok tt /\
  ((train_count + 1 < Z.of_nat (i + n))%Z ->
   accuracy (snd (for_each (seq i n) step s)) <> None).
Proof using preprocess_returns predict_returns clf_obj_returns.
  induction n as [|n IH]; intros i s Hnames Hready Hlen Hlab Hlbl Hclf Hacc; simpl.
  - rewrite Nat.add_0_r. split; [reflexivity | exact Hacc].
  - destruct (step_progress names i s Hready (Hnames i ltac:(lia)) ltac:(lia) ltac:(lia))
      as (Hok & Hready' & Hlen' & Hclf' & Hacc').
    { intros Hgt. split; [exact (Hclf Hgt) | apply Hlbl; [exact Hgt | lia]]. }
    unfold bind. destruct (step i s) as [r s1]. simpl in *. subst r.
    replace (i + S n)%nat with (S i + n)%nat by lia.
    apply IH; auto.
    + intros j Hj. apply Hnames. lia.
    + lia.
    + lia.
    + intros j Hgt Hj. apply Hlbl; [exact Hgt | lia].
Qed.

End Progress.

Lemma table_store n (cs : list (call vec clf_t)) i r :
  Py.replace_nth (table n cs) i r = table n (Stored i r :: cs).
Proof. unfold table. rewrite replace_nth_map_seq. reflexivity. Qed.

Lemma stored_idxs_cons (c : call vec clf_t) cs idx :
  In idx (stored_idxs cs) -> In idx (stored_idxs (c :: cs)).
Proof. destruct c; simpl; auto. Qed.

Lemma train_stored (cs : list (call vec clf_t)) idx d l prev out :
  hist_ok shift labels train_count incremental_batch cs ->
  In (Train idx d l prev out) cs ->
  (train_count <= Z.of_nat idx)%Z /\ In idx (stored_idxs cs).
Proof.
  induction cs as [|c cs IH]; simpl; [tauto|].
  intros [Hok Hh] [Heq|Hin].
  - subst c. simpl in Hok. destruct prev as [m|].
    + destruct Hok as (Hlt & _ & _ & (r & p & older' & ->) & _).
      destruct Hh as [(_ & _ & older'' & ->) _].
      split; [lia | simpl; auto].
    + destruct Hok as (Heq & (r & older' & ->) & _).
      split; [lia | simpl; auto].
  - destruct (IH Hh Hin) as [H1 H2]. split; [exact H1|].
    apply stored_idxs_cons. exact H2.
Qed.

Lemma live_train (cs : list (call vec clf_t)) m :
  live cs = Some m -> exists idx d l prev, In (Train idx d l prev (Ok m)) cs.
Proof.
  induction cs as [|c cs IH]; simpl; [discriminate|].
  destruct c as [idx r|idx d l prev [m'|e|]|idx m' r out]; intros H;
    try (destruct (IH H) as (i' & d' & l' & p' & Hin);
         exists i', d', l', p'; right; exact Hin).
  inversion H; subst. exists idx, d, l, prev. left. reflexivity.
Qed.

Lemma no_fit_filter (cs : list (call vec clf_t)) :
  (forall idx d l out, ~ In (Train idx d l None out) cs) ->
  filter is_fit cs = [].
Proof.
  induction cs as [|c cs IH]; intros H; simpl; [reflexivity|].
  destruct c as [idx r|idx d l [m|] out|idx m r out]; simpl;
    try (apply IH; intros i' d' l' o' Hin; apply (H i' d' l' o'); right; exact Hin).
  exfalso. apply (H idx d l out). left. reflexivity.
Qed.

(** Before volume [train_count] is stored nothing has been trained. *)
Lemma untrained_before (cs : list (call vec clf_t)) i :
  hist_ok shift labels train_count incremental_batch cs ->
  stored_idxs cs = rev (seq 0 i) ->
  (Z.of_nat i <= train_count)%Z ->
  filter is_fit cs = [] /\ live cs = None.
Proof.
  intros Hh Hidx Hle.
  assert (Hno : forall idx d l prev out, ~ In (Train idx d l prev out) cs).
  { intros idx d l prev out Hin.
    destruct (train_stored _ _ _ _ _ _ Hh Hin) as [H1 H2].
    rewrite Hidx in H2. apply in_rev, in_seq in H2. lia. }
  split.
  - apply no_fit_filter. intros idx d l out. apply Hno.
  - destruct (live cs) as [m|] eqn:E; [|reflexivity].
    destruct (live_train _ _ E) as (idx & d & l & prev & Hin).
    exfalso. exact (Hno _ _ _ _ _ Hin).
Qed.

Lemma settled_app (new cs : list (call vec clf_t)) :
  settled shift labels train_count incremental_batch cs ->
  (forall idx r, In (Stored idx r) new -> Z.of_nat idx = train_count ->
     exists data lbls out, In (Train (clf_t:=clf_t) idx data lbls None out) new) ->
  (forall idx m r p, In (Predict idx m r (Ok p)) new ->
     (0 < incremental_batch)%Z ->
     ((Z.of_nat idx - train_count) mod incremental_batch = 0)%Z ->
     Py.getitem labels (Z.of_nat idx - shift) <> None ->
     exists data lbls out, In (Train (vec:=vec) idx data lbls (Some m) out) new) ->
  settled shift labels train_count incremental_batch (new ++ cs).
Proof.
  intros [S1 S2] N1 N2. split.
  - intros idx r Hin Heq. apply in_app_or in Hin. destruct Hin as [Hin|Hin].
    + destruct (N1 _ _ Hin Heq) as (d & l & o & H). exists d, l, o.
      apply in_or_app. left. exact H.
    + destruct (S1 _ _ Hin Heq) as (d & l & o & H). exists d, l, o.
      apply in_or_app. right. exact H.
  - intros idx m r p Hin Hb Hmod Hl. apply in_app_or in Hin. destruct Hin as [Hin|Hin].
    + destruct (N2 _ _ _ _ Hin Hb Hmod Hl) as (d & l & o & H). exists d, l, o.
      apply in_or_app. left. exact H.
    + destruct (S2 _ _ _ _ Hin Hb Hmod Hl) as (d & l & o & H). exists d, l, o.
      apply in_or_app. right. exact H.
Qed.

Lemma acc_weaken (acc : option Q) (cs cs' : list (call vec clf_t)) :
  match acc with
  | Some a => (0 <= a <= 1)%Q /\
      exists idx r, In (Stored idx r) cs /\ (train_count < Z.of_nat idx)%Z
  | None => True
  end ->
  incl cs cs' ->
  match acc with
  | Some a => (0 <= a <= 1)%Q /\
      exists idx r, In (Stored idx r) cs' /\ (train_count < Z.of_nat idx)%Z
  | None => True
  end.
Proof.
  destruct acc as [a|]; [|tauto].
  intros [Ha (idx & r & Hin & Hlt)] Hincl. split; [exact Ha|].
  exists idx, r. split; [apply Hincl; exact Hin | exact Hlt].
Qed.

Lemma inv_intro obs k (s : state volume vec clf_t) (r : result unit) :
  consistent shift labels train_count incremental_batch obs s ->
  stored_idxs (calls s) = rev (seq 0 k) ->
  (k <= length labels)%nat ->
  (0 <= num_correct s <= Z.max 0 (Z.of_nat k - 1 - train_count))%Z ->
  match r with
  | Ok _ => loop_inv shift labels train_count incremental_batch obs k s
  | _ => halted shift labels train_count incremental_batch obs s
  end.
Proof.
  intros Hc Hidx Hk Hn.
  destruct r; [split; [exact Hc | split; assumption] | split; [exact Hc | exists k; auto] ..].
Qed.

Lemma step_inv obs i s r s' :
  (i < length labels)%nat ->
  loop_inv shift labels train_count incremental_batch obs i s ->
  moves i s r s' ->
  match r with
  | Ok _ => loop_inv shift labels train_count incremental_batch obs (S i) s'
  | _ => halted shift labels train_count incremental_batch obs s'
  end.
Proof.
  intros Hi [(Hobs & Hhist & Htd & Hclf & Hacc & Hset) [Hidx Hnc]] Hmove.
  destruct Hmove as
    [ r s' Hr Hf _
    | v s' Hlt Hf
    | v s' td data lbls out Heq -> -> -> Eout Hf
    | v s' Hgt Hm Hf
    | v s' m out Hgt Hm Eout Hout Hf
    | v s' m p Hgt Hm Hp Hlbl Hf
    | v s' m p lbl n a Hgt Hm Hp Hlbl En Hdiv Hb Hf
    | v s' m p lbl n a td data lbls out Hgt Hm Hp Hlbl En Hdiv Hb -> -> -> Eout Hf ];
    unfold frame_of in Hf; injection Hf as Eobs Ecalls Etd Eclf Enc Eacc;
    subst obs;
    repeat match goal with
           | H : context [Py.replace_nth (tr_data s) _ _] |- _ =>
               rewrite Htd, table_store in H
           end;
    rewrite ?Htd, ?table_store.
  - (* no volume *)
    assert (halted shift labels train_count incremental_batch (observers s) s').
    { unfold halted, consistent, acc_ok in *.
      rewrite Eobs, Ecalls, Etd, Eclf, Eacc.
      split; [tauto|]. exists i. split; [lia | assumption]. }
    destruct r as [[]|e|]; [contradiction | assumption ..].
  - (* collecting *)
    apply (inv_intro _ (S i) _ (Ok tt)); unfold consistent, acc_ok in *;
      rewrite ?Eobs, ?Ecalls, ?Etd, ?Eclf, ?Eacc, ?Enc; [| | lia | lia].
    + split; [|split; [|split; [|split; [|split]]]]; auto.
      * simpl. auto.
      * eapply acc_weaken; [exact Hacc | apply incl_tl, incl_refl].
      * apply (settled_app [Stored i (Vals v)]); [exact Hset | |].
        -- intros idx r [E|[]] Hidx'. inversion E; subst. lia.
        -- intros idx m r p [E|[]]. discriminate.
    + rewrite rev_seq_S, <- Hidx. reflexivity.
  - (* training *)
    clear Eout.
    destruct (untrained_before _ _ Hhist Hidx) as [Hnofit Hnolive]; [lia|].
    apply (inv_intro _ (S i) _ (outcome_of out)); unfold consistent, acc_ok in *;
      rewrite ?Eobs, ?Ecalls, ?Etd, ?Eclf, ?Eacc, ?Enc; [| | lia | lia].
    + split6; auto.
      * simpl. repeat split; eauto.
      * destruct out; simpl; auto.
      * eapply acc_weaken; [exact Hacc | do 2 apply incl_tl; apply incl_refl].
      * apply (settled_app [_; _]); [exact Hset | |].
        -- intros idx r [E|[E|[]]] _; inversion E; subst.
           do 3 eexists. left. reflexivity.
        -- intros idx m r p [E|[E|[]]]; discriminate.
    + rewrite rev_seq_S, <- Hidx. reflexivity.
  - (* no model *)
    apply (inv_intro _ (S i) s' (Raise (UnboundLocalError "clf")));
      unfold consistent, acc_ok in *;
      rewrite ?Eobs, ?Ecalls, ?Etd, ?Eclf, ?Eacc, ?Enc; [| | lia | lia].
    + split6; auto.
      * simpl. auto.
      * eapply acc_weaken; [exact Hacc | apply incl_tl, incl_refl].
      * apply (settled_app [_]); [exact Hset | |].
        -- intros idx r [E|[]] Hidx'. inversion E; subst. lia.
        -- intros idx m r p [E|[]]. discriminate.
    + rewrite rev_seq_S, <- Hidx. reflexivity.
  - (* predict failed *)
    clear Eout.
    apply (inv_intro _ (S i) s' (outcome_of out)); unfold consistent, acc_ok in *;
      rewrite ?Eobs, ?Ecalls, ?Etd, ?Eclf, ?Eacc, ?Enc; [| | lia | lia].
    + split6; auto.
      * simpl. rewrite <- Hclf. repeat split; eauto.
      * eapply acc_weaken; [exact Hacc | do 2 apply incl_tl; apply incl_refl].
      * apply (settled_app [_; _]); [exact Hset | |].
        -- intros idx r [E|[E|[]]] Hidx'; inversion E; subst. lia.
        -- intros idx m' r p [E|[E|[]]]; inversion E; subst.
           exfalso. apply Hout. reflexivity.
    + rewrite rev_seq_S, <- Hidx. reflexivity.
  - (* label missing *)
    apply (inv_intro _ (S i) s' (Raise IndexError)); unfold consistent, acc_ok in *;
      rewrite ?Eobs, ?Ecalls, ?Etd, ?Eclf, ?Eacc, ?Enc; [| | lia | lia].
    + split6; auto.
      * simpl. rewrite <- Hclf. repeat split; eauto.
      * eapply acc_weaken; [exact Hacc | do 2 apply incl_tl; apply incl_refl].
      * apply (settled_app [_; _]); [exact Hset | |].
        -- intros idx r [E|[E|[]]] Hidx'; inversion E; subst. lia.
        -- intros idx m' r p' [E|[E|[]]]; inversion E; subst.
           intros _ _ Hl. contradiction.
    + rewrite rev_seq_S, <- Hidx. reflexivity.
  - (* classifying *)
    assert (Hn : (0 <= n <= Z.of_nat i - train_count)%Z)
      by (subst n; destruct (as_label p =? lbl)%Z; lia).
    apply (inv_intro _ (S i) s' (Ok tt)); unfold consistent, acc_ok in *;
      rewrite ?Eobs, ?Ecalls, ?Etd, ?Eclf, ?Eacc, ?Enc; [| | lia | lia].
    + split6; auto.
      * simpl. rewrite <- Hclf. repeat split; eauto.
      * split; [apply (truediv_proportion n (Z.of_nat i - train_count) a); [lia | exact Hn | exact Hdiv]|].
        exists i, (Vals v). split; [right; left; reflexivity | exact Hgt].
      * apply (settled_app [_; _]); [exact Hset | |].
        -- intros idx r [E|[E|[]]] Hidx'; inversion E; subst. lia.
        -- intros idx m' r p' [E|[E|[]]]; inversion E; subst.
           intros Hpos Hmod _. exfalso.
           apply andb_false_iff in Hb. destruct Hb as [Hb|Hb].
           ++ rewrite Z.gtb_ltb in Hb. apply Z.ltb_ge in Hb. lia.
           ++ apply Z.eqb_neq in Hb. contradiction.
    + rewrite rev_seq_S, <- Hidx. reflexivity.
  - (* updating *)
    assert (Hn : (0 <= n <= Z.of_nat i - train_count)%Z)
      by (subst n; destruct (as_label p =? lbl)%Z; lia).
    clear Eout.
    apply andb_true_iff in Hb. destruct Hb as [Hpos Hmod].
    rewrite Z.gtb_ltb in Hpos. apply Z.ltb_lt in Hpos. apply Z.eqb_eq in Hmod.
    apply (inv_intro _ (S i) s' (outcome_of out)); unfold consistent, acc_ok in *;
      rewrite ?Eobs, ?Ecalls, ?Etd, ?Eclf, ?Eacc, ?Enc; [| | lia | lia].
    + split6; auto.
      * simpl. rewrite <- Hclf. repeat split; eauto.
      * destruct out; simpl; auto.
      * split; [apply (truediv_proportion n (Z.of_nat i - train_count) a); [lia | exact Hn | exact Hdiv]|].
        exists i, (Vals v). split; [right; right; left; reflexivity | exact Hgt].
      * apply (settled_app [_; _; _]); [exact Hset | |].
        -- intros idx r [E|[E|[E|[]]]] Hidx'; inversion E; subst. lia.
        -- intros idx m' r p' [E|[E|[E|[]]]]; inversion E; subst.
           intros _ _ _. do 3 eexists. left. reflexivity.
    + rewrite rev_seq_S, <- Hidx. reflexivity.
Qed.

Lemma loop_invariant obs n : forall i s,
  (i + n <= length labels)%nat ->
  loop_inv shift labels train_count incremental_batch obs i s ->
  match fst (for_each (seq i n) step s) with
  | Ok _ => loop_inv shift labels train_count incremental_batch obs (i + n)
              (snd (for_each (seq i n) step s))
  | _ => halted shift labels train_count incremental_batch obs
              (snd (for_each (seq i n) step s))
  end.
Proof.
  induction n as [|n IH]; intros i s Hle Hinv; simpl.
  - rewrite Nat.add_0_r. exact Hinv.
  - pose proof (on_volume_transition i s) as Hmove.
    pose proof (step_inv obs i s _ _ ltac:(lia) Hinv Hmove) as Hstep.
    unfold bind. destruct (step i s) as [[[]|e|] s1]; simpl in *; try exact Hstep.
    replace (i + S n)%nat with (S i + n)%nat by lia.
    apply IH; [lia | exact Hstep].
Qed.

Lemma table_nil n : table n (@nil (call vec clf_t)) = repeat NaNs n.
Proof.
  unfold table. generalize 0%nat. induction n as [|n IH]; intros a; simpl;
    [reflexivity | f_equal; apply IH].
Qed.

Lemma replace_nth_last (obs : list bool) b b' :
  Py.replace_nth (obs ++ [b]) (length obs) b' = obs ++ [b'].
Proof. induction obs as [|h t IH]; simpl; [reflexivity | f_equal; exact IH]. Qed.

Lemma consistent_observers obs obs' (s : state volume vec clf_t) :
  consistent shift labels train_count incremental_batch obs s ->
  consistent shift labels train_count incremental_batch obs'
             (with_observers obs' s).
Proof.
  intros (_ & H). split; [reflexivity | exact H].
Qed.

#[local] Abbreviation run :=
  (realtime_shifted preprocess_vol predict shift labels mask input_dir
                    train_count clf_obj incremental_batch).

(** [realtime] is its prelude, the loop, and the epilogue. *)
Lemma run_unfold (s0 : state volume vec clf_t) :
  run s0 =
  let s1 := with_observers (observers s0 ++ [true])
              (with_accuracy None (with_num_correct 0%Z (with_clf None
                 (with_tr_data (repeat NaNs (length labels)) s0)))) in
  match for_each (seq 0 (length labels)) step s1 with
  | (Ok _, s2) =>
      or_raise (accuracy s2) (UnboundLocalError "accuracy")
               (with_observers
                  (Py.replace_nth (observers s2) (length (observers s0)) false) s2)
  | (Raise e, s2) => (Raise e, s2)
  | (Blocked, s2) => (Blocked, s2)
  end.
Proof.
  unfold realtime_shifted, realtime_from, enter, Observer,
    observer_start, observer_stop, bind, modify, get; simpl.
  rewrite replace_nth_last.
  destruct s0; unfold with_observers; simpl.
  match goal with |- context [for_each _ _ ?t] =>
    destruct (for_each (seq 0 (length labels)) step t) as [[[]|e|] s2] end;
    reflexivity.
Qed.

Lemma prelude_inv (s0 : state volume vec clf_t) :
  calls s0 = [] ->
  loop_inv shift labels train_count incremental_batch (observers s0 ++ [true]) 0
    (with_observers (observers s0 ++ [true])
       (with_accuracy None (with_num_correct 0%Z (with_clf None
          (with_tr_data (repeat NaNs (length labels)) s0))))).
Proof.
  intros Hcalls.
  unfold loop_inv, consistent, acc_ok, settled; simpl. rewrite Hcalls. simpl.
  rewrite table_nil.
  split; [split6; auto; split; [intros idx r [] | intros idx m r p []] |].
  split; [reflexivity | lia].
Qed.

(** The three ways in which a call of [realtime] ends: it returns the
    accuracy, with the observer stopped; the loop ends with [accuracy]
    unbound, with the observer stopped; the loop stops on an exception or
    for ever, with the observer still running. *)
Lemma realtime_outcome (s0 : state volume vec clf_t) :
  calls s0 = [] ->
  let r := fst (run s0) in
  let s' := snd (run s0) in
  let inv obs := loop_inv shift labels train_count incremental_batch obs
                          (length labels) s' in
  (exists a, r = Ok a /\ accuracy s' = Some a /\ inv (observers s0 ++ [false])) \/
  (r = Raise (UnboundLocalError "accuracy") /\ accuracy s' = None /\
   inv (observers s0 ++ [false])) \/
  ((forall a, r <> Ok a) /\
   halted shift labels train_count incremental_batch (observers s0 ++ [true]) s').
Proof.
  intros Hcalls. rewrite run_unfold. cbv zeta.
  pose proof (loop_invariant (observers s0 ++ [true]) (length labels) 0 _
                             (Nat.le_refl _) (prelude_inv s0 Hcalls)) as Hloop.
  match goal with |- context [for_each _ _ ?t] =>
    destruct (for_each (seq 0 (length labels)) step t) as [[[]|e|] s2] end;
    simpl in *.
  - destruct Hloop as (Hc & Hidx & Hnc).
    rewrite (proj1 Hc), replace_nth_last.
    destruct (accuracy s2) as [a|] eqn:Ea; simpl; [left; exists a | right; left];
      (split; [reflexivity|]); (split; [exact Ea|]);
      (split; [apply (consistent_observers _ _ _ Hc) | split; assumption]).
  - right; right. split; [discriminate | exact Hloop].
  - right; right. split; [discriminate | exact Hloop].
Qed.

Lemma stored_in_idxs (cs : list (call vec clf_t)) idx r :
  In (Stored idx r) cs -> In idx (stored_idxs cs).
Proof.
  induction cs as [|c cs IH]; simpl; [tauto|].
  intros [->|H]; [left; reflexivity | apply stored_idxs_cons, IH, H].
Qed.

(** A bound accuracy is a proportion, and some volume past [train_count]
    is among the labelled ones. *)
Lemma accuracy_bound obs k (s : state volume vec clf_t) a :
  consistent shift labels train_count incremental_batch obs s ->
  stored_idxs (calls s) = rev (seq 0 k) ->
  (k <= length labels)%nat ->
  accuracy s = Some a ->
  (train_count + 1 < Z.of_nat (length labels))%Z /\ (0 <= a <= 1)%Q.
Proof.
  intros (_ & _ & _ & _ & Hacc & _) Hidx Hk Ha.
  unfold acc_ok in Hacc. rewrite Ha in Hacc.
  destruct Hacc as [Hb (idx & r & Hin & Hgt)]. split; [|exact Hb].
  apply stored_in_idxs in Hin. rewrite Hidx in Hin.
  apply in_rev, in_seq in Hin. lia.
Qed.

(** With every file at hand and collaborators that return, the call
    returns the accuracy when some volume lies past [train_count], and
    ends on the unbound [accuracy] otherwise. *)
Lemma ideal_run (s0 : state volume vec clf_t) :
  (forall vol, exists v, preprocess_vol vol mask = Ok v) ->
  ((train_count + 1 < Z.of_nat (length labels))%Z ->
   forall m r, exists p, predict m r = Ok p) ->
  (forall d l prev, exists m, clf_obj d l prev = Ok m) ->
  calls s0 = [] ->
  (0 <= train_count)%Z ->
  ready (map (fun j => (data_dir input_dir ++ file_pattern j)%string)
             (seq 0 (length labels))) s0 ->
  (forall j, (train_count < Z.of_nat j)%Z -> (j < length labels)%nat ->
     Py.getitem labels (Z.of_nat j - shift) <> None) ->
  ((train_count + 1 < Z.of_nat (length labels))%Z ->
   exists a, fst (run s0) = Ok a /\ (0 <= a <= 1)%Q) /\
  ((Z.of_nat (length labels) <= train_count + 1)%Z ->
   fst (run s0) = Raise (UnboundLocalError "accuracy")) /\
  stored_idxs (calls (snd (run s0))) = rev (seq 0 (length labels)).
Proof.
  intros Hpp Hpr Hfit Hcalls Hpos Hready Hlbl.
  rewrite run_unfold. cbv zeta.
  match goal with |- context [for_each _ _ ?t] => set (s1 := t) end.
  pose proof (loop_invariant (observers s0 ++ [true]) (length labels) 0 s1
                             (Nat.le_refl _) (prelude_inv s0 Hcalls)) as Hloop.
  destruct (loop_progress Hpp Hpr Hfit
              (map (fun j => (data_dir input_dir ++ file_pattern j)%string)
                   (seq 0 (length labels)))
              (length labels) 0%nat s1) as [Hok Hacc].
  { intros j Hj. apply in_map_iff. exists j. split; [reflexivity|].
    apply in_seq. lia. }
  { exact Hready. }
  { unfold s1; simpl. rewrite repeat_length. lia. }
  { lia. }
  { intros j Hgt Hj. apply Hlbl; [exact Hgt | lia]. }
  { lia. }
  { lia. }
  destruct (for_each (seq 0 (length labels)) step s1) as [r s2]. simpl in *. subst r.
  destruct Hloop as (Hc & Hidx & Hnc).
  destruct (accuracy s2) as [a|] eqn:Ea; simpl.
  - destruct (accuracy_bound _ _ _ _ Hc Hidx (Nat.le_refl _) Ea) as [Hlt Hb].
    split; [intros _; exists a; split; [reflexivity | exact Hb] |].
    split; [intros; lia | exact Hidx].
  - split; [intros Hlt; exfalso; apply (Hacc Hlt); reflexivity |].
    split; [reflexivity | exact Hidx].
Qed.

(** Whatever the way a call ends, its final state agrees with its
    history, and the volumes stored are those of the first indices. *)
Lemma run_final (s0 : state volume vec clf_t) :
  calls s0 = [] ->
  exists obs k,
    consistent shift labels train_count incremental_batch obs (snd (run s0)) /\
    (k <= length labels)%nat /\
    stored_idxs (calls (snd (run s0))) = rev (seq 0 k).
Proof.
  intros Hcalls.
  destruct (realtime_outcome s0 Hcalls)
    as [(a & _ & _ & Hc & Hidx & _) | [(_ & _ & Hc & Hidx & _) | (_ & Hc & k & Hk & Hidx)]].
  - exists (observers s0 ++ [false]), (length labels). auto.
  - exists (observers s0 ++ [false]), (length labels). auto.
  - exists (observers s0 ++ [true]), k. auto.
Qed.

Lemma hist_ok_split (newer : list (call vec clf_t)) c older :
  hist_ok shift labels train_count incremental_batch (newer ++ c :: older) ->
  ok_event shift labels train_count incremental_batch c older /\
  hist_ok shift labels train_count incremental_batch older.
Proof.
  induction newer as [|c' newer IH]; simpl; [tauto|].
  intros [_ H]. apply IH. exact H.
Qed.

Lemma hist_ok_in (cs : list (call vec clf_t)) c :
  hist_ok shift labels train_count incremental_batch cs ->
  In c cs ->
  exists newer older, cs = newer ++ c :: older /\
    ok_event shift labels train_count incremental_batch c older /\
    hist_ok shift labels train_count incremental_batch older.
Proof.
  intros Hh Hin. apply in_split in Hin. destruct Hin as (newer & older & ->).
  exists newer, older. split; [reflexivity | apply (hist_ok_split _ _ _ Hh)].
Qed.

(** A history holds at most one first fit. *)
Lemma at_most_one_fit (cs : list (call vec clf_t)) :
  hist_ok shift labels train_count incremental_batch cs ->
  (length (filter is_fit cs) <= 1)%nat.
Proof.
  induction cs as [|c cs IH]; simpl; [lia|].
  intros [Hok Hh]. specialize (IH Hh).
  destruct c as [idx r|idx d l [m|] out|idx m r out]; simpl; try exact IH.
  simpl in Hok. destruct Hok as (_ & _ & Hnone & _). rewrite Hnone. simpl. lia.
Qed.

Lemma stored_idxs_app (newer older : list (call vec clf_t)) :
  stored_idxs (newer ++ older) = stored_idxs newer ++ stored_idxs older.
Proof.
  induction newer as [|c newer IH]; simpl; [reflexivity|].
  destruct c; simpl; rewrite IH; reflexivity.
Qed.

Lemma idx_stored (cs : list (call vec clf_t)) idx :
  In idx (stored_idxs cs) -> exists r, In (Stored idx r) cs.
Proof.
  induction cs as [|c cs IH]; simpl; [tauto|].
  destruct c as [j r|j d' l' p' o'|j m' r' o']; simpl;
    try (intros H; destruct (IH H) as [r0 H0]; exists r0; right; exact H0).
  intros [->|H]; [exists r; left; reflexivity|].
  destruct (IH H) as [r0 H0]. exists r0. right. exact H0.
Qed.

(** A row, once stored, stays as it is. *)
Lemma row_at_stable (newer older : list (call vec clf_t)) i :
  hist_ok shift labels train_count incremental_batch (newer ++ older) ->
  In i (stored_idxs older) ->
  row_at (newer ++ older) i = row_at older i.
Proof.
  induction newer as [|c newer IH]; simpl; [reflexivity|].
  intros [Hok Hh] Hin.
  destruct c as [j r|j d' l' p' o'|j m' r' o']; try (apply IH; assumption).
  simpl in Hok. rewrite stored_idxs_app in Hok.
  assert (Hlt : (i < j)%nat).
  { assert (H : In i (rev (seq 0 j)))
      by (rewrite <- Hok; apply in_or_app; right; exact Hin).
    apply in_rev, in_seq in H. lia. }
  destruct (Nat.eqb_spec j i); [lia | apply IH; assumption].
Qed.

Lemma no_update_filter (cs : list (call vec clf_t)) :
  (forall idx d l m out, ~ In (Train idx d l (Some m) out) cs) ->
  filter is_update cs = [].
Proof.
  induction cs as [|c cs IH]; intros H; simpl; [reflexivity|].
  destruct c as [idx r|idx d l [m|] out|idx m r out]; simpl;
    try (apply IH; intros i' d' l' m' o' Hin; apply (H i' d' l' m' o'); right; exact Hin).
  exfalso. apply (H idx d l m out). left. reflexivity.
Qed.

Lemma live_bound (cs : list (call vec clf_t)) idx d l prev m :
  In (Train idx d l prev (Ok m)) cs -> live cs <> None.
Proof.
  induction cs as [|c cs IH]; simpl; [intros []|].
  intros [E|H].
  - rewrite E. intros Hn. inversion Hn.
  - destruct c as [j r|j d' l' p' [m'|e|]|j m' r' o'];
      try (apply IH; exact H).
    intros Hn. inversion Hn.
Qed.

(** The live model is that of the last training call that returned. *)
Lemma live_app_quiet (newer older : list (call vec clf_t)) :
  (forall c, In c newer ->
     match c with Train _ _ _ _ (Ok _) => False | _ => True end) ->
  live (newer ++ older) = live older.
Proof.
  induction newer as [|c newer IH]; intros H; simpl; [reflexivity|].
  assert (IH' : live (newer ++ older) = live older)
    by (apply IH; intros c' Hc'; apply H; right; exact Hc').
  pose proof (H c (or_introl eq_refl)) as Hc.
  destruct c as [j r|j d' l' p' [m'|e|]|j m' r' o']; try exact IH'.
  destruct Hc.
Qed.

End Run.

(** ** The claims about the controller *)

Section Claims.

Variable preprocess_vol : volume -> mask_t -> result vec.
Variable predict : clf_t -> row vec -> result prediction.

(** C6: every prediction is made with the model as the training calls
    before it have left it, and an incremental update comes right after
    the prediction of its own index, which has returned, and is handed the
    model that made that prediction; the call that follows an update, if
    any, stores the next volume: updates are interleaved with classifying. *)
Theorem prediction_precedes_update
        labels mask input_dir train_count clf_obj incremental_batch d q obs :
  let cs := calls (snd (realtime preprocess_vol predict labels mask input_dir
                                 train_count clf_obj incremental_batch
                                 (boot d q obs))) in
  forall newer c older, cs = newer ++ c :: older ->
    match c with
    | Predict idx m r out => live older = Some m
    | Train idx data lbls (Some m) out =>
        (exists r p older',
            older = Predict idx m r (Ok p) :: older' /\ live older' = Some m) /\
        (forall newer' c', newer = newer' ++ [c'] ->
                           exists r', c' = Stored (S idx) r')
    | _ => True
    end.
Proof.
  intros cs newer c older Hsplit.
  destruct (run_final preprocess_vol predict tr_shift labels mask input_dir
                      train_count clf_obj incremental_batch (boot d q obs) eq_refl)
    as (obs' & k & (_ & Hh & _) & _ & _).
  fold (realtime preprocess_vol predict labels mask input_dir train_count clf_obj
                 incremental_batch) in Hh.
  fold cs in Hh. rewrite Hsplit in Hh.
  destruct (hist_ok_split _ _ _ _ _ _ _ Hh) as [Hok Hold].
  destruct c as [idx r|idx data lbls [m|] out|idx m r out]; simpl in Hok; try exact I.
  - destruct Hok as (_ & _ & _ & (r & p & older' & ->) & _).
    destruct Hold as [(_ & Hlive & older'' & ->) [Hst _]]. simpl in Hst.
    split; [exists r, p, (Stored idx r :: older''); split; [reflexivity | exact Hlive]|].
    intros newer' c' ->. rewrite <- app_assoc in Hh. simpl in Hh.
    destruct (hist_ok_split _ _ _ _ _ _ _ Hh) as [Hok' _].
    destruct c' as [j r'|j d' l' [m'|] o'|j m' r' o']; simpl in Hok'.
    + rewrite Hst, <- rev_seq_S in Hok'.
      apply (f_equal (@length nat)) in Hok'.
      rewrite !length_rev, !length_seq in Hok'. subst j. exists r'. reflexivity.
    + destruct Hok' as (_ & _ & _ & (r0 & p0 & o0 & E) & _). discriminate.
    + destruct Hok' as (_ & (r0 & o0 & E) & _). discriminate.
    + destruct Hok' as (_ & _ & (o0 & E)). discriminate.
  - destruct Hok as (_ & Hlive & _). exact Hlive.
Qed.

(** C7: with [incremental_batch = 0] the history holds no incremental
    update and at most one fit; the model that this fit returned stays
    bound to [clf] to the end and is the one used by every prediction. *)
Theorem no_update_when_batch_is_zero
        labels mask input_dir train_count clf_obj d q obs :
  let s' := snd (realtime preprocess_vol predict labels mask input_dir
                          train_count clf_obj 0 (boot d q obs)) in
  let cs := calls s' in
  filter is_update cs = [] /\
  (length (filter is_fit cs) <= 1)%nat /\
  (forall idx m r out, In (Predict idx m r out) cs ->
     exists idx0 data lbls, In (Train idx0 data lbls None (Ok m)) cs) /\
  (forall idx0 data lbls m0, In (Train idx0 data lbls None (Ok m0)) cs ->
     clf s' = Some m0 /\
     forall idx m r out, In (Predict idx m r out) cs -> m = m0).
Proof.
  intros s' cs.
  destruct (run_final preprocess_vol predict tr_shift labels mask input_dir
                      train_count clf_obj 0 (boot d q obs) eq_refl)
    as (obs' & k & (_ & Hh & _ & Hclf & _) & _ & _).
  fold (realtime preprocess_vol predict labels mask input_dir train_count clf_obj 0)
    in Hh, Hclf.
  fold s' in Hh, Hclf. fold cs in Hh, Hclf.
  assert (Hnoupd : forall idx dt l m out, ~ In (Train idx dt l (Some m) out) cs).
  { intros idx dt l m out Hin.
    destruct (hist_ok_in _ _ _ _ _ _ Hh Hin) as (_ & older & _ & Hok & _).
    simpl in Hok. lia. }
  assert (Hone := at_most_one_fit _ _ _ _ _ Hh).
  assert (Hfit : forall older m, (exists newer, cs = newer ++ older) ->
             live older = Some m ->
             exists idx0 data lbls, In (Train idx0 data lbls None (Ok m)) cs).
  { intros older m [newer E] Hl.
    destruct (live_train _ _ Hl) as (idx0 & dt & l & [m1|] & Hin).
    - exfalso. apply (Hnoupd idx0 dt l m1 (Ok m)). rewrite E.
      apply in_or_app. right. exact Hin.
    - exists idx0, dt, l. rewrite E. apply in_or_app. right. exact Hin. }
  assert (Hsame : forall i1 d1 l1 m1 i2 d2 l2 m2,
             In (Train i1 d1 l1 None (Ok m1)) cs ->
             In (Train i2 d2 l2 None (Ok m2)) cs -> m1 = m2).
  { intros i1 d1 l1 m1 i2 d2 l2 m2 H1 H2.
    assert (F1 : In (Train i1 d1 l1 None (Ok m1)) (filter is_fit cs))
      by (apply filter_In; split; [exact H1 | reflexivity]).
    assert (F2 : In (Train i2 d2 l2 None (Ok m2)) (filter is_fit cs))
      by (apply filter_In; split; [exact H2 | reflexivity]).
    rewrite (singleton_of_short _ _ Hone F1) in F2.
    destruct F2 as [E|[]]. inversion E. reflexivity. }
  assert (Hpred : forall idx m r out, In (Predict idx m r out) cs ->
             exists idx0 data lbls, In (Train idx0 data lbls None (Ok m)) cs).
  { intros idx m r out Hin.
    destruct (hist_ok_in _ _ _ _ _ _ Hh Hin) as (newer & older & E & Hok & _).
    simpl in Hok. destruct Hok as (_ & Hl & _).
    apply (Hfit older m); [|exact Hl].
    exists (newer ++ [Predict idx m r out]). rewrite <- app_assoc. exact E. }
  split; [apply no_update_filter; exact Hnoupd|].
  split; [exact Hone|].
  split; [exact Hpred|].
  intros idx0 dt l m0 Hin0. split.
  - destruct (live cs) as [m|] eqn:El.
    + destruct (Hfit cs m (ex_intro _ [] eq_refl) El) as (i1 & d1 & l1 & H1).
      rewrite Hclf. f_equal. exact (Hsame _ _ _ _ _ _ _ _ H1 Hin0).
    + exfalso. exact (live_bound _ _ _ _ _ _ Hin0 El).
  - intros idx m r out Hin.
    destruct (Hpred idx m r out Hin) as (i1 & d1 & l1 & H1).
    exact (Hsame _ _ _ _ _ _ _ _ H1 Hin0).
Qed.

Lemma label_in_range (labels : list Z) j :
  (0 < j < length labels)%nat ->
  Py.getitem labels (Z.of_nat j - tr_shift) <> None.
Proof.
  intros Hj. unfold Py.getitem, Py.position, Py.len, tr_shift.
  destruct (Z.of_nat j - 3 <? 0)%Z eqn:E;
    [apply Z.ltb_lt in E | apply Z.ltb_ge in E];
    match goal with |- context [(?a || ?b)%bool] =>
      destruct a eqn:Ea; destruct b eqn:Eb end; simpl;
    try apply Z.ltb_lt in Ea; try apply Z.leb_le in Eb;
    try apply Z.ltb_ge in Ea; try apply Z.leb_gt in Eb; try lia;
    apply nth_error_Some; lia.
Qed.

(** C10: [realtime] returns an accuracy only if some volume lies past
    [train_count], that is if [len(labels) > train_count + 1]; otherwise
    [accuracy] is never bound, the call never returns a value, and when
    the volumes come and the collaborators return it ends on the unbound
    local [accuracy]; when [train_count >= len(labels)], [clf] is never
    bound either. *)
Theorem accuracy_needs_volume_past_train_count
        labels mask input_dir train_count clf_obj incremental_batch d q obs :
  let run := realtime preprocess_vol predict labels mask input_dir train_count
                      clf_obj incremental_batch (boot d q obs) in
  let n := Z.of_nat (length labels) in
  (forall a, fst run = Ok a ->
     (train_count + 1 < n)%Z /\ accuracy (snd run) = Some a) /\
  ((n <= train_count + 1)%Z ->
     accuracy (snd run) = None /\
     (forall a, fst run <> Ok a) /\
     ((forall vol, exists v, preprocess_vol vol mask = Ok v) ->
      (forall dt l prev, exists m, clf_obj dt l prev = Ok m) ->
      ready (map (fun j => (data_dir input_dir ++ file_pattern j)%string)
                 (seq 0 (length labels))) (boot (vec:=vec) (clf_t:=clf_t) d q obs) ->
      fst run = Raise (UnboundLocalError "accuracy"))) /\
  ((n <= train_count)%Z -> clf (snd run) = None).
Proof.
  intros run n.
  pose proof (realtime_outcome preprocess_vol predict tr_shift labels mask
                input_dir train_count clf_obj incremental_batch (boot d q obs)
                eq_refl) as Hout.
  fold (realtime preprocess_vol predict labels mask input_dir train_count clf_obj
                 incremental_batch) in Hout.
  fold run in Hout. cbv zeta in Hout.
  assert (Hfinal : exists obs' k,
             consistent tr_shift labels train_count incremental_batch obs' (snd run) /\
             (k <= length labels)%nat /\
             stored_idxs (calls (snd run)) = rev (seq 0 k))
    by (apply (run_final preprocess_vol predict tr_shift labels mask input_dir
                         train_count clf_obj incremental_batch (boot d q obs)
                         eq_refl)).
  destruct Hfinal as (obs' & k & Hc & Hk & Hidx).
  assert (Hacc : forall a, accuracy (snd run) = Some a -> (train_count + 1 < n)%Z).
  { intros a Ha. apply (accuracy_bound _ _ _ _ _ _ _ _ Hc Hidx Hk Ha). }
  split; [|split].
  - intros a Hr.
    destruct Hout as [(a' & E & Ha & _) | [(E & _) | (Hno & _)]].
    + rewrite Hr in E. inversion E; subst a'. split; [exact (Hacc _ Ha) | exact Ha].
    + rewrite Hr in E. discriminate.
    + exfalso. exact (Hno a Hr).
  - intros Hn.
    assert (Hnone : accuracy (snd run) = None).
    { destruct (accuracy (snd run)) as [a|] eqn:Ea; [|reflexivity].
      specialize (Hacc a eq_refl). lia. }
    split; [exact Hnone|]. split.
    + intros a Hr.
      destruct Hout as [(a' & _ & Ha & _) | [(E & _) | (Hno & _)]].
      * rewrite Hnone in Ha. discriminate.
      * rewrite Hr in E. discriminate.
      * exact (Hno a Hr).
    + intros Hpp Hfit Hready.
      destruct (Z.le_gt_cases 0 train_count) as [Hpos|Hneg].
      * destruct (ideal_run preprocess_vol predict tr_shift labels mask input_dir
                            train_count clf_obj incremental_batch (boot d q obs)
                            Hpp ltac:(intros; lia) Hfit eq_refl Hpos Hready)
          as (_ & H & _).
        -- intros j Hgt Hj. apply label_in_range. lia.
        -- apply H. exact Hn.
      * assert (E : labels = []) by (destruct labels; [reflexivity | simpl in *; lia]).
        unfold run. rewrite E. reflexivity.
  - intros Hn. destruct Hc as (_ & Hh & _ & Hclf & _).
    rewrite Hclf.
    destruct (live (calls (snd run))) as [m|] eqn:El; [|reflexivity].
    destruct (live_train _ _ El) as (idx & dt & l & prev & Hin).
    destruct (train_stored _ _ _ _ _ _ _ _ _ _ Hh Hin) as [H1 H2].
    rewrite Hidx in H2. apply in_rev, in_seq in H2. lia.
Qed.

(** C1, as amended: with [tr_shift <= train_count < len(labels)] the
    first fit is called at most once and only on volume [train_count]; in
    a run that stores volume [train_count] it is called exactly once, on
    the [train_count - tr_shift] pairs made of the row of index [i] and the
    label of index [i - tr_shift], for [i] from [tr_shift] to
    [train_count - 1]. *)
Theorem fit_once_at_train_count
        labels mask input_dir (t : nat) clf_obj incremental_batch d q obs :
  let s' := snd (realtime preprocess_vol predict labels mask input_dir
                          (Z.of_nat t) clf_obj incremental_batch (boot d q obs)) in
  let cs := calls s' in
  (3 <= t < length labels)%nat ->
  (length (filter is_fit cs) <= 1)%nat /\
  (forall idx data lbls out, In (Train idx data lbls None out) cs -> idx = t) /\
  (In t (stored_idxs cs) ->
   exists data lbls out,
     filter is_fit cs = [Train t data lbls None out] /\
     length data = (t - 3)%nat /\
     length lbls = (t - 3)%nat /\
     combine data lbls =
       map (fun i => (row_at cs i, nth (i - 3) labels 0%Z)) (seq 3 (t - 3))).
Proof.
  intros s' cs Ht.
  destruct (run_final preprocess_vol predict tr_shift labels mask input_dir
                      (Z.of_nat t) clf_obj incremental_batch (boot d q obs) eq_refl)
    as (obs' & k & (_ & Hh & _ & _ & _ & Hset) & Hk & Hidx).
  fold (realtime preprocess_vol predict labels mask input_dir (Z.of_nat t) clf_obj
                 incremental_batch) in Hh, Hset, Hidx.
  fold s' in Hh, Hset, Hidx. fold cs in Hh, Hset, Hidx.
  assert (Hone := at_most_one_fit _ _ _ _ _ Hh).
  split; [exact Hone|]. split.
  - intros idx data lbls out Hin.
    destruct (hist_ok_in _ _ _ _ _ _ Hh Hin) as (_ & older & _ & Hok & _).
    simpl in Hok. lia.
  - intros Hst. destruct (idx_stored _ _ Hst) as [r Hr].
    destruct (proj1 Hset t r Hr eq_refl) as (data & lbls & out & Hin).
    exists data, lbls, out.
    assert (F : In (Train t data lbls None out) (filter is_fit cs))
      by (apply filter_In; split; [exact Hin | reflexivity]).
    split; [exact (singleton_of_short _ _ Hone F)|].
    destruct (hist_ok_in _ _ _ _ _ _ Hh Hin) as (newer & older & E & Hok & Hold).
    simpl in Hok.
    destruct Hok as (_ & (r0 & older' & ->) & _ & _ & -> & ->).
    destruct Hold as [Hst0 _]. simpl in Hst0.
    unfold tr_shift, table.
    change 3%Z with (Z.of_nat 3).
    rewrite (slice_map_seq _ (length labels) 3 t) by lia.
    replace (Z.of_nat t - Z.of_nat 3)%Z with (Z.of_nat (t - 3)) by lia.
    assert (El : Py.slice labels 0 (Z.of_nat (t - 3)) =
                 map (fun i => nth i labels 0%Z) (seq 0 (t - 3))).
    { rewrite <- (Nat.sub_0_r (t - 3)) at 2.
      apply (slice_nth labels 0%Z 0 (t - 3)). lia. }
    rewrite El, !length_map, !length_seq.
    split; [reflexivity|]. split; [reflexivity|].
    rewrite combine_map_seq. apply map_ext_in. intros i Hi. apply in_seq in Hi.
    rewrite Nat.add_0_r. f_equal.
    rewrite E.
    match goal with |- _ = row_at (newer ++ ?c :: ?o) i =>
      change (newer ++ c :: o) with (newer ++ [c] ++ o) end.
    rewrite app_assoc. symmetry.
    apply (row_at_stable tr_shift labels (Z.of_nat t) incremental_batch).
    + rewrite <- app_assoc. simpl. rewrite <- E. exact Hh.
    + simpl. right. rewrite Hst0. apply in_rev. rewrite rev_involutive.
      apply in_seq. lia.
Qed.

(** C8, as amended: with a batch size [b >= tr_shift], an incremental
    update is called at index [idx] only when [idx - train_count] is a
    positive multiple of [b], with the model that has just predicted
    volume [idx], on the [b - tr_shift] pairs made of the row of index [i]
    and the label of index [i - tr_shift], for [i] from
    [idx - b + tr_shift] to [idx - 1]; it is called after every
    prediction at such an index that returned; and the model it returns is
    the one bound to [clf] until a later training call returns. *)
Theorem update_on_batch_window
        labels mask input_dir (t b : nat) clf_obj d q obs :
  let s' := snd (realtime preprocess_vol predict labels mask input_dir
                          (Z.of_nat t) clf_obj (Z.of_nat b) (boot d q obs)) in
  let cs := calls s' in
  (3 <= b)%nat ->
  (forall idx data lbls m out, In (Train idx data lbls (Some m) out) cs ->
     (t + b <= idx)%nat /\
     ((idx - t) mod b = 0)%nat /\
     (exists r p, In (Predict idx m r (Ok p)) cs) /\
     length data = (b - 3)%nat /\
     length lbls = (b - 3)%nat /\
     combine data lbls =
       map (fun i => (row_at cs i, nth (i - 3) labels 0%Z))
           (seq (idx - b + 3) (b - 3))) /\
  (forall idx m r p, In (Predict idx m r (Ok p)) cs ->
     ((idx - t) mod b = 0)%nat ->
     exists data lbls out, In (Train idx data lbls (Some m) out) cs) /\
  (forall newer idx data lbls m m' older,
     cs = newer ++ Train idx data lbls (Some m) (Ok m') :: older ->
     (forall c, In c newer ->
        match c with Train _ _ _ _ (Ok _) => False | _ => True end) ->
     clf s' = Some m').
Proof.
  intros s' cs Hb.
  destruct (run_final preprocess_vol predict tr_shift labels mask input_dir
                      (Z.of_nat t) clf_obj (Z.of_nat b) (boot d q obs) eq_refl)
    as (obs' & k & (_ & Hh & _ & Hclf & _ & Hset) & Hk & Hidx).
  fold (realtime preprocess_vol predict labels mask input_dir (Z.of_nat t) clf_obj
                 (Z.of_nat b)) in Hh, Hset, Hidx, Hclf.
  fold s' in Hh, Hset, Hidx, Hclf. fold cs in Hh, Hset, Hidx, Hclf.
  split; [|split].
  - intros idx data lbls m out Hin.
    destruct (hist_ok_in _ _ _ _ _ _ Hh Hin) as (newer & older & E & Hok & Hold).
    simpl in Hok.
    destruct Hok as (Hgt & Hpos & Hmod & (r & p & older' & ->) & -> & ->).
    destruct Hold as [(_ & _ & older'' & ->) [Hst0 _]]. simpl in Hst0.
    assert (Hge : (Z.of_nat b <= Z.of_nat idx - Z.of_nat t)%Z)
      by (apply multiple_ge; [lia | lia | exact Hmod]).
    assert (Hlt : (idx < length labels)%nat).
    { assert (H : In idx (stored_idxs cs)).
      { rewrite E, stored_idxs_app. apply in_or_app. right. simpl. left. reflexivity. }
      rewrite Hidx in H. apply in_rev, in_seq in H. lia. }
    split; [lia|]. split.
    { apply Nat2Z.inj. rewrite Nat2Z.inj_mod, Nat2Z.inj_sub by lia. exact Hmod. }
    split.
    { exists r, p. rewrite E. apply in_or_app. right. right. left. reflexivity. }
    unfold tr_shift, table.
    replace (Z.of_nat idx - Z.of_nat b + 3)%Z with (Z.of_nat (idx - b + 3)) by lia.
    rewrite (slice_map_seq _ (length labels) (idx - b + 3) idx) by lia.
    replace (Z.of_nat idx - Z.of_nat b)%Z with (Z.of_nat (idx - b)) by lia.
    replace (Z.of_nat idx - 3)%Z with (Z.of_nat (idx - 3)) by lia.
    rewrite (slice_nth labels 0%Z (idx - b) (idx - 3)) by lia.
    replace (idx - (idx - b + 3))%nat with (b - 3)%nat by lia.
    replace (idx - 3 - (idx - b))%nat with (b - 3)%nat by lia.
    rewrite !length_map, !length_seq.
    split; [reflexivity|]. split; [reflexivity|].
    rewrite combine_map_seq. apply map_ext_in. intros i Hi. apply in_seq in Hi.
    f_equal; [|f_equal; lia].
    rewrite E.
    match goal with |- _ = row_at (newer ++ ?c :: ?o) i =>
      change (newer ++ c :: o) with (newer ++ [c] ++ o) end.
    rewrite app_assoc. symmetry.
    apply (row_at_stable tr_shift labels (Z.of_nat t) (Z.of_nat b)).
    + rewrite <- app_assoc. simpl. rewrite <- E. exact Hh.
    + simpl. right. rewrite Hst0. apply in_rev. rewrite rev_involutive.
      apply in_seq. lia.
  - intros idx m r p Hin Hmod.
    destruct (hist_ok_in _ _ _ _ _ _ Hh Hin) as (newer & older & E & Hok & Hold).
    simpl in Hok. destruct Hok as (Hgt & _ & older' & ->).
    assert (Hlt : (idx < length labels)%nat).
    { assert (H : In idx (stored_idxs cs)).
      { rewrite E, stored_idxs_app. apply in_or_app. right. simpl. left. reflexivity. }
      rewrite Hidx in H. apply in_rev, in_seq in H. lia. }
    apply (proj2 Hset idx m r p Hin); [lia | | apply label_in_range; lia].
    replace (Z.of_nat idx - Z.of_nat t)%Z with (Z.of_nat (idx - t)) by lia.
    rewrite <- Nat2Z.inj_mod, Hmod. reflexivity.
  - intros newer idx data lbls m m' older E Hquiet.
    rewrite Hclf, E, (live_app_quiet _ _ Hquiet). reflexivity.
Qed.

Lemma nth_replace_nth_other (l : list bool) i j b d0 :
  i <> j -> nth j (Py.replace_nth l i b) d0 = nth j l d0.
Proof.
  revert i j; induction l as [|h t IH]; intros [|i] [|j] H; simpl; auto;
    try contradiction.
Qed.

(** When [realtime] raises out of its loop, the observer it has started
    is left running, also after the handler of the calling cell has
    stopped the module-level observer. *)
Lemma cell_leaves_observer_running
      labels mask input_dir train_count clf_obj incremental_batch d q obs g e :
  (g < length obs)%nat ->
  fst (realtime preprocess_vol predict labels mask input_dir train_count clf_obj
                incremental_batch (boot d q obs)) = Raise e ->
  e <> UnboundLocalError "accuracy" ->
  nth (length obs)
      (observers (snd (calling_cell preprocess_vol predict g labels mask input_dir
                                    train_count clf_obj incremental_batch
                                    (boot d q obs)))) false = true.
Proof.
  intros Hg Hr He.
  pose proof (realtime_outcome preprocess_vol predict tr_shift labels mask
                input_dir train_count clf_obj incremental_batch (boot d q obs)
                eq_refl) as Hout.
  fold (realtime preprocess_vol predict labels mask input_dir train_count clf_obj
                 incremental_batch) in Hout.
  cbv zeta in Hout. unfold calling_cell.
  destruct (realtime preprocess_vol predict labels mask input_dir train_count
                     clf_obj incremental_batch (boot d q obs)) as [r s'].
  simpl in *. subst r.
  destruct Hout as [(a & E & _) | [(E & _) | (_ & (Hobs & _) & _)]].
  - discriminate.
  - inversion E. contradiction.
  - unfold observer_stop, modify. simpl. rewrite Hobs.
    rewrite nth_replace_nth_other by lia.
    rewrite app_nth2 by lia. rewrite Nat.sub_diag. reflexivity.
Qed.

End Claims.

(** ** The watchers *)

(** C4, as amended: on a file whose name exists, each watcher calls
    [np.load] once; it returns the parsed volume when the contents are
    complete at that moment, and otherwise lets the load error reach the
    caller, without a retry. *)
Theorem watcher_parses_once filename (s : state volume vec clf_t) f :
  lookup filename (disk s) = Some f ->
  (partial_reads f = 0%nat ->
   fst (tr_watcher filename s) = Ok (contents f) /\
   fst (tr_watcher_simple filename s) = Ok (contents f)) /\
  (partial_reads f <> 0%nat ->
   fst (tr_watcher filename s) = Raise (LoadError filename) /\
   fst (tr_watcher_simple filename s) = Raise (LoadError filename)).
Proof.
  intros Hf.
  assert (Hw : tr_watcher filename s = np_load filename s).
  { unfold tr_watcher, bind, os_path_exists, get, ret. rewrite Hf.
    destruct (np_load filename s) as [[v|e|] s1]; reflexivity. }
  assert (Hs : fst (tr_watcher_simple filename s) = fst (np_load filename s)).
  { unfold tr_watcher_simple.
    assert (Hp : poll filename (disk s) (file_queue s) = (true, disk s))
      by (destruct (file_queue s); simpl; rewrite Hf; reflexivity).
    rewrite Hp. unfold np_load. simpl. rewrite Hf.
    destruct (partial_reads f); reflexivity. }
  rewrite Hw, Hs. unfold np_load. rewrite Hf.
  split; intros Hp.
  - rewrite Hp. split; reflexivity.
  - destruct (partial_reads f) as [|k0]; [contradiction | split; reflexivity].
Qed.

End Properties.

(** ** Runs of the demo session *)

(** C1, counterexample: with [train_count = len(labels) = 4] the four
    volumes are stored and no fit is ever called. *)
Lemma no_fit_when_train_count_is_len :
  let cs := calls (snd (realtime Demo.preprocess_vol Demo.predict
                                 [1; 2; 1; 2]%Z tt Demo.input_dir 4
                                 Demo.clf_obj 0
                                 (Demo.session (Demo.disk_upto 4) []))) in
  (4 <= Z.of_nat (length [1; 2; 1; 2]%Z))%Z /\
  rev (stored_idxs cs) = [0; 1; 2; 3]%nat /\
  length (filter is_fit cs) <> 1%nat.
Proof. vm_compute. repeat split; discriminate. Qed.

(** A run of the theorem of C1: ten volumes, [train_count = 5]. *)
Lemma fit_once_at_train_count_witness :
  (3 <= 5 < length Demo.alternating)%nat /\
  forall idx data lbls out,
    In (Train idx data lbls None out)
       (calls (snd (realtime Demo.preprocess_vol Demo.predict Demo.alternating tt
                             Demo.input_dir (Z.of_nat 5) Demo.clf_obj 0
                             (Demo.session (Demo.disk_upto 10) [])))) ->
    idx = 5%nat.
Proof.
  assert (H : (3 <= 5 < length Demo.alternating)%nat) by (simpl; lia).
  split; [exact H|].
  exact (proj1 (proj2 (fit_once_at_train_count _ _ _ _ Demo.preprocess_vol Demo.predict
                         Demo.alternating tt Demo.input_dir 5 Demo.clf_obj 0
                         (Demo.disk_upto 10) [] [false] H))).
Defined.

(** C3, at a failing input: [predict] raises on volume 6.  The handler of
    the calling cell stops the module-level observer (identity 0, already
    stopped) and prints the exception; the observer that the run has
    started (identity 1) is still running. *)
Theorem observer_leaked_when_predict_raises :
  let s0 := Demo.session (Demo.disk_upto 10) [] in
  fst (realtime Demo.preprocess_vol Demo.broken_predict Demo.alternating tt
                Demo.input_dir 5 Demo.clf_obj 0 s0)
  = Raise (CollaboratorError 1) /\
  observers (snd (realtime Demo.preprocess_vol Demo.broken_predict Demo.alternating tt
                           Demo.input_dir 5 Demo.clf_obj 0 s0))
  = [false; true] /\
  fst (calling_cell Demo.preprocess_vol Demo.broken_predict 0 Demo.alternating tt
                    Demo.input_dir 5 Demo.clf_obj 0 s0)
  = Ok tt /\
  observers (snd (calling_cell Demo.preprocess_vol Demo.broken_predict 0
                               Demo.alternating tt Demo.input_dir 5 Demo.clf_obj 0 s0))
  = [false; true].
Proof. vm_compute. repeat split. Qed.

(** C4, counterexample: volume 0 exists half-written and is complete at
    the next attempt; both watchers raise instead of returning it. *)
Lemma watcher_gives_up_on_partial_file :
  let s := Demo.session [(Demo.path 0, File 1 42%Z)] [] in
  fst (tr_watcher (Demo.path 0) s) = Raise (LoadError (Demo.path 0)) /\
  fst (tr_watcher_simple (Demo.path 0) s) = Raise (LoadError (Demo.path 0)) /\
  fst (np_load (Demo.path 0) (snd (tr_watcher (Demo.path 0) s))) = Ok 42%Z.
Proof. vm_compute. repeat split. Qed.

(** Runs of the theorem of C4: a complete file and a half-written one. *)
Lemma watcher_parses_once_witness :
  fst (tr_watcher (Demo.path 0) (Demo.session [(Demo.path 0, File 0 42%Z)] []))
  = Ok 42%Z /\
  fst (tr_watcher (Demo.path 0) (Demo.session [(Demo.path 0, File 2 42%Z)] []))
  = Raise (LoadError (Demo.path 0)).
Proof.
  split.
  - apply (proj1 (watcher_parses_once Z Z nat (Demo.path 0)
                    (Demo.session [(Demo.path 0, File 0 42%Z)] [])
                    (File 0 42%Z) eq_refl) eq_refl).
  - apply (proj2 (watcher_parses_once Z Z nat (Demo.path 0)
                    (Demo.session [(Demo.path 0, File 2 42%Z)] [])
                    (File 2 42%Z) eq_refl)).
    simpl. discriminate.
Defined.

(** C5, counterexample: in scenario A the fit is not given the pairs of
    the indices 0 to 4, and index 5 is not classified. *)
Lemma scenario_A_as_claimed_fails :
  let cs := calls (snd (realtime Demo.preprocess_vol Demo.predict Demo.alternating
                                 tt Demo.input_dir 5 Demo.clf_obj 0
                                 (Demo.session (Demo.disk_upto 10) []))) in
  (forall out,
     ~ In (Train 5 [Vals 0; Vals 1; Vals 2; Vals 3; Vals 4]%Z [1; 2; 1; 2; 1]%Z
                 None out) cs) /\
  rev (predicted_idxs cs) <> [5; 6; 7; 8; 9]%nat.
Proof.
  intros cs.
  assert (E : filter is_fit cs =
              [Train 5 [Vals 3; Vals 4]%Z [1; 2]%Z None (Ok 1%nat)])
    by (vm_compute; reflexivity).
  split.
  - intros out H.
    pose proof (proj2 (filter_In is_fit _ cs) (conj H eq_refl)) as F.
    rewrite E in F. destruct F as [F|[]]. discriminate.
  - vm_compute. discriminate.
Qed.

(** C8, counterexample: with [train_count = 3] and a batch of 4, the one
    update of the run, at index 7, is given a single pair, row 6 with
    label 3, and not the four most recent pairs. *)
Lemma update_gets_fewer_pairs :
  let cs := calls (snd (realtime Demo.preprocess_vol Demo.predict Demo.alternating
                                 tt Demo.input_dir 3 Demo.clf_obj 4
                                 (Demo.session (Demo.disk_upto 10) []))) in
  filter is_update cs = [Train 7 [Vals 6%Z] [2%Z] (Some 1%nat) (Ok 2%nat)] /\
  forall idx data lbls m out,
    In (Train idx data lbls (Some m) out) cs -> length data <> 4%nat.
Proof.
  intros cs.
  assert (E : filter is_update cs =
              [Train 7 [Vals 6%Z] [2%Z] (Some 1%nat) (Ok 2%nat)])
    by (vm_compute; reflexivity).
  split; [vm_compute; reflexivity|].
  intros idx data lbls m out H.
  pose proof (proj2 (filter_In is_update _ cs) (conj H eq_refl)) as F.
  rewrite E in F. destruct F as [F|[]]. inversion F. simpl. discriminate.
Qed.

(** A run of the theorem of C8: [train_count = 1], a batch of 4. *)
Lemma update_on_batch_window_witness :
  (3 <= 4)%nat /\
  forall idx m r p,
    In (Predict idx m r (Ok p))
       (calls (snd (realtime Demo.preprocess_vol Demo.predict Demo.alternating tt
                             Demo.input_dir (Z.of_nat 1) Demo.clf_obj (Z.of_nat 4)
                             (Demo.session (Demo.disk_upto 10) [])))) ->
    ((idx - 1) mod 4 = 0)%nat ->
    exists data lbls out,
      In (Train idx data lbls (Some m) out)
         (calls (snd (realtime Demo.preprocess_vol Demo.predict Demo.alternating tt
                               Demo.input_dir (Z.of_nat 1) Demo.clf_obj (Z.of_nat 4)
                               (Demo.session (Demo.disk_upto 10) [])))).
Proof.
  assert (H : (3 <= 4)%nat) by lia.
  split; [exact H|].
  exact (proj1 (proj2 (update_on_batch_window _ _ _ _ Demo.preprocess_vol Demo.predict
                         Demo.alternating tt Demo.input_dir 1 4 Demo.clf_obj
                         (Demo.disk_upto 10) [] [false] H))).
Defined.

(** Runs of the theorem of C10: ten labels with [train_count = 5], where
    the accuracy is returned, and with [train_count = 9], where it is not
    bound. *)
Lemma accuracy_needs_volume_past_train_count_witness :
  (5 + 1 < Z.of_nat (length Demo.alternating))%Z /\
  fst (realtime Demo.preprocess_vol Demo.predict Demo.alternating tt
                Demo.input_dir 9 Demo.clf_obj 0
                (Demo.session (Demo.disk_upto 10) []))
  = Raise (UnboundLocalError "accuracy").
Proof.
  split.
  - apply (proj1 (accuracy_needs_volume_past_train_count _ _ _ _
                    Demo.preprocess_vol Demo.predict Demo.alternating tt
                    Demo.input_dir 5 Demo.clf_obj 0 (Demo.disk_upto 10) [] [false])
                 (2 # 4)%Q).
    vm_compute. reflexivity.
  - apply (proj1 (proj2 (accuracy_needs_volume_past_train_count _ _ _ _
                    Demo.preprocess_vol Demo.predict Demo.alternating tt
                    Demo.input_dir 9 Demo.clf_obj 0 (Demo.disk_upto 10) [] [false]))).
    + simpl. lia.
    + intros vol. exists vol. reflexivity.
    + intros dt l prev. eexists. reflexivity.
    + unfold ready. simpl. split; [repeat constructor|]. split; [constructor|].
      intros name H.
      repeat (destruct H as [H|H]; [subst name; left; vm_compute; discriminate|]).
      contradiction.
Defined.


(** A run of the theorem of C6: eight volumes, [train_count = 3], a batch
    of 4; the last call of the run is the update at index 7, and the call
    before it is the prediction of volume 7, made with the model that the
    update is given. *)
Lemma prediction_precedes_update_witness :
  let cs := calls (snd (realtime Demo.preprocess_vol Demo.predict
                                 [1; 2; 1; 2; 1; 2; 1; 2]%Z tt Demo.input_dir 3
                                 Demo.clf_obj 4
                                 (boot (Demo.disk_upto 8) [] [false]))) in
  cs = [] ++ Train 7 [Vals 6%Z] [2%Z] (Some 1%nat) (Ok 2%nat) :: tl cs /\
  exists r p older',
    tl cs = Predict 7 1%nat r (Ok p) :: older' /\ live older' = Some 1%nat.
Proof.
  intros cs.
  assert (H : cs = [] ++ Train 7 [Vals 6%Z] [2%Z] (Some 1%nat) (Ok 2%nat) :: tl cs)
    by (vm_compute; reflexivity).
  pose proof (prediction_precedes_update _ _ _ _ Demo.preprocess_vol Demo.predict
                [1; 2; 1; 2; 1; 2; 1; 2]%Z tt Demo.input_dir 3 Demo.clf_obj 4
                (Demo.disk_upto 8) [] [false]
                [] (Train 7 [Vals 6%Z] [2%Z] (Some 1%nat) (Ok 2%nat)) (tl cs) H) as W.
  cbv beta iota in W.
  split; [vm_compute; reflexivity | exact (proj1 W)].
Defined.
(** ** Scenario A, for any collaborators that return *)

Section ScenarioA.

Variables volume vec clf_t mask_t : Type.
Variable pp : volume -> vec.
Variable pr : clf_t -> row vec -> prediction.
Variable fit : list (row vec) -> list Z -> option clf_t -> clf_t.
Variable mask : mask_t.
Variable vol : nat -> volume.
Variable q : list (fs_event volume).
Variable obs : list bool.

(** C5, as amended: ten volumes on disk, labels 1,2,1,2,..., and
    [train_count = 5].  The controller, whose label shift is 3, fits once,
    at index 5, on the pairs (row 3, label 0) and (row 4, label 1); it
    classifies the indices 6 to 9, each with that model and on its own
    row; and it returns an accuracy between 0 and 1.  Were the shift 0,
    the fit would be given the pairs of the indices 0 to 4, and the
    indices classified would still be 6 to 9. *)
Theorem scenario_A :
  let d := map (fun j => (Demo.path j, File 0 (vol j))) (seq 0 10) in
  let row j := Vals (pp (vol j)) in
  let run :=
    realtime (fun v (_ : mask_t) => Ok (pp v)) (fun m r => Ok (pr m r))
             Demo.alternating mask Demo.input_dir 5
             (fun dt l prev => Ok (fit dt l prev)) 0 (boot d q obs) in
  let run0 :=
    realtime_shifted (fun v (_ : mask_t) => Ok (pp v)) (fun m r => Ok (pr m r))
                     0 Demo.alternating mask Demo.input_dir 5
                     (fun dt l prev => Ok (fit dt l prev)) 0 (boot d q obs) in
  let cs := calls (snd run) in
  let m := fit [row 3; row 4]%nat [1; 2]%Z None in
  (filter is_fit cs = [Train 5 [row 3; row 4]%nat [1; 2]%Z None (Ok m)] /\
   rev (filter is_predict cs) =
     [Predict 6 m (row 6%nat) (Ok (pr m (row 6%nat)));
      Predict 7 m (row 7%nat) (Ok (pr m (row 7%nat)));
      Predict 8 m (row 8%nat) (Ok (pr m (row 8%nat)));
      Predict 9 m (row 9%nat) (Ok (pr m (row 9%nat)))] /\
   rev (predicted_idxs cs) = [6; 7; 8; 9]%nat /\
   filter is_update cs = [] /\
   exists a, fst run = Ok a /\ (0 <= a <= 1)%Q) /\
  (exists out,
     filter is_fit (calls (snd run0)) =
       [Train 5 [row 0; row 1; row 2; row 3; row 4]%nat [1; 2; 1; 2; 1]%Z None out]) /\
  rev (predicted_idxs (calls (snd run0))) = [6; 7; 8; 9]%nat.
Proof.
  cbv zeta.
  split; [|split].
  - split; [vm_compute; reflexivity|].
    split; [vm_compute; reflexivity|].
    split; [vm_compute; reflexivity|].
    split; [vm_compute; reflexivity|].
    match goal with |- exists a, fst ?r = Ok a /\ _ =>
      assert (E : exists a, fst r = Ok a) by (vm_compute; eexists; reflexivity);
      pose proof (accuracy_needs_volume_past_train_count
                    volume vec clf_t mask_t
                    (fun v (_ : mask_t) => Ok (pp v)) (fun m0 r0 => Ok (pr m0 r0))
                    Demo.alternating mask Demo.input_dir 5
                    (fun dt l prev => Ok (fit dt l prev)) 0
                    (map (fun j => (Demo.path j, File 0 (vol j))) (seq 0 10))
                    q obs) as Hthm;
      pose proof (run_final volume vec clf_t mask_t
                    (fun v (_ : mask_t) => Ok (pp v)) (fun m0 r0 => Ok (pr m0 r0))
                    tr_shift Demo.alternating mask Demo.input_dir 5
                    (fun dt l prev => Ok (fit dt l prev)) 0
                    (boot (map (fun j => (Demo.path j, File 0 (vol j))) (seq 0 10))
                          q obs) eq_refl) as Hfin
    end.
    cbv zeta in Hthm. unfold realtime in *.
    destruct E as [a E]. exists a. split; [exact E|].
    destruct Hthm as [Hret _]. destruct (Hret a E) as [_ Ha].
    destruct Hfin as (obs' & k & Hc & Hk & Hidx).
    exact (proj2 (accuracy_bound volume vec clf_t tr_shift Demo.alternating 5 0
                                 obs' k _ a Hc Hidx Hk Ha)).
  - vm_compute. eexists. reflexivity.
  - vm_compute. reflexivity.
Qed.

End ScenarioA.

(** ** Preprocessing: masking and z-scoring of one volume *)

Section PreprocessFacts.

Import Preprocess.
Local Open Scope R_scope.











End PreprocessFacts.

(** * The rest of the notebooks *)

(** ** File names *)

Lemma string_length_append (s t : string) :
  String.length (s ++ t) = (String.length s + String.length t)%nat.
Proof. induction s as [|a s IH]; simpl; [reflexivity | rewrite IH; reflexivity]. Qed.

Lemma append_cancel_r (t : string) : forall s s' : string,
  (s ++ t)%string = (s' ++ t)%string -> s = s'.
Proof.
  induction s as [|a s IH]; intros [|a' s'] H; simpl in H.
  - reflexivity.
  - apply (f_equal String.length) in H. simpl in H.
    rewrite string_length_append in H. lia.
  - apply (f_equal String.length) in H. simpl in H.
    rewrite string_length_append in H. lia.
  - injection H as -> H. f_equal. apply IH, H.
Qed.

Lemma digits_value_zero (s : string) :
  digits_value (String "0" s) = digits_value s.
Proof.
  unfold digits_value. simpl.
  destruct (NilEmpty.uint_of_string s); reflexivity.
Qed.

Lemma digits_value_str (n : nat) : digits_value (Py.str_of_nat n) = Some n.
Proof.
  unfold digits_value, Py.str_of_nat, NilZero.string_of_uint.
  pose proof (DecimalNat.Unsigned.of_to n) as H.
  destruct (Nat.to_uint n) as [|d|d|d|d|d|d|d|d|d|d];
    [rewrite <- H; reflexivity | rewrite NilEmpty.usu; simpl option_map; rewrite H; reflexivity ..].
Qed.

Lemma digits_value_zfill3 (n : nat) :
  digits_value (Py.zfill3 (Py.str_of_nat n)) = Some n.
Proof.
  unfold Py.zfill3.
  destruct (String.length (Py.str_of_nat n)) as [|[|[|k]]]; simpl append;
    rewrite ?digits_value_zero; apply digits_value_str.
Qed.

Lemma file_pattern_inj (i j : nat) : file_pattern i = file_pattern j -> i = j.
Proof.
  intros H. unfold file_pattern in H.
  simpl in H. injection H as H.
  apply append_cancel_r in H.
  pose proof (digits_value_zfill3 i) as Hi.
  rewrite H, digits_value_zfill3 in Hi. congruence.
Qed.

(** X1: Distinct volume indices give distinct file names, whatever the
    number of digits: two names are equal exactly when the indices are. *)
Theorem file_pattern_injective (i j : nat) :
  String.eqb (file_pattern i) (file_pattern j) = Nat.eqb i j.
Proof.
  destruct (Nat.eqb i j) eqn:E.
  - apply Nat.eqb_eq in E. subst j. apply String.eqb_refl.
  - apply String.eqb_neq. intros H. apply Nat.eqb_neq in E. apply E.
    apply file_pattern_inj, H.
Qed.

Lemma increasing_nth (d : string) : forall l,
  increasing l = true ->
  forall i j, (i < j < length l)%nat ->
    String.ltb (nth i l d) (nth j l d) = true.
Proof.
  induction l as [|x l IH]; intros H i j Hij; simpl in Hij; [lia|].
  simpl in H. apply andb_prop in H. destruct H as [Hx Hl].
  destruct j as [|j]; [lia|]. destruct i as [|i]; simpl.
  - rewrite forallb_forall in Hx. apply Hx, nth_In. lia.
  - apply IH; [exact Hl | lia].
Qed.

Lemma nth_map_seq {A} (f : nat -> A) (n k : nat) (d : A) :
  (k < n)%nat -> nth k (map f (seq 0 n)) d = f k.
Proof.
  intros H. rewrite (nth_indep _ d (f 0%nat)) by (rewrite length_map, length_seq; exact H).
  rewrite map_nth, seq_nth by exact H. reflexivity.
Qed.

(** X2: Up to index 999 a file name has ten characters and the names sort
    like the indices. *)
Theorem file_pattern_sorts (i j : nat) :
  (i < j < 1000)%nat ->
  String.length (file_pattern i) = 10%nat /\
  String.length (file_pattern j) = 10%nat /\
  String.ltb (file_pattern i) (file_pattern j) = true.
Proof.
  intros Hij.
  assert (Hlen : forallb (fun k => Nat.eqb (String.length (file_pattern k)) 10)
                         (seq 0 1000) = true) by (vm_compute; reflexivity).
  rewrite forallb_forall in Hlen.
  assert (Hinc : increasing (map file_pattern (seq 0 1000)) = true)
    by (vm_compute; reflexivity).
  split; [|split].
  - apply Nat.eqb_eq, Hlen, in_seq. lia.
  - apply Nat.eqb_eq, Hlen, in_seq. lia.
  - pose proof (increasing_nth "" _ Hinc i j) as H.
    rewrite length_map, length_seq in H. specialize (H Hij).
    rewrite !nth_map_seq in H by lia. exact H.
Qed.

Lemma file_pattern_sorts_witness :
  String.length (file_pattern 9) = 10%nat /\
  String.length (file_pattern 10) = 10%nat /\
  String.ltb (file_pattern 9) (file_pattern 10) = true.
Proof. apply (file_pattern_sorts 9 10). lia. Defined.

(** ** The watchers and the queue *)

Section Watchers.

Variables volume vec clf_t : Type.

Lemma lookup_head name (f : file volume) d : lookup name ((name, f) :: d) = Some f.
Proof. simpl. rewrite String.eqb_refl. reflexivity. Qed.

Lemma lookup_other name n (f : file volume) d :
  n <> name -> lookup name ((n, f) :: d) = lookup name d.
Proof. intros H. simpl. apply String.eqb_neq in H. rewrite H. reflexivity. Qed.

Lemma lookup_grows name n (f : file volume) d :
  lookup name d <> None -> lookup name ((n, f) :: d) <> None.
Proof. intros H. simpl. destruct (String.eqb n name); [discriminate | exact H]. Qed.

(** The disk once the events [events] have been taken from the queue. *)
Lemma await_event_match filename : forall before (d : list (string * file volume)) ev after,
  src_path ev = filename ->
  (forall e, In e before -> src_path e <> filename) ->
  await_event filename d (before ++ ev :: after) =
    (true,
     (src_path ev, created ev) ::
       rev (map (fun e => (src_path e, created e)) before) ++ d,
     after).
Proof.
  induction before as [|e before IH]; intros d ev after Hev Hb; simpl.
  - rewrite Hev, String.eqb_refl. reflexivity.
  - assert (He : String.eqb (src_path e) filename = false)
      by (apply String.eqb_neq, Hb; left; reflexivity).
    rewrite He, IH; [| exact Hev | intros e' H'; apply Hb; right; exact H'].
    rewrite <- app_assoc. reflexivity.
Qed.

Lemma await_event_none filename : forall q (d : list (string * file volume)),
  (forall e, In e q -> src_path e <> filename) ->
  await_event filename d q =
    (false, rev (map (fun e => (src_path e, created e)) q) ++ d, []).
Proof.
  induction q as [|e q IH]; intros d Hq; simpl; [reflexivity|].
  assert (He : String.eqb (src_path e) filename = false)
    by (apply String.eqb_neq, Hq; left; reflexivity).
  rewrite He, IH by (intros e' H'; apply Hq; right; exact H').
  rewrite <- app_assoc. reflexivity.
Qed.

Lemma lookup_app_l name (d1 d2 : list (string * file volume)) :
  lookup name d1 <> None -> lookup name (d1 ++ d2) <> None.
Proof.
  induction d1 as [|[n f] d1 IH]; simpl; [congruence|].
  destruct (String.eqb n name); [discriminate | exact IH].
Qed.

Lemma lookup_app_r name (d1 d2 : list (string * file volume)) :
  lookup name d2 <> None -> lookup name (d1 ++ d2) <> None.
Proof.
  intros H. induction d1 as [|[n f] d1 IH]; simpl; [exact H|].
  destruct (String.eqb n name); [discriminate | exact IH].
Qed.

Lemma lookup_in name (d : list (string * file volume)) :
  In name (map fst d) -> lookup name d <> None.
Proof.
  induction d as [|[n f] d IH]; simpl; [tauto|].
  intros [->|H]; [rewrite String.eqb_refl; discriminate|].
  destruct (String.eqb n name); [discriminate | apply IH, H].
Qed.

Lemma lookup_absent name (d : list (string * file volume)) :
  ~ In name (map fst d) -> lookup name d = None.
Proof.
  induction d as [|[n f] d IH]; simpl; [reflexivity|].
  intros H. destruct (String.eqb n name) eqn:E.
  - apply String.eqb_eq in E. tauto.
  - apply IH. tauto.
Qed.

(** What [np.load] leaves on disk: the files that were there. *)
Lemma np_load_keeps name filename (s : state volume vec clf_t) :
  lookup name (disk s) <> None ->
  lookup name (disk (snd (np_load filename s))) <> None.
Proof.
  intros H. unfold np_load.
  destruct (lookup filename (disk s)) as [[[|k] c]|]; simpl; try exact H.
  apply lookup_grows, H.
Qed.

Lemma np_load_queue filename (s : state volume vec clf_t) :
  file_queue (snd (np_load filename s)) = file_queue s.
Proof.
  unfold np_load. destruct (lookup filename (disk s)) as [[[|k] c]|]; reflexivity.
Qed.

Lemma np_load_found filename (s : state volume vec clf_t) f :
  lookup filename (disk s) = Some f ->
  fst (np_load filename s) =
    match partial_reads f with
    | O => Ok (contents f)
    | S _ => Raise (LoadError filename)
    end.
Proof.
  intros H. unfold np_load. rewrite H. destruct (partial_reads f); reflexivity.
Qed.

(** X3: When the awaited file is not there, [tr_watcher] takes from the
    queue the events up to the first one that carries the awaited path,
    that one included, and then loads the file once; the events behind
    stay in the queue, and the files of the events taken are on disk. *)
Theorem tr_watcher_consumes_up_to_match
        filename (s : state volume vec clf_t) before ev after :
  lookup filename (disk s) = None ->
  file_queue s = before ++ ev :: after ->
  src_path ev = filename ->
  (forall e, In e before -> src_path e <> filename) ->
  let s' := snd (tr_watcher filename s) in
  fst (tr_watcher filename s) =
    match partial_reads (created ev) with
    | O => Ok (contents (created ev))
    | S _ => Raise (LoadError filename)
    end /\
  file_queue s' = after /\
  (forall e, In e before \/ e = ev -> lookup (src_path e) (disk s') <> None) /\
  (forall name, lookup name (disk s) <> None -> lookup name (disk s') <> None).
Proof.
  intros Hd Hq Hev Hb s'. subst s'.
  unfold tr_watcher, bind, os_path_exists, get, wait_for_event, ret.
  rewrite Hd, Hq, (await_event_match filename before (disk s) ev after Hev Hb).
  cbv iota.
  match goal with |- context [np_load filename ?t] => set (s1 := t) end.
  assert (H1 : lookup filename (disk s1) = Some (created ev))
    by (unfold s1; simpl disk; rewrite <- Hev; apply lookup_head).
  pose proof (np_load_found filename s1 _ H1) as Hr.
  pose proof (np_load_queue filename s1) as Hqq.
  assert (Hk : forall name, lookup name (disk s1) <> None ->
                 lookup name (disk (snd (np_load filename s1))) <> None)
    by (intros name; apply np_load_keeps).
  destruct (np_load filename s1) as [[vol|e|] s2]; simpl in Hr, Hqq, Hk |- *.
  all: (split; [exact Hr |
        split; [exact Hqq |
        split; [intros e0 He0; apply Hk; unfold s1; simpl disk;
                destruct He0 as [He0| ->];
                [apply lookup_grows, lookup_app_l, lookup_in;
                 rewrite map_rev, map_map; simpl; apply -> in_rev;
                 apply in_map_iff; exists e0; split; [reflexivity | exact He0]
                | rewrite String.eqb_refl; discriminate]
               | intros name Hn; apply Hk; unfold s1; simpl disk;
                 apply lookup_grows, lookup_app_r, Hn]]]).
Qed.

(** X4: When the awaited file is not there and no event carries its path,
    [tr_watcher] never returns: it takes every event from the queue and
    then waits on the empty queue. *)
Theorem tr_watcher_blocks_without_event filename (s : state volume vec clf_t) :
  lookup filename (disk s) = None ->
  (forall e, In e (file_queue s) -> src_path e <> filename) ->
  fst (tr_watcher filename s) = Blocked /\
  file_queue (snd (tr_watcher filename s)) = [] /\
  lookup filename (disk (snd (tr_watcher filename s))) = None.
Proof.
  intros Hd Hq.
  unfold tr_watcher, bind, os_path_exists, get, wait_for_event, ret.
  rewrite Hd, (await_event_none filename (file_queue s) (disk s) Hq). simpl.
  split; [reflexivity | split; [reflexivity|]].
  apply lookup_absent. rewrite map_app, map_rev, map_map. simpl.
  intros H. apply in_app_or in H. destruct H as [H|H].
  - apply in_rev, in_map_iff in H. destruct H as (e & He & Hin).
    apply (Hq e Hin). exact He.
  - revert H. clear Hq. induction (disk s) as [|[n f] d IH]; simpl in *; [tauto|].
    destruct (String.eqb n filename) eqn:E; [discriminate|].
    apply String.eqb_neq in E. intros [H|H]; [tauto | apply IH; assumption].
Qed.

(** X5: A watcher returns a volume only from a file that is on disk and
    completely written. *)
Theorem watcher_returns_complete_file filename (s : state volume vec clf_t) vol :
  (fst (tr_watcher filename s) = Ok vol ->
   lookup filename (disk (snd (tr_watcher filename s))) = Some (File 0 vol)) /\
  (fst (tr_watcher_simple filename s) = Ok vol ->
   lookup filename (disk (snd (tr_watcher_simple filename s))) = Some (File 0 vol)).
Proof.
  assert (L : forall t : state volume vec clf_t,
            fst (np_load filename t) = Ok vol ->
            lookup filename (disk (snd (np_load filename t))) = Some (File 0 vol)).
  { intros t. unfold np_load.
    destruct (lookup filename (disk t)) as [[[|k] c]|] eqn:E; simpl;
      try discriminate.
    intros H. injection H as <-. exact E. }
  split.
  - unfold tr_watcher, bind, os_path_exists, get, wait_for_event, ret.
    destruct (lookup filename (disk s)) as [f|] eqn:E.
    + specialize (L s). destruct (np_load filename s) as [[v|e|] s1]; simpl in *;
        try discriminate. exact L.
    + destruct (await_event filename (disk s) (file_queue s)) as [[[|] d] q];
        [|discriminate].
      match goal with |- context [np_load filename ?t] => specialize (L t);
        destruct (np_load filename t) as [[v|e|] s1] end; simpl in *;
        try discriminate. exact L.
  - unfold tr_watcher_simple.
    destruct (poll filename (disk s) (file_queue s)) as [[|] d]; [|discriminate].
    apply L.
Qed.





End Watchers.

(** ** More about the controller *)

Lemma slice_backwards {A} (l : list A) (a b : Z) :
  (0 <= b <= a)%Z -> Py.slice l a b = [].
Proof.
  intros H. unfold Py.slice, Py.adjust.
  destruct (a <? 0)%Z eqn:Ea; [apply Z.ltb_lt in Ea; lia|].
  destruct (b <? 0)%Z eqn:Eb; [apply Z.ltb_lt in Eb; lia|].
  replace (Z.to_nat (Z.min b (Py.len l) - Z.min a (Py.len l))) with 0%nat by lia.
  reflexivity.
Qed.

Lemma slice_from_end {A} (l : list A) (b : Z) :
  (b < 0)%Z -> Py.slice l 0 b = firstn (Z.to_nat (Py.len l + b)) l.
Proof.
  intros H. unfold Py.slice, Py.adjust.
  apply Z.ltb_lt in H. rewrite H. unfold Py.len.
  replace (Z.min 0 (Z.of_nat (length l))) with 0%Z by lia.
  simpl skipn. f_equal. change (0 <? 0)%Z with false. cbv iota. lia.
Qed.

Ltac wp_step :=
  first [ apply wp_bind | apply wp_get | apply wp_modify | apply wp_ret
        | apply wp_lift | apply wp_or_raise
        | progress unfold store_row, call_clf_obj, call_predict, record
        | match goal with
          | |- wp (if ?b then _ else _) _ _ => destruct b eqn:?
          | |- match ?x with _ => _ end => destruct x eqn:?
          end ].

Ltac wp_all := repeat (cbv beta iota; wp_step).

Section Runs.

Variables volume vec clf_t mask_t : Type.
Variable preprocess_vol : volume -> mask_t -> result vec.
Variable predict : clf_t -> row vec -> result prediction.

(** X7: On a return the observer that the call has created is stopped; when
    the call never returns it runs on, and so it does when the loop is left
    by an exception; the observers of the earlier cells are not touched in
    any case. *)
Theorem observer_stopped_on_return
        labels mask input_dir train_count clf_obj incremental_batch d q obs :
  let run := realtime preprocess_vol predict labels mask input_dir train_count
                      clf_obj incremental_batch (boot d q obs) in
  match fst run with
  | Ok _ => observers (snd run) = obs ++ [false]
  | Blocked => observers (snd run) = obs ++ [true]
  | Raise e =>
      exists b, observers (snd run) = obs ++ [b] /\
                (e <> UnboundLocalError "accuracy" -> b = true)
  end.
Proof.
  intros run.
  destruct (realtime_outcome _ _ _ _ preprocess_vol predict tr_shift labels mask
              input_dir train_count clf_obj incremental_batch (boot d q obs) eq_refl)
    as [(a & Hr & _ & (Hobs & _) & _) | [(Hr & _ & (Hobs & _) & _) | (Hr & (Hobs & _) & _)]];
    fold (realtime preprocess_vol predict labels mask input_dir train_count clf_obj
                   incremental_batch) in Hr, Hobs;
    fold run in Hr, Hobs; simpl in Hobs.
  - rewrite Hr. exact Hobs.
  - rewrite Hr. exists false. split; [exact Hobs | congruence].
  - destruct (fst run) as [a|e|].
    + exfalso. apply (Hr a). reflexivity.
    + exists true. split; [exact Hobs | reflexivity].
    + exact Hobs.
Qed.

(** X8: With [train_count] below [tr_shift] the first fit is given no row at
    all, and the labels but the last [tr_shift - train_count] ones: the
    stop of the label slice is negative and counts from the end. *)
Theorem fit_below_shift
        labels mask input_dir (t : nat) clf_obj incremental_batch d q obs :
  let cs := calls (snd (realtime preprocess_vol predict labels mask input_dir
                                 (Z.of_nat t) clf_obj incremental_batch
                                 (boot d q obs))) in
  (t < 3)%nat ->
  (t < length labels)%nat ->
  (forall idx data lbls out, In (Train idx data lbls None out) cs ->
     idx = t /\ data = [] /\ lbls = firstn (length labels + t - 3) labels) /\
  (In t (stored_idxs cs) ->
   exists out,
     filter is_fit cs =
       [Train t [] (firstn (length labels + t - 3) labels) None out]).
Proof.
  intros cs Ht Hn.
  destruct (run_final _ _ _ _ preprocess_vol predict tr_shift labels mask input_dir
                      (Z.of_nat t) clf_obj incremental_batch (boot d q obs) eq_refl)
    as (obs' & k & (_ & Hh & _ & _ & _ & Hset) & Hk & Hidx).
  fold (realtime preprocess_vol predict labels mask input_dir (Z.of_nat t) clf_obj
                 incremental_batch) in Hh, Hset, Hidx.
  fold cs in Hh, Hset, Hidx.
  assert (Hfit : forall idx data lbls out, In (Train idx data lbls None out) cs ->
            idx = t /\ data = [] /\ lbls = firstn (length labels + t - 3) labels).
  { intros idx data lbls out Hin.
    destruct (hist_ok_in _ _ _ _ _ _ _ _ Hh Hin) as (_ & older & _ & Hok & _).
    simpl in Hok. destruct Hok as (Hi & _ & _ & _ & -> & ->).
    split; [lia|]. split.
    - apply slice_backwards. unfold tr_shift. lia.
    - unfold tr_shift. rewrite slice_from_end by lia. f_equal. unfold Py.len. lia. }
  split; [exact Hfit|].
  intros Hst. destruct (idx_stored _ _ _ _ Hst) as [r Hr].
  destruct (proj1 Hset t r Hr eq_refl) as (data & lbls & out & Hin).
  destruct (Hfit _ _ _ _ Hin) as (_ & -> & ->).
  exists out.
  apply singleton_of_short; [apply (at_most_one_fit _ _ _ _ _ _ _ Hh)|].
  apply filter_In. split; [exact Hin | reflexivity].
Qed.

(** X9: With a batch size of at most [tr_shift], an incremental update is
    given an empty batch: no row and no label (for indices from [tr_shift]
    on, that is when [train_count + incremental_batch >= tr_shift]); and
    such an update is called after every prediction at a multiple of the
    batch size that returned. *)
Theorem update_on_empty_batch
        labels mask input_dir (t b : nat) clf_obj d q obs :
  let cs := calls (snd (realtime preprocess_vol predict labels mask input_dir
                                 (Z.of_nat t) clf_obj (Z.of_nat b)
                                 (boot d q obs))) in
  (0 < b <= 3)%nat ->
  (3 <= t + b)%nat ->
  (forall idx data lbls m out, In (Train idx data lbls (Some m) out) cs ->
     data = [] /\ lbls = []) /\
  (forall idx m r p, In (Predict idx m r (Ok p)) cs ->
     ((idx - t) mod b = 0)%nat ->
     exists out, In (Train idx [] [] (Some m) out) cs).
Proof.
  intros cs Hb Htb.
  destruct (run_final _ _ _ _ preprocess_vol predict tr_shift labels mask input_dir
                      (Z.of_nat t) clf_obj (Z.of_nat b) (boot d q obs) eq_refl)
    as (obs' & k & (_ & Hh & _ & _ & _ & Hset) & Hk & Hidx).
  fold (realtime preprocess_vol predict labels mask input_dir (Z.of_nat t) clf_obj
                 (Z.of_nat b)) in Hh, Hset, Hidx.
  fold cs in Hh, Hset, Hidx.
  assert (Hupd : forall idx data lbls m out, In (Train idx data lbls (Some m) out) cs ->
            data = [] /\ lbls = []).
  { intros idx data lbls m out Hin.
    destruct (hist_ok_in _ _ _ _ _ _ _ _ Hh Hin) as (_ & older & _ & Hok & _).
    simpl in Hok. destruct Hok as (Hgt & Hpos & Hmod & _ & -> & ->).
    assert (Hge : (Z.of_nat b <= Z.of_nat idx - Z.of_nat t)%Z)
      by (apply multiple_ge; [lia | lia | exact Hmod]).
    split; apply slice_backwards; unfold tr_shift; lia. }
  split; [exact Hupd|].
  intros idx m r p Hin Hmod.
  destruct (hist_ok_in _ _ _ _ _ _ _ _ Hh Hin) as (newer & older & E & Hok & Hold).
  simpl in Hok. destruct Hok as (Hgt & _ & older' & ->).
  assert (Hlt : (idx < length labels)%nat).
  { assert (H : In idx (stored_idxs cs)).
    { rewrite E, stored_idxs_app. apply in_or_app. right. simpl. left. reflexivity. }
    rewrite Hidx in H. apply in_rev, in_seq in H. lia. }
  destruct (proj2 Hset idx m r p Hin) as (data & lbls & out & Hu);
    [lia | | apply label_in_range; lia |].
  - replace (Z.of_nat idx - Z.of_nat t)%Z with (Z.of_nat (idx - t)) by lia.
    rewrite <- Nat2Z.inj_mod, Hmod. reflexivity.
  - destruct (Hupd _ _ _ _ _ Hu) as [-> ->]. exists out. exact Hu.
Qed.

Lemma for_each_preserves (P : state volume vec clf_t -> Prop)
      (body : nat -> M volume vec clf_t unit) : forall l,
  (forall j s, In j l -> P s -> P (snd (body j s))) ->
  forall s, P s -> P (snd (for_each l body s)).
Proof.
  induction l as [|j l IH]; intros Hbody s Hs; simpl; [exact Hs|].
  unfold bind.
  pose proof (Hbody j s (or_introl eq_refl) Hs) as H1.
  destruct (body j s) as [[u|e|] s1]; simpl in H1 |- *; try exact H1.
  apply IH; [|exact H1]. intros j' s' Hj'. apply Hbody. right. exact Hj'.
Qed.

Lemma for_each_ok_inv (P : nat -> state volume vec clf_t -> Prop)
      (body : nat -> M volume vec clf_t unit) : forall n i s,
  P i s ->
  (forall j s, (i <= j < i + n)%nat -> P j s ->
     forall u, fst (body j s) = Ok u -> P (S j) (snd (body j s))) ->
  forall u, fst (for_each (seq i n) body s) = Ok u ->
  P (i + n)%nat (snd (for_each (seq i n) body s)).
Proof.
  induction n as [|n IH]; intros i s Hs Hbody u; simpl.
  - intros _. rewrite Nat.add_0_r. exact Hs.
  - unfold bind.
    pose proof (Hbody i s ltac:(lia) Hs) as H1.
    destruct (body i s) as [[u1|e|] s1]; simpl in H1 |- *; try discriminate.
    intros Hu. rewrite <- Nat.add_succ_comm.
    apply (IH (S i) s1 (H1 u1 eq_refl)) with (u := u); [|exact Hu].
    intros j s' Hj. apply Hbody. lia.
Qed.

Section Loop.

Variable shift : Z.
Variable labels : list Z.
Variable mask : mask_t.
Variable input_dir : string.
Variable train_count : Z.
Variable clf_obj : classifier vec clf_t.
Variable incremental_batch : Z.

#[local] Abbreviation step :=
  (on_volume preprocess_vol predict shift labels mask input_dir
             train_count clf_obj incremental_batch).
#[local] Abbreviation run :=
  (realtime_shifted preprocess_vol predict shift labels mask input_dir
                    train_count clf_obj incremental_batch).

Lemma step_calls idx s :
  exists newer,
    calls (snd (step idx s)) = newer ++ calls s /\
    Forall (sound_call preprocess_vol predict mask input_dir clf_obj idx s) newer.
Proof.
  change (wp (step idx) s (fun _ s' =>
            exists newer, calls s' = newer ++ calls s /\
                          Forall (sound_call preprocess_vol predict mask input_dir clf_obj idx s) newer)).
  pose proof (tr_watcher_frame _ _ _ (data_dir input_dir ++ file_pattern idx) s) as Hfr.
  unfold on_volume. apply wp_bind. unfold wp at 1.
  destruct (tr_watcher (data_dir input_dir ++ file_pattern idx) s)
    as [[vol|e|] s1] eqn:Hw; simpl in Hfr; simpl fst; simpl snd; cbv iota;
    unfold frame_of in Hfr; injection Hfr as _ Hcalls _ _ _ _;
    [| exists []; split; [exact Hcalls | constructor] ..].
  apply wp_bind, wp_lift.
  destruct (preprocess_vol vol mask) as [v|e|] eqn:Hpp;
    [| exists []; split; [exact Hcalls | constructor] ..].
  wp_all; simpl; rewrite Hcalls.
  all: first [ exists []; split; [reflexivity|]
             | refine (ex_intro _ [_] _); split; [reflexivity|]
             | refine (ex_intro _ [_; _] _); split; [reflexivity|]
             | refine (ex_intro _ [_; _; _] _); split; [reflexivity|] ].
  all: repeat constructor; simpl in *; try reflexivity;
    try (symmetry; assumption); try congruence.
  all: exists vol, v; rewrite Hw; repeat split; try reflexivity; assumption.
Qed.

Lemma run_preserves (P : state volume vec clf_t -> Prop) (s0 : state volume vec clf_t) :
  (forall s o, P s -> P (with_observers o s)) ->
  P (with_accuracy None (with_num_correct 0%Z (with_clf None
       (with_tr_data (repeat NaNs (length labels)) s0)))) ->
  (forall j s, (j < length labels)%nat -> P s -> P (snd (step j s))) ->
  P (snd (run s0)).
Proof.
  intros Hobs H0 Hstep.
  rewrite (run_unfold _ _ _ _ preprocess_vol predict shift labels mask input_dir
             train_count clf_obj incremental_batch s0).
  cbv zeta.
  match goal with |- context [for_each _ _ ?s1] =>
    assert (H1 : P s1) by (apply Hobs, H0);
    pose proof (for_each_preserves P step (seq 0 (length labels))
                  (fun j s Hj => Hstep j s (proj2 (proj1 (in_seq _ _ _) Hj))) s1 H1) as H2;
    destruct (for_each (seq 0 (length labels)) step s1) as [[u|e|] s2]
  end; simpl in H2 |- *; try exact H2.
  unfold or_raise. destruct (accuracy s2); simpl; apply Hobs, H2.
Qed.

Lemma run_calls_faithful (s0 : state volume vec clf_t) :
  calls s0 = [] ->
  Forall (faithful_call predict clf_obj) (calls (snd (run s0))).
Proof.
  intros H0.
  apply (run_preserves (fun s => Forall (faithful_call predict clf_obj) (calls s))).
  - intros s o H. exact H.
  - simpl. rewrite H0. constructor.
  - intros j s _ H.
    destruct (step_calls j s) as (newer & -> & Hn).
    apply Forall_app. split; [|exact H].
    apply Forall_impl with (2 := Hn).
    intros [i r|i dt l prev out|i m r out]; simpl.
    + intros (_ & vol & v & _ & _ & ->). exists v. reflexivity.
    + intros [_ H']. exact H'.
    + intros [_ H']. exact H'.
Qed.

(** *** The accuracy counts the predictions that agree with their label *)

Lemma step_counted i s u :
  counted shift labels train_count i s ->
  fst (step i s) = Ok u ->
  counted shift labels train_count (S i) (snd (step i s)).
Proof.
  intros (Hnc & Hclf & Hacc & Hpred) Hu.
  pose proof (on_volume_transition _ _ _ _ preprocess_vol predict shift labels mask
                input_dir train_count clf_obj incremental_batch i s) as Hmove.
  set (r := fst (step i s)) in *. set (s' := snd (step i s)) in *.
  clearbody r s'.
  unfold counted.
  destruct Hmove as
      [r s' Hr Hf _
      | v s' Hlt Hf
      | v s' td data lbls out Heq Htd Hdata Hlbls Hout Hf
      | v s' Hgt Hnone Hf
      | v s' m out Hgt Hm Hout Hbad Hf
      | v s' m p Hgt Hm Hp Hl Hf
      | v s' m p lbl n a Hgt Hm Hp Hl Hn Hdiv Hb Hf
      | v s' m p lbl n a td data lbls out Hgt Hm Hp Hl Hn Hdiv Hb Htd Hdata Hlbls Hout Hf];
    try discriminate;
    try (exfalso; destruct u; first [apply Hr; exact Hu | apply Hbad; exact Hu]);
    unfold frame_of in Hf; injection Hf as _ Hcalls _ Hclf' Hnc' Hacc';
    rewrite Hcalls, Hclf', Hnc', Hacc'; simpl filter.
  - (* collecting *)
    split; [exact Hnc|]. split; [exact Hclf|].
    split; [intros H; destruct (Hacc H); lia|].
    intros Ht. destruct (Hpred Ht) as [Hp _]. split; [lia | lia].
  - (* training *)
    split; [exact Hnc|]. split; [intros _; lia|].
    split; [intros H; destruct (Hacc H); lia|].
    intros Ht. destruct (Hpred Ht) as [Hp _]. split; [lia | lia].
  - (* classifying *)
    assert (Ht : (0 <= train_count)%Z) by (apply Hclf; congruence).
    destruct (Hpred Ht) as [Hp' _].
    rewrite Hl.
    assert (Hn' : n = Z.of_nat (length (if (as_label p =? lbl)%Z
                      then Predict i m (Vals v) (Ok p) ::
                             filter (is_correct shift labels) (calls s)
                      else filter (is_correct shift labels) (calls s)))).
    { rewrite Hn. destruct (as_label p =? lbl)%Z; simpl length; lia. }
    split; [exact Hn'|]. split; [intros _; exact Ht|].
    split; [intros _; lia|].
    intros _. simpl length. split; [lia|].
    intros _. replace (Z.of_nat (S i) - 1 - train_count)%Z
      with (Z.of_nat i - train_count)%Z by lia.
    symmetry. exact Hdiv.
  - (* updating *)
    assert (Ht : (0 <= train_count)%Z) by (apply Hclf; congruence).
    destruct (Hpred Ht) as [Hp' _].
    rewrite Hl.
    assert (Hn' : n = Z.of_nat (length (if (as_label p =? lbl)%Z
                      then Predict i m (Vals v) (Ok p) ::
                             filter (is_correct shift labels) (calls s)
                      else filter (is_correct shift labels) (calls s)))).
    { rewrite Hn. destruct (as_label p =? lbl)%Z; simpl length; lia. }
    split; [exact Hn'|]. split; [intros _; exact Ht|].
    split; [intros _; lia|].
    intros _. simpl length. split; [lia|].
    intros _. replace (Z.of_nat (S i) - 1 - train_count)%Z
      with (Z.of_nat i - train_count)%Z by lia.
    symmetry. exact Hdiv.
Qed.

Lemma run_counted (s0 : state volume vec clf_t) a :
  calls s0 = [] ->
  fst (run s0) = Ok a ->
  counted shift labels train_count (length labels) (snd (run s0)) /\ accuracy (snd (run s0)) = Some a.
Proof.
  intros H0.
  rewrite (run_unfold _ _ _ _ preprocess_vol predict shift labels mask input_dir
             train_count clf_obj incremental_batch s0).
  cbv zeta.
  match goal with |- context [for_each _ _ ?s1] =>
    assert (H1 : counted shift labels train_count 0 s1)
  end.
  { unfold counted.
    cbn [calls with_observers with_accuracy with_num_correct with_clf with_tr_data
         num_correct clf accuracy].
    rewrite H0. cbn [filter length].
    split; [reflexivity|]. split; [congruence|]. split; [congruence|].
    intros Ht. split; [lia | lia]. }
  match goal with |- context [for_each _ _ ?s1] =>
    pose proof (for_each_ok_inv (counted shift labels train_count) step (length labels) 0 s1 H1
                  (fun j s _ Hc u Hu => step_counted j s u Hc Hu)) as H2;
    destruct (for_each (seq 0 (length labels)) step s1) as [[u|e|] s2]
  end; simpl fst in *; simpl snd in *; cbv iota; try discriminate.
  specialize (H2 u eq_refl). simpl in H2.
  unfold or_raise. destruct (accuracy s2) as [a'|] eqn:Ea; simpl; [|discriminate].
  intros E. injection E as <-.
  split; [|exact Ea].
  destruct H2 as (Hnc & Hclf & Hacc & Hpred).
  unfold counted.
  cbn [calls with_observers num_correct clf accuracy].
  split; [exact Hnc|]. split; [exact Hclf|]. split; [exact Hacc | exact Hpred].
Qed.

End Loop.

(** X10: The accuracy that a call returns is the number of predictions that
    agree with the label [tr_shift] volumes back, divided by the number of
    predictions; there is one prediction for each volume past
    [train_count]. *)
Theorem accuracy_is_share_of_correct
        labels mask input_dir train_count clf_obj incremental_batch d q obs a :
  let run := realtime preprocess_vol predict labels mask input_dir train_count
                      clf_obj incremental_batch (boot d q obs) in
  let cs := calls (snd run) in
  fst run = Ok a ->
  (0 <= train_count)%Z /\
  Z.of_nat (length (filter is_predict cs)) =
    (Z.of_nat (length labels) - 1 - train_count)%Z /\
  (0 < length (filter is_predict cs))%nat /\
  Py.truediv (Z.of_nat (length (filter (is_correct tr_shift labels) cs)))
             (Z.of_nat (length (filter is_predict cs))) = Some a.
Proof.
  intros run cs Hr.
  destruct (run_counted tr_shift labels mask input_dir train_count clf_obj
              incremental_batch (boot d q obs) a eq_refl Hr)
    as [(Hnc & _ & Hacc & Hpred) Ha].
  fold (realtime preprocess_vol predict labels mask input_dir train_count clf_obj
                 incremental_batch) in Hnc, Hacc, Hpred, Ha.
  fold run in Hnc, Hacc, Hpred, Ha. fold cs in Hnc, Hpred.
  destruct Hacc as [Ht Hn]; [congruence|].
  destruct (Hpred Ht) as [Hp Hdiv]. specialize (Hdiv Hn).
  split; [exact Ht|]. split; [lia|]. split; [lia|].
  rewrite <- Hnc, <- Ha, Hdiv. f_equal. lia.
Qed.

(** *** Volumes that are all on disk *)

Lemma tr_watcher_complete filename (s : state volume vec clf_t) c :
  lookup filename (disk s) = Some (File 0 c) ->
  tr_watcher filename s = (Ok c, s).
Proof.
  intros H. unfold tr_watcher, bind, os_path_exists, get, ret, np_load.
  rewrite H. simpl. rewrite H. reflexivity.
Qed.

Lemma row_at_stored (cs : list (call vec clf_t)) j :
  In j (stored_idxs cs) -> exists r, In (Stored j r) cs /\ row_at cs j = r.
Proof.
  induction cs as [|[i r|i dt l prev out|i m r out] cs IH]; simpl; [tauto | | |].
  - destruct (Nat.eqb i j) eqn:E.
    + intros _. apply Nat.eqb_eq in E. subst i. exists r. split; [left|]; reflexivity.
    + intros [H|H]; [apply Nat.eqb_neq in E; contradiction|].
      destruct (IH H) as (r' & Hin & Hr). exists r'. split; [right|]; assumption.
  - intros H. destruct (IH H) as (r' & Hin & Hr). exists r'. split; [right|]; assumption.
  - intros H. destruct (IH H) as (r' & Hin & Hr). exists r'. split; [right|]; assumption.
Qed.

Lemma row_at_not_stored (cs : list (call vec clf_t)) j :
  ~ In j (stored_idxs cs) -> row_at cs j = NaNs.
Proof.
  induction cs as [|[i r|i dt l prev out|i m r out] cs IH]; simpl; auto.
  intros H. destruct (Nat.eqb i j) eqn:E.
  - apply Nat.eqb_eq in E. tauto.
  - apply IH. tauto.
Qed.

Lemma nth_error_table n (cs : list (call vec clf_t)) j :
  (j < n)%nat -> nth_error (table n cs) j = Some (row_at cs j).
Proof.
  intros H. unfold table.
  rewrite nth_error_map, nth_error_nth' with (d := 0%nat) by (rewrite length_seq; exact H).
  rewrite seq_nth by exact H. reflexivity.
Qed.

(** With the volumes all on disk, a call leaves the disk and the queue
    alone, and a row that it stores is the preprocessed volume of its
    index. *)
Lemma run_on_disk labels mask input_dir train_count clf_obj incremental_batch d q obs
      (vol : nat -> volume) :
  let s' := snd (realtime preprocess_vol predict labels mask input_dir train_count
                          clf_obj incremental_batch (boot d q obs)) in
  (forall j, (j < length labels)%nat ->
     lookup (data_dir input_dir ++ file_pattern j)%string d = Some (File 0 (vol j))) ->
  world_of s' = (d, q) /\
  forall j r, In (Stored j r) (calls s') ->
    exists v, preprocess_vol (vol j) mask = Ok v /\ r = Vals v.
Proof.
  intros s' Hd.
  set (P := fun s : state volume vec clf_t =>
              world_of s = (d, q) /\
              forall j r, In (Stored j r) (calls s) ->
                exists v, preprocess_vol (vol j) mask = Ok v /\ r = Vals v).
  apply (run_preserves tr_shift labels mask input_dir train_count clf_obj
           incremental_batch P).
  - intros s o H. exact H.
  - split; [reflexivity | simpl; tauto].
  - intros j s Hj [Hw Hs].
    assert (Hdisk : disk s = d) by (unfold world_of in Hw; congruence).
    pose proof (tr_watcher_complete (data_dir input_dir ++ file_pattern j) s (vol j))
      as Hwat.
    rewrite Hdisk in Hwat. specialize (Hwat (Hd j Hj)).
    split.
    + rewrite (step_world _ _ _ _ preprocess_vol predict tr_shift labels mask
                 input_dir train_count clf_obj incremental_batch j s).
      rewrite Hwat. exact Hw.
    + destruct (step_calls tr_shift labels mask input_dir train_count clf_obj
                  incremental_batch j s) as (newer & -> & Hn).
      intros i r Hin. apply in_app_or in Hin. destruct Hin as [Hin|Hin];
        [|apply Hs, Hin].
      rewrite Forall_forall in Hn. specialize (Hn _ Hin). simpl in Hn.
      destruct Hn as (-> & vol0 & v & Hv & Hpp & ->).
      rewrite Hwat in Hv. simpl in Hv. injection Hv as <-.
      exists v. split; [exact Hpp | reflexivity].
Qed.

(** X11: When the volumes are all on disk and completely written, a call
    reads no event and leaves the disk as it is; the rows of [tr_data] up
    to the volume at which the call has stopped hold the preprocessed
    volumes, in the order of the indices, and the rows behind are still
    NaNs; a call that returns has filled every row. *)
Theorem rows_are_preprocessed_volumes
        labels mask input_dir train_count clf_obj incremental_batch d q obs
        (vol : nat -> volume) :
  let run := realtime preprocess_vol predict labels mask input_dir train_count
                      clf_obj incremental_batch (boot d q obs) in
  let s' := snd run in
  (forall j, (j < length labels)%nat ->
     lookup (data_dir input_dir ++ file_pattern j)%string d = Some (File 0 (vol j))) ->
  disk s' = d /\
  file_queue s' = q /\
  exists k, (k <= length labels)%nat /\
    (forall j, (j < k)%nat ->
       exists v, preprocess_vol (vol j) mask = Ok v /\
                 nth_error (tr_data s') j = Some (Vals v)) /\
    (forall j, (k <= j < length labels)%nat ->
       nth_error (tr_data s') j = Some NaNs) /\
    (forall a, fst run = Ok a -> k = length labels).
Proof.
  intros run s' Hd.
  pose proof (run_on_disk labels mask input_dir train_count clf_obj incremental_batch
                d q obs vol Hd) as HP.
  cbv zeta in HP. fold run in HP. fold s' in HP.
  destruct HP as [Hw Hs]. unfold world_of in Hw. injection Hw as Hdk Hq.
  split; [exact Hdk|]. split; [exact Hq|].
  destruct (run_final _ _ _ _ preprocess_vol predict tr_shift labels mask input_dir
                      train_count clf_obj incremental_batch (boot d q obs) eq_refl)
    as (obs' & k & (_ & _ & Htd & _) & Hk & Hidx).
  fold (realtime preprocess_vol predict labels mask input_dir train_count clf_obj
                 incremental_batch) in Htd, Hidx.
  fold run in Htd, Hidx. fold s' in Htd, Hidx.
  exists k. split; [exact Hk|]. split; [|split].
  - intros j Hj.
    assert (Hin : In j (stored_idxs (calls s')))
      by (rewrite Hidx; apply -> in_rev; apply in_seq; lia).
    destruct (row_at_stored _ _ Hin) as (r & Hr & Hrow).
    destruct (Hs j r Hr) as (v & Hpp & ->).
    exists v. split; [exact Hpp|].
    rewrite Htd, nth_error_table by lia. rewrite Hrow. reflexivity.
  - intros j Hj. rewrite Htd, nth_error_table by lia.
    rewrite row_at_not_stored; [reflexivity|].
    rewrite Hidx. intros H. apply in_rev, in_seq in H. lia.
  - intros a Ha.
    destruct (realtime_outcome _ _ _ _ preprocess_vol predict tr_shift labels mask
                input_dir train_count clf_obj incremental_batch (boot d q obs) eq_refl)
      as [(a' & _ & _ & _ & Hst & _) | [(Hr & _) | (Hr & _)]].
    + fold (realtime preprocess_vol predict labels mask input_dir train_count clf_obj
                     incremental_batch) in Hst.
      fold run in Hst. fold s' in Hst. rewrite Hidx in Hst.
      apply (f_equal (@length nat)) in Hst.
      rewrite !length_rev, !length_seq in Hst. exact Hst.
    + fold (realtime preprocess_vol predict labels mask input_dir train_count clf_obj
                     incremental_batch) in Hr.
      fold run in Hr. congruence.
    + exfalso. apply (Hr a Ha).
Qed.

(** ** The trainers in the loop *)

(** X12: Fitting on [labels == 2] and adding 1 to a boolean prediction are
    inverse to one another on the labels 1 and 2, and on no other label:
    any other label comes back as 1. *)
Theorem logistic_labels_round_trip (labels : list Z) :
  (map as_label (map PBool (is_state_2 labels)) = labels <->
   Forall (fun l => l = 1%Z \/ l = 2%Z) labels) /\
  Forall (fun l => l = 1%Z \/ l = 2%Z)
         (map as_label (map PBool (is_state_2 labels))).
Proof.
  unfold is_state_2. rewrite !map_map. split; [split|].
  - intros H. induction labels as [|l labels IH]; [constructor|].
    cbn [map] in H. injection H as Hl Hrest.
    constructor; [|apply IH, Hrest].
    destruct (l =? 2)%Z eqn:E; simpl in Hl; [right | left]; lia.
  - intros H. induction H as [|l labels Hl _ IH]; [reflexivity|].
    cbn [map]. rewrite IH. f_equal.
    destruct Hl as [-> | ->]; reflexivity.
  - induction labels as [|l labels IH]; cbn [map]; constructor; [|exact IH].
    destruct (l =? 2)%Z; simpl; [right | left]; reflexivity.
Qed.

Section Trained.

Variable LogisticRegression_fit :
  penalty clf_t -> list (row vec) -> list bool -> result clf_t.
Variable SGDClassifier : clf_t.
Variable partial_fit :
  clf_t -> list (row vec) -> list Z -> list Z -> result clf_t.

(** X13: In a call with [train_logistic], the first fit builds its model with
    the penalty ['l2'], and an incremental update hands the current model
    to [LogisticRegression] as its penalty; both fit on the booleans
    [labels == 2]. *)
Theorem logistic_update_takes_model_as_penalty
        labels mask input_dir train_count incremental_batch d q obs :
  let cs := calls (snd (realtime preprocess_vol predict labels mask input_dir
                                 train_count (train_logistic LogisticRegression_fit)
                                 incremental_batch (boot d q obs))) in
  (forall idx data lbls out, In (Train idx data lbls None out) cs ->
     out = LogisticRegression_fit (penalty_name clf_t "l2") data (is_state_2 lbls)) /\
  (forall idx data lbls m out, In (Train idx data lbls (Some m) out) cs ->
     out = LogisticRegression_fit (penalty_object m) data (is_state_2 lbls) /\
     exists r p, In (Predict idx m r (Ok p)) cs).
Proof.
  intros cs.
  pose proof (run_calls_faithful tr_shift labels mask input_dir train_count
                (train_logistic LogisticRegression_fit) incremental_batch
                (boot d q obs) eq_refl) as Hf.
  destruct (run_final _ _ _ _ preprocess_vol predict tr_shift labels mask input_dir
                      train_count (train_logistic LogisticRegression_fit)
                      incremental_batch (boot d q obs) eq_refl)
    as (obs' & k & (_ & Hh & _) & _).
  fold (realtime preprocess_vol predict labels mask input_dir train_count
                 (train_logistic LogisticRegression_fit) incremental_batch) in Hf, Hh.
  fold cs in Hf, Hh.
  rewrite Forall_forall in Hf.
  split.
  - intros idx data lbls out Hin. exact (Hf _ Hin).
  - intros idx data lbls m out Hin. split; [exact (Hf _ Hin)|].
    destruct (hist_ok_in _ _ _ _ _ _ _ _ Hh Hin) as (newer & older & E & Hok & _).
    simpl in Hok. destruct Hok as (_ & _ & _ & (r & p & older' & ->) & _).
    exists r, p. rewrite E. apply in_or_app. right. right. left. reflexivity.
Qed.

Lemma training_batches_cons (c : call vec clf_t) cs :
  training_batches (c :: cs) =
  training_batches cs ++
    match c with
    | Train _ data lbls _ _ => [(data, lbls)]
    | _ => []
    end.
Proof.
  unfold training_batches. simpl rev. rewrite flat_map_app. simpl.
  rewrite app_nil_r. reflexivity.
Qed.

Lemma replay_snoc batches batch :
  replay SGDClassifier partial_fit (batches ++ [batch]) =
  match replay SGDClassifier partial_fit batches with
  | Ok c => partial_fit c (fst batch) (snd batch) all_classes
  | failed => failed
  end.
Proof.
  unfold replay. rewrite fold_left_app. simpl.
  destruct (fold_left _ batches (Ok SGDClassifier)); reflexivity.
Qed.

Lemma step_replayed labels mask input_dir train_count incremental_batch i s u :
  replayed SGDClassifier partial_fit s ->
  ((Z.of_nat i <= train_count)%Z -> clf s = None) ->
  fst (on_volume preprocess_vol predict tr_shift labels mask input_dir train_count
                 (train_incremental SGDClassifier partial_fit) incremental_batch i s)
    = Ok u ->
  replayed SGDClassifier partial_fit (snd (on_volume preprocess_vol predict tr_shift labels mask input_dir
                           train_count (train_incremental SGDClassifier partial_fit)
                           incremental_batch i s)).
Proof.
  intros [Hrep Hacc] Hnone Hu.
  pose proof (on_volume_transition _ _ _ _ preprocess_vol predict tr_shift labels mask
                input_dir train_count (train_incremental SGDClassifier partial_fit)
                incremental_batch i s) as Hmove.
  match type of Hu with fst ?x = _ =>
    set (r := fst x) in *; set (s' := snd x) in * end.
  clearbody r s'.
  unfold replayed.
  destruct Hmove as
      [r s' Hr Hf _
      | v s' Hlt Hf
      | v s' td data lbls out Heq Htd Hdata Hlbls Hout Hf
      | v s' Hgt Hnone' Hf
      | v s' m out Hgt Hm Hout Hbad Hf
      | v s' m p Hgt Hm Hp Hl Hf
      | v s' m p lbl n a Hgt Hm Hp Hl Hn Hdiv Hb Hf
      | v s' m p lbl n a td data lbls out Hgt Hm Hp Hl Hn Hdiv Hb Htd Hdata Hlbls Hout Hf];
    try discriminate;
    try (exfalso; destruct u; first [apply Hr; exact Hu | apply Hbad; exact Hu]);
    unfold frame_of in Hf; injection Hf as _ Hcalls _ Hclf' _ Hacc';
    rewrite Hcalls, Hclf', Hacc'; rewrite !training_batches_cons, ?app_nil_r.
  - split; [exact Hrep | exact Hacc].
  - destruct out as [m|e|]; try discriminate.
    split; [|congruence].
    rewrite replay_snoc. rewrite Hnone in Hrep by lia. rewrite Hrep.
    unfold replay. simpl fold_left. cbv iota. simpl fst. simpl snd.
    rewrite Hout. reflexivity.
  - rewrite Hm in Hrep |- *. split; [exact Hrep | congruence].
  - rewrite Hm in Hrep. destruct out as [m'|e|]; try discriminate.
    split; [|congruence].
    rewrite replay_snoc, Hrep. simpl fst. simpl snd.
    rewrite Hout. reflexivity.
Qed.

(** X14: In a call with [train_incremental] that returns, the model bound to
    [clf] at the end is a fresh [SGDClassifier] taken through one
    [partial_fit] for each training call, the first fit and then the
    updates in their order, each on its own batch and with the classes 1
    and 2. *)
Theorem incremental_model_replays_batches
        labels mask input_dir train_count incremental_batch d q obs a :
  let run := realtime preprocess_vol predict labels mask input_dir train_count
                      (train_incremental SGDClassifier partial_fit)
                      incremental_batch (boot d q obs) in
  fst run = Ok a ->
  exists m,
    clf (snd run) = Some m /\
    replay SGDClassifier partial_fit (training_batches (calls (snd run))) = Ok m.
Proof.
  intros run. unfold run, realtime.
  rewrite (run_unfold _ _ _ _ preprocess_vol predict tr_shift labels mask input_dir
             train_count (train_incremental SGDClassifier partial_fit)
             incremental_batch (boot d q obs)).
  cbv zeta.
  set (P := fun (i : nat) (s : state volume vec clf_t) =>
              (i <= length labels)%nat /\
              loop_inv tr_shift labels train_count incremental_batch
                       (obs ++ [true]) i s /\
              replayed SGDClassifier partial_fit s).
  match goal with |- context [for_each _ ?body ?s1] =>
    assert (H1 : P 0%nat s1);
    [| pose proof (for_each_ok_inv P body (length labels) 0 s1 H1) as H2;
       destruct (for_each (seq 0 (length labels)) body s1) as [[u|e|] s2] ]
  end; simpl fst in *; simpl snd in *; cbv iota; try discriminate.
  - split; [lia|]. split.
    + exact (prelude_inv _ _ _ tr_shift labels train_count incremental_batch
                         (boot d q obs) eq_refl).
    + split; simpl; [reflexivity | congruence].
  - assert (H3 : P (length labels) s2).
    { apply (fun Hstep => H2 Hstep u eq_refl).
      intros j s Hj (_ & Hinv & Hrep) u' Hu'.
      split; [lia|]. split.
      - pose proof (step_inv _ _ _ _ preprocess_vol predict tr_shift labels mask
                      input_dir train_count
                      (train_incremental SGDClassifier partial_fit)
                      incremental_batch (obs ++ [true]) j s _ _ ltac:(lia) Hinv
                      (on_volume_transition _ _ _ _ preprocess_vol predict tr_shift
                         labels mask input_dir train_count
                         (train_incremental SGDClassifier partial_fit)
                         incremental_batch j s)) as Hs.
        rewrite Hu' in Hs. exact Hs.
      - apply (step_replayed labels mask input_dir train_count incremental_batch
                 j s u' Hrep); [|exact Hu'].
        intros Hle.
        destruct Hinv as ((_ & Hh & _ & Hclf & _) & Hst & _).
        rewrite Hclf.
        exact (proj2 (untrained_before _ _ tr_shift labels train_count
                        incremental_batch (calls s) j Hh Hst Hle)). }
    destruct H3 as (_ & _ & Hrep & Hacc).
    unfold or_raise. destruct (accuracy s2) as [a'|] eqn:Ea; simpl; [|discriminate].
    intros _.
    destruct (clf s2) as [m|] eqn:Em; [|exfalso; apply Hacc; congruence].
    exists m. split; [reflexivity | exact Hrep].
Qed.

End Trained.

(** ** The cells before [realtime] *)

Lemma for_each_total (P : nat -> state volume vec clf_t -> Prop)
      (body : nat -> M volume vec clf_t unit) : forall n i s,
  P i s ->
  (forall j s, (i <= j < i + n)%nat -> P j s ->
     fst (body j s) = Ok tt /\ P (S j) (snd (body j s))) ->
  fst (for_each (seq i n) body s) = Ok tt /\
  P (i + n)%nat (snd (for_each (seq i n) body s)).
Proof.
  induction n as [|n IH]; intros i s Hs Hbody; simpl.
  - rewrite Nat.add_0_r. split; [reflexivity | exact Hs].
  - unfold bind.
    destruct (Hbody i s ltac:(lia) Hs) as [H1 H2].
    destruct (body i s) as [r s1]. simpl in H1, H2. subst r.
    rewrite <- Nat.add_succ_comm.
    apply (IH (S i) s1 H2). intros j s' Hj. apply Hbody. lia.
Qed.

Lemma replace_nth_middle {A} (l1 : list A) y l2 x n :
  n = length l1 -> Py.replace_nth (l1 ++ y :: l2) n x = l1 ++ x :: l2.
Proof.
  intros ->. induction l1 as [|a l1 IH]; simpl; [reflexivity | rewrite IH; reflexivity].
Qed.

Section CellFacts.

Variable LogisticRegression_fit :
  penalty clf_t -> list (row vec) -> list bool -> result clf_t.

Lemma preprocess_cell_run mask data_dir (t : nat) d q obs
      (vol : nat -> volume) (pv : nat -> vec) :
  (forall j, (j < t)%nat ->
     lookup (data_dir ++ file_pattern j)%string d = Some (File 0 (vol j))) ->
  (forall j, (j < t)%nat -> preprocess_vol (vol j) mask = Ok (pv j)) ->
  let out := preprocess_cell preprocess_vol mask data_dir t
                             (boot (vec:=vec) (clf_t:=clf_t) d q obs) in
  fst out = Ok tt /\
  tr_data (snd out) = map (fun j => Vals (pv j)) (seq 0 t) /\
  observers (snd out) = obs ++ [false] /\
  world_of (snd out) = (d, q) /\
  clf (snd out) = None.
Proof.
  intros Hd Hpp out.
  cut (exists s2, out = (Ok tt, s2) /\
                  tr_data s2 = map (fun j => Vals (pv j)) (seq 0 t) /\
                  observers s2 = obs ++ [false] /\
                  world_of s2 = (d, q) /\ clf s2 = None).
  { intros (s2 & -> & H). exact (conj eq_refl H). }
  subst out. unfold preprocess_cell.
  unfold bind at 1. unfold modify at 1. cbv iota.
  unfold bind at 1. unfold Observer at 1. cbv iota.
  unfold bind at 1. unfold observer_start at 1. unfold modify at 1. cbv iota.
  cbn [boot observers with_observers with_tr_data disk file_queue calls tr_data clf
       num_correct accuracy length].
  rewrite replace_nth_last.
  set (P := fun (i : nat) (s : state volume vec clf_t) =>
              world_of s = (d, q) /\ observers s = obs ++ [true] /\
              tr_data s = filled pv t i /\ clf s = None).
  unfold bind at 1.
  match goal with |- context [for_each _ ?body ?s1] =>
    destruct (for_each_total P body t 0 s1) as [H1 H2];
    [| | destruct (for_each (seq 0 t) body s1) as [r s2] ]
  end.
  - unfold P, filled. simpl. rewrite Nat.sub_0_r. repeat split; reflexivity.
  - intros j s Hj (Hw & Hobs & Htd & Hclf).
    assert (Hdisk : disk s = d) by (unfold world_of in Hw; congruence).
    assert (Hlen : length (tr_data s) = t).
    { rewrite Htd. unfold filled.
      rewrite length_app, length_map, length_seq, repeat_length. lia. }
    match goal with |- fst ?x = _ /\ _ => set (y := x) end.
    assert (E : y = (Ok tt,
                     with_calls (Stored j (Vals (pv j)) :: calls s)
                       (with_tr_data (Py.replace_nth (tr_data s) j (Vals (pv j))) s))).
    { unfold y. cbv beta. unfold bind at 1.
      rewrite (tr_watcher_complete (data_dir ++ file_pattern j) s (vol j))
        by (rewrite Hdisk; apply Hd; lia).
      cbv iota. unfold bind at 1. unfold lift at 1. rewrite Hpp by lia. cbv iota.
      unfold store_row, bind, get, or_raise, Py.setitem, Py.len, record, modify, ret.
      rewrite Hlen, (position_nat t j) by lia. reflexivity. }
    rewrite E. simpl fst. simpl snd. split; [reflexivity|].
    unfold P. simpl. split; [exact Hw|]. split; [exact Hobs|]. split; [|exact Hclf].
    rewrite Htd. unfold filled.
    replace (t - j)%nat with (S (t - S j)) by lia. simpl repeat.
    rewrite replace_nth_middle by (rewrite length_map, length_seq; reflexivity).
    rewrite seq_S, map_app, <- app_assoc. reflexivity.
  - simpl in H1, H2. subst r. cbv iota.
    destruct H2 as (Hw & Hobs & Htd & Hclf).
    unfold observer_stop, modify. eexists. split; [reflexivity|]. simpl.
    rewrite Hobs, replace_nth_last.
    split; [|split; [reflexivity | split; [exact Hw | exact Hclf]]].
    rewrite Htd. unfold filled. rewrite Nat.sub_diag. simpl. apply app_nil_r.
Qed.

(** X15: With the training volumes on disk and preprocessed without a
    failure, the preprocessing cell returns, has filled the [train_count]
    rows of [tr_data] with the preprocessed volumes in the order of the
    indices, has stopped the observer it started, and has read no event. *)
Theorem preprocess_cell_fills_rows mask data_dir (t : nat) d q obs
        (vol : nat -> volume) (pv : nat -> vec) :
  (forall j, (j < t)%nat ->
     lookup (data_dir ++ file_pattern j)%string d = Some (File 0 (vol j))) ->
  (forall j, (j < t)%nat -> preprocess_vol (vol j) mask = Ok (pv j)) ->
  let out := preprocess_cell preprocess_vol mask data_dir t
                             (boot (vec:=vec) (clf_t:=clf_t) d q obs) in
  fst out = Ok tt /\
  tr_data (snd out) = map (fun j => Vals (pv j)) (seq 0 t) /\
  observers (snd out) = obs ++ [false] /\
  disk (snd out) = d /\
  file_queue (snd out) = q.
Proof.
  intros Hd Hpp out.
  destruct (preprocess_cell_run mask data_dir t d q obs vol pv Hd Hpp)
    as (H1 & H2 & H3 & H4 & _).
  fold out in H1, H2, H3, H4. unfold world_of in H4. injection H4 as H4 H5.
  repeat split; assumption.
Qed.

(** X16: The cells that preprocess the training volumes and then fit the
    model hand [train_logistic] what [realtime] hands it at volume
    [train_count]: with the volumes on disk, the outcome of the fit of the
    cells is the outcome of the first fit of a call of [realtime] with the
    same [train_count]. *)
Theorem offline_fit_is_realtime_fit
        labels mask input_dir (t : nat) incremental_batch d q obs
        (vol : nat -> volume) (pv : nat -> vec) :
  let offline :=
    bind (preprocess_cell preprocess_vol mask (data_dir input_dir) t)
         (fun _ => fit_cell LogisticRegression_fit labels t)
         (boot d q obs) in
  let cs := calls (snd (realtime preprocess_vol predict labels mask input_dir
                                 (Z.of_nat t) (train_logistic LogisticRegression_fit)
                                 incremental_batch (boot d q obs))) in
  (forall j, (j < length labels)%nat ->
     lookup (data_dir input_dir ++ file_pattern j)%string d = Some (File 0 (vol j))) ->
  (forall j, (j < t)%nat -> preprocess_vol (vol j) mask = Ok (pv j)) ->
  (t < length labels)%nat ->
  fst offline =
    train_logistic LogisticRegression_fit
      (map (fun j => Vals (pv j)) (seq 3 (t - 3)))
      (Py.slice labels 0 (Z.of_nat t - 3)) None /\
  (In t (stored_idxs cs) ->
   exists data lbls, filter is_fit cs = [Train t data lbls None (fst offline)]).
Proof.
  intros offline cs Hd Hpp Ht.
  assert (Hoff : fst offline =
            train_logistic LogisticRegression_fit
              (map (fun j => Vals (pv j)) (seq 3 (t - 3)))
              (Py.slice labels 0 (Z.of_nat t - 3)) None).
  { subst offline. unfold bind at 1.
    destruct (preprocess_cell_run mask (data_dir input_dir) t d q obs vol pv
                (fun j Hj => Hd j ltac:(lia)) Hpp) as (H1 & H2 & _).
    destruct (preprocess_cell preprocess_vol mask (data_dir input_dir) t (boot d q obs))
      as [r s1]. simpl in H1, H2. subst r. cbv iota.
    unfold fit_cell, bind, get, lift. rewrite H2. cbv zeta.
    assert (E : Py.slice (map (fun j => Vals (pv j)) (seq 0 t)) tr_shift
                         (Z.of_nat t) =
                map (fun j => Vals (pv j)) (seq 3 (t - 3))).
    { unfold tr_shift. destruct (Nat.le_gt_cases t 3) as [Hle|Hgt].
      - rewrite slice_backwards by lia.
        replace (t - 3)%nat with 0%nat by lia. reflexivity.
      - change 3%Z with (Z.of_nat 3). apply slice_map_seq. lia. }
    rewrite E. unfold tr_shift.
    destruct (train_logistic LogisticRegression_fit _ _ None); reflexivity. }
  split; [exact Hoff|].
  intros Hst. rewrite Hoff.
  pose proof (run_calls_faithful tr_shift labels mask input_dir (Z.of_nat t)
                (train_logistic LogisticRegression_fit) incremental_batch
                (boot d q obs) eq_refl) as Hf.
  destruct (run_final _ _ _ _ preprocess_vol predict tr_shift labels mask input_dir
                      (Z.of_nat t) (train_logistic LogisticRegression_fit)
                      incremental_batch (boot d q obs) eq_refl)
    as (obs' & k & (_ & Hh & _ & _ & _ & Hset) & Hk & Hidx).
  destruct (run_on_disk labels mask input_dir (Z.of_nat t)
              (train_logistic LogisticRegression_fit) incremental_batch d q obs vol Hd)
    as [_ Hrows].
  fold (realtime preprocess_vol predict labels mask input_dir (Z.of_nat t)
                 (train_logistic LogisticRegression_fit) incremental_batch)
    in Hf, Hh, Hset, Hidx.
  fold cs in Hf, Hh, Hset, Hidx, Hrows.
  destruct (idx_stored _ _ _ _ Hst) as [r Hr].
  destruct (proj1 Hset t r Hr eq_refl) as (data & lbls & out & Hin).
  exists data, lbls.
  assert (Hone := at_most_one_fit _ _ _ _ _ _ _ Hh).
  assert (F : In (Train t data lbls None out) (filter is_fit cs))
    by (apply filter_In; split; [exact Hin | reflexivity]).
  rewrite (singleton_of_short _ _ Hone F). f_equal. f_equal.
  rewrite Forall_forall in Hf. rewrite (Hf _ Hin : out = _).
  destruct (hist_ok_in _ _ _ _ _ _ _ _ Hh Hin) as (newer & older & E & Hok & Hold).
  simpl in Hok.
  destruct Hok as (_ & (r0 & older' & ->) & _ & _ & -> & ->).
  destruct Hold as [Hst0 _]. simpl in Hst0.
  f_equal.
  unfold tr_shift, table. destruct (Nat.le_gt_cases t 3) as [Hle|Hgt].
  - rewrite slice_backwards by lia.
    replace (t - 3)%nat with 0%nat by lia. reflexivity.
  - change 3%Z with (Z.of_nat 3).
    rewrite (slice_map_seq _ (length labels) 3 t) by lia.
    apply map_ext_in. intros j Hj. apply in_seq in Hj.
    assert (Hjin : In j (stored_idxs (Stored (clf_t:=clf_t) t r0 :: older'))).
    { simpl. right. rewrite Hst0. apply -> in_rev. apply in_seq. lia. }
    destruct (row_at_stored _ _ Hjin) as (rj & Hrj & ->).
    assert (Hcs : In (Stored j rj) cs).
    { rewrite E. apply in_or_app. right. right. exact Hrj. }
    destruct (Hrows j rj Hcs) as (v & Hv & ->).
    rewrite Hpp in Hv by lia. injection Hv as <-. reflexivity.
Qed.

End CellFacts.

(** ** A volume that never comes *)

Lemma await_event_shape filename : forall q (d : list (string * file volume)),
  exists taken,
    q = taken ++ snd (await_event filename d q) /\
    snd (fst (await_event filename d q)) =
      rev (map (fun e => (src_path e, created e)) taken) ++ d.
Proof.
  induction q as [|e q IH]; intros d; simpl; [exists []; split; reflexivity|].
  destruct (String.eqb (src_path e) filename).
  - exists [e]. split; reflexivity.
  - destruct (IH ((src_path e, created e) :: d)) as (taken & H1 & H2).
    exists (e :: taken). simpl. rewrite <- H1, H2, <- app_assoc. split; reflexivity.
Qed.

Lemma lookup_app_none name (d1 d2 : list (string * file volume)) :
  lookup name d1 = None -> lookup name d2 = None -> lookup name (d1 ++ d2) = None.
Proof.
  induction d1 as [|[n f] d1 IH]; simpl; [tauto|].
  destruct (String.eqb n name); [discriminate | exact IH].
Qed.

Lemma np_load_never_comes name filename (s : state volume vec clf_t) :
  never_comes name s -> never_comes name (snd (np_load filename s)).
Proof.
  intros [Hd Hq]. unfold np_load.
  destruct (lookup filename (disk s)) as [[[|k] c]|] eqn:E; simpl;
    try (split; assumption).
  split; [|exact Hq]. simpl.
  destruct (String.eqb filename name) eqn:En; [|exact Hd].
  apply String.eqb_eq in En. congruence.
Qed.

Lemma tr_watcher_never_comes name filename (s : state volume vec clf_t) :
  never_comes name s -> never_comes name (snd (tr_watcher filename s)).
Proof.
  intros [Hd Hq].
  unfold tr_watcher, bind, os_path_exists, get, wait_for_event, ret.
  destruct (lookup filename (disk s)) as [f|] eqn:E.
  - pose proof (np_load_never_comes name filename s (conj Hd Hq)) as H.
    destruct (np_load filename s) as [[v|e|] s1]; exact H.
  - destruct (await_event_shape filename (file_queue s) (disk s)) as (taken & H1 & H2).
    assert (Hn : never_comes name
              (with_file_queue (snd (await_event filename (disk s) (file_queue s)))
                 (with_disk (snd (fst (await_event filename (disk s) (file_queue s))))
                            s))).
    { split; simpl.
      - rewrite H2. apply lookup_app_none; [|exact Hd].
        apply lookup_absent. rewrite map_rev, map_map. simpl.
        intros H. apply in_rev, in_map_iff in H. destruct H as (e & He & Hin).
        apply (Hq e); [|exact He]. rewrite H1. apply in_or_app. left. exact Hin.
      - intros e He. apply Hq. rewrite H1. apply in_or_app. right. exact He. }
    destruct (await_event filename (disk s) (file_queue s)) as [[[|] d'] q'];
      simpl in Hn |- *; [|exact Hn].
    pose proof (np_load_never_comes name filename _ Hn) as H.
    match goal with |- context [np_load filename ?t] =>
      destruct (np_load filename t) as [[v|e|] s1] end; exact H.
Qed.

Lemma tr_watcher_waits name (s : state volume vec clf_t) :
  never_comes name s -> fst (tr_watcher name s) = Blocked.
Proof.
  intros [Hd Hq].
  unfold tr_watcher, bind, os_path_exists, get, wait_for_event, ret.
  rewrite Hd, (await_event_none _ name (file_queue s) (disk s) Hq). reflexivity.
Qed.

(** X17: A call of [realtime] has no time limit: when one of the volumes is
    neither on disk nor announced in the queue, the call returns no value,
    it does not store the volume, and the observer it has started is left
    running. *)
Theorem realtime_waits_for_missing_volume
        labels mask input_dir train_count clf_obj incremental_batch d q obs (j : nat) :
  let run := realtime preprocess_vol predict labels mask input_dir train_count
                      clf_obj incremental_batch (boot d q obs) in
  (j < length labels)%nat ->
  lookup (data_dir input_dir ++ file_pattern j)%string d = None ->
  (forall e, In e q -> src_path e <> (data_dir input_dir ++ file_pattern j)%string) ->
  (forall a, fst run <> Ok a) /\
  ~ In j (stored_idxs (calls (snd run))) /\
  observers (snd run) = obs ++ [true].
Proof.
  intros run Hj Hd Hq.
  set (name := (data_dir input_dir ++ file_pattern j)%string) in *.
  set (P := fun s : state volume vec clf_t =>
              never_comes name s /\ ~ In j (stored_idxs (calls s))).
  assert (HP : P (snd run)).
  { apply (run_preserves tr_shift labels mask input_dir train_count clf_obj
             incremental_batch P).
    - intros s o H. exact H.
    - split; [split; [exact Hd | exact Hq] | simpl; tauto].
    - intros i s _ [Hn Hs]. split.
      + pose proof (step_world _ _ _ _ preprocess_vol predict tr_shift labels mask
                      input_dir train_count clf_obj incremental_batch i s) as Hw.
        pose proof (tr_watcher_never_comes name (data_dir input_dir ++ file_pattern i)
                      s Hn) as [H1 H2].
        unfold world_of in Hw. injection Hw as Hw1 Hw2.
        split; [rewrite Hw1; exact H1 | rewrite Hw2; exact H2].
      + destruct (step_calls tr_shift labels mask input_dir train_count clf_obj
                    incremental_batch i s) as (newer & -> & Hnew).
        rewrite stored_idxs_app. intros H. apply in_app_or in H.
        destruct H as [H|H]; [|exact (Hs H)].
        destruct (idx_stored _ _ _ _ H) as [r Hr].
        rewrite Forall_forall in Hnew. specialize (Hnew _ Hr). simpl in Hnew.
        destruct Hnew as (-> & vol & v & Hv & _).
        fold name in Hv. rewrite (tr_watcher_waits name s Hn) in Hv. discriminate. }
  destruct HP as [_ Hns].
  assert (Hstored : stored_idxs (calls (snd run)) <> rev (seq 0 (length labels))).
  { intros E. apply Hns. rewrite E. apply -> in_rev. apply in_seq. lia. }
  destruct (realtime_outcome _ _ _ _ preprocess_vol predict tr_shift labels mask
              input_dir train_count clf_obj incremental_batch (boot d q obs) eq_refl)
    as [(a' & _ & _ & _ & Hst & _) | [(_ & _ & _ & Hst & _) | (Hr & (Hobs & _) & _)]].
  - exfalso. apply Hstored. exact Hst.
  - exfalso. apply Hstored. exact Hst.
  - split; [exact Hr|]. split; [exact Hns | exact Hobs].
Qed.

(** ** Which volumes are classified *)

Lemma step_predicted labels mask input_dir (t : nat) clf_obj incremental_batch i s u :
  predicted_idxs (calls s) = rev (seq (S t) (i - S t)) ->
  fst (on_volume preprocess_vol predict tr_shift labels mask input_dir (Z.of_nat t)
                 clf_obj incremental_batch i s) = Ok u ->
  predicted_idxs
    (calls (snd (on_volume preprocess_vol predict tr_shift labels mask input_dir
                           (Z.of_nat t) clf_obj incremental_batch i s))) =
  rev (seq (S t) (S i - S t)).
Proof.
  intros Hp Hu.
  pose proof (on_volume_transition _ _ _ _ preprocess_vol predict tr_shift labels mask
                input_dir (Z.of_nat t) clf_obj incremental_batch i s) as Hmove.
  match type of Hu with fst ?x = _ =>
    set (r := fst x) in *; set (s' := snd x) in * end.
  clearbody r s'.
  assert (Hnext : (t < i)%nat ->
            i :: rev (seq (S t) (i - S t)) = rev (seq (S t) (S i - S t))).
  { intros Hlt. replace (S i - S t)%nat with (S (i - S t)) by lia.
    rewrite seq_S, rev_app_distr. simpl. f_equal. lia. }
  destruct Hmove as
      [r s' Hr Hf _
      | v s' Hlt Hf
      | v s' td data lbls out Heq Htd Hdata Hlbls Hout Hf
      | v s' Hgt Hnone' Hf
      | v s' m out Hgt Hm Hout Hbad Hf
      | v s' m p Hgt Hm Hp' Hl Hf
      | v s' m p lbl n a Hgt Hm Hp' Hl Hn Hdiv Hb Hf
      | v s' m p lbl n a td data lbls out Hgt Hm Hp' Hl Hn Hdiv Hb Htd Hdata Hlbls Hout Hf];
    try discriminate;
    try (exfalso; destruct u; first [apply Hr; exact Hu | apply Hbad; exact Hu]);
    unfold frame_of in Hf; injection Hf as _ Hcalls _ _ _ _;
    rewrite Hcalls; simpl; rewrite Hp.
  - replace (i - t)%nat with 0%nat by lia. replace (i - S t)%nat with 0%nat by lia.
    reflexivity.
  - replace (i - t)%nat with 0%nat by lia. replace (i - S t)%nat with 0%nat by lia.
    reflexivity.
  - apply Hnext. lia.
  - apply Hnext. lia.
Qed.

(** X21: A call that returns has classified the volumes past
    [train_count], each of them once and in the order of the indices,
    each on the row stored for it just before; the volume of index
    [train_count] itself is not classified. *)
Theorem predictions_cover_volumes_past_train_count
        labels mask input_dir (t : nat) clf_obj incremental_batch d q obs a :
  let run := realtime preprocess_vol predict labels mask input_dir (Z.of_nat t)
                      clf_obj incremental_batch (boot d q obs) in
  let cs := calls (snd run) in
  fst run = Ok a ->
  rev (predicted_idxs cs) = seq (S t) (length labels - S t) /\
  (forall idx m r out, In (Predict idx m r out) cs ->
     In (Stored idx r) cs /\ out = predict m r).
Proof.
  intros run cs Hr. split.
  - revert Hr. unfold cs, run, realtime.
    rewrite (run_unfold _ _ _ _ preprocess_vol predict tr_shift labels mask input_dir
               (Z.of_nat t) clf_obj incremental_batch (boot d q obs)).
    cbv zeta.
    set (P := fun (i : nat) (s : state volume vec clf_t) =>
                predicted_idxs (calls s) = rev (seq (S t) (i - S t))).
    match goal with |- context [for_each _ ?body ?s1] =>
      pose proof (for_each_ok_inv P body (length labels) 0 s1 eq_refl
                    (fun j s _ Hs u Hu =>
                       step_predicted labels mask input_dir t clf_obj
                                      incremental_batch j s u Hs Hu)) as H2;
      destruct (for_each (seq 0 (length labels)) body s1) as [[u|e|] s2]
    end; simpl fst in *; simpl snd in *; cbv iota; try discriminate.
    specialize (H2 u eq_refl). unfold P in H2. simpl in H2.
    unfold or_raise. destruct (accuracy s2); simpl; [|discriminate].
    intros _. rewrite H2, rev_involutive. reflexivity.
  - intros idx m r out Hin.
    pose proof (run_calls_faithful tr_shift labels mask input_dir (Z.of_nat t) clf_obj
                  incremental_batch (boot d q obs) eq_refl) as Hf.
    destruct (run_final _ _ _ _ preprocess_vol predict tr_shift labels mask input_dir
                        (Z.of_nat t) clf_obj incremental_batch (boot d q obs) eq_refl)
      as (obs' & k & (_ & Hh & _) & _).
    fold (realtime preprocess_vol predict labels mask input_dir (Z.of_nat t) clf_obj
                   incremental_batch) in Hf, Hh.
    fold run in Hf, Hh. fold cs in Hf, Hh.
    rewrite Forall_forall in Hf. split; [|exact (Hf _ Hin)].
    destruct (hist_ok_in _ _ _ _ _ _ _ _ Hh Hin) as (newer & older & E & Hok & _).
    simpl in Hok. destruct Hok as (_ & _ & older' & ->).
    rewrite E. apply in_or_app. right. right. left. reflexivity.
Qed.

(** ** A negative number of training volumes *)

(** X22: With a negative [train_count] the first volume is already past
    [train_count]: a call returns no value, and when the first volume is on
    disk and is preprocessed, the call ends on the unbound local [clf],
    with its observer left running. *)
Theorem negative_train_count_ends_on_unbound_clf
        labels mask input_dir train_count clf_obj incremental_batch d q obs vol v :
  let run := realtime preprocess_vol predict labels mask input_dir train_count
                      clf_obj incremental_batch (boot d q obs) in
  (train_count < 0)%Z ->
  (forall a, fst run <> Ok a) /\
  (lookup (data_dir input_dir ++ file_pattern 0)%string d = Some (File 0 vol) ->
   preprocess_vol vol mask = Ok v ->
   labels <> [] ->
   fst run = Raise (UnboundLocalError "clf") /\
   observers (snd run) = obs ++ [true] /\
   calls (snd run) = [Stored 0 (Vals v)]).
Proof.
  intros run Ht. split.
  - intros a Ha.
    destruct (run_counted tr_shift labels mask input_dir train_count clf_obj
                incremental_batch (boot d q obs) a eq_refl Ha)
      as [(_ & _ & Hacc & _) Hsome].
    destruct Hacc as [H0 _]; [congruence | lia].
  - intros Hd Hpp Hne.
    cut (exists s2, run = (Raise (UnboundLocalError "clf"), s2) /\
                    observers s2 = obs ++ [true] /\
                    calls s2 = [Stored 0 (Vals v)]).
    { intros (s2 & -> & H). exact (conj eq_refl H). }
    unfold run, realtime.
    rewrite (run_unfold _ _ _ _ preprocess_vol predict tr_shift labels mask input_dir
               train_count clf_obj incremental_batch (boot d q obs)).
    cbv zeta.
    destruct labels as [|l0 labels']; [contradiction|].
    cbn [length seq for_each]. unfold bind at 1.
    match goal with |- context [on_volume _ _ _ ?ls _ _ _ _ _ 0%nat ?s1] =>
      set (lbls := ls) in *; set (s0 := s1) in *
    end.
    pose proof (on_volume_transition _ _ _ _ preprocess_vol predict tr_shift lbls mask
                  input_dir train_count clf_obj incremental_batch 0 s0) as Hmove.
    pose proof (step_calls tr_shift lbls mask input_dir train_count clf_obj
                  incremental_batch 0 s0) as (newer & Hcalls & Hnew).
    assert (Hw : tr_watcher (data_dir input_dir ++ file_pattern 0) s0 = (Ok vol, s0))
      by (apply tr_watcher_complete; exact Hd).
    set (r := fst (on_volume preprocess_vol predict tr_shift lbls mask input_dir
                             train_count clf_obj incremental_batch 0 s0)) in *.
    set (s' := snd (on_volume preprocess_vol predict tr_shift lbls mask input_dir
                              train_count clf_obj incremental_batch 0 s0)) in *.
    assert (E : on_volume preprocess_vol predict tr_shift lbls mask input_dir
                          train_count clf_obj incremental_batch 0 s0 = (r, s'))
      by (unfold r, s'; apply surjective_pairing).
    rewrite E. clearbody r s'.
    destruct Hmove as
        [r s' Hr Hf Hcause
        | v0 s' Hlt Hf
        | v0 s' td data lbls0 out Heq Htd Hdata Hlbls Hout Hf
        | v0 s' Hgt Hnone' Hf
        | v0 s' m out Hgt Hm Hout Hbad Hf
        | v0 s' m p Hgt Hm Hp' Hl Hf
        | v0 s' m p lbl n a Hgt Hm Hp' Hl Hn Hdiv Hb Hf
        | v0 s' m p lbl n a td data lbls0 out Hgt Hm Hp' Hl Hn Hdiv Hb Htd Hdata Hlbls Hout Hf];
      try (exfalso; simpl in *; lia);
      try (exfalso; unfold s0 in Hm; simpl in Hm; discriminate).
    + exfalso. rewrite Hw in Hcause. simpl in Hcause. rewrite Hpp in Hcause.
      unfold s0 in Hcause. simpl in Hcause. lia.
    + unfold frame_of in Hf. injection Hf as Hobs Hc _ _ _ _.
      cbv iota. eexists. split; [reflexivity|]. split; [exact Hobs|].
      assert (Hn1 : newer = [Stored 0 (Vals v0)]).
      { rewrite Hc in Hcalls. unfold s0 in Hcalls. simpl in Hcalls.
        rewrite app_nil_r in Hcalls. symmetry. exact Hcalls. }
      rewrite Hc. subst newer.
      apply Forall_inv in Hnew. simpl in Hnew.
      destruct Hnew as (_ & vol1 & v1 & Hv & Hpp1 & Ev).
      rewrite Hw in Hv. simpl in Hv. injection Hv as <-.
      rewrite Hpp in Hpp1. injection Hpp1 as <-. rewrite Ev. reflexivity.
Qed.

End Runs.

(** ** The cell that streams the training volumes *)

Section StreamingCell.

Variables volume vec clf_t : Type.

Lemma np_load_ok_file filename (t : state volume vec clf_t) vol :
  fst (np_load filename t) = Ok vol ->
  lookup filename (disk (snd (np_load filename t))) = Some (File 0 vol).
Proof.
  unfold np_load.
  destruct (lookup filename (disk t)) as [[[|k] c]|] eqn:E; simpl; try discriminate.
  intros H. injection H as <-. exact E.
Qed.

Lemma tr_watcher_ok_file filename (s : state volume vec clf_t) vol :
  fst (tr_watcher filename s) = Ok vol ->
  lookup filename (disk (snd (tr_watcher filename s))) = Some (File 0 vol).
Proof.
  unfold tr_watcher, bind, os_path_exists, get, wait_for_event, ret.
  destruct (lookup filename (disk s)) as [f|] eqn:E.
  - pose proof (np_load_ok_file filename s vol) as L.
    destruct (np_load filename s) as [[v|e|] s1]; simpl in *; try discriminate. exact L.
  - destruct (await_event filename (disk s) (file_queue s)) as [[[|] d] q];
      [|discriminate].
    match goal with |- context [np_load filename ?t] =>
      pose proof (np_load_ok_file filename t vol) as L;
      destruct (np_load filename t) as [[v|e|] s1] end; simpl in *;
      try discriminate. exact L.
Qed.

Lemma tr_watcher_keeps name filename (s : state volume vec clf_t) :
  lookup name (disk s) <> None ->
  lookup name (disk (snd (tr_watcher filename s))) <> None.
Proof.
  intros H.
  unfold tr_watcher, bind, os_path_exists, get, wait_for_event, ret.
  destruct (lookup filename (disk s)) as [f|] eqn:E.
  - pose proof (np_load_keeps _ _ _ name filename s H) as L.
    destruct (np_load filename s) as [[v|e|] s1]; exact L.
  - destruct (await_event_shape _ filename (file_queue s) (disk s)) as (taken & _ & H2).
    destruct (await_event filename (disk s) (file_queue s)) as [[b d'] q'].
    simpl in H2. subst d'.
    assert (H' : lookup name
                   (rev (map (fun e => (src_path e, created e)) taken) ++ disk s) <> None)
      by (apply lookup_app_r, H).
    destruct b; simpl; [|exact H'].
    match goal with |- context [np_load filename ?t] =>
      pose proof (np_load_keeps _ _ _ name filename t H') as L;
      destruct (np_load filename t) as [[v|e|] s1] end; exact L.
Qed.

(** X18: The cell that streams the training volumes returns only when each
    of them has been found on disk, and then it has stopped the observer it
    started; when it does not return, that observer is left running.  In
    either case the volumes read are dropped: nothing else is kept of them. *)
Theorem watch_cell_outcome data_dir (t : nat) d q obs :
  let out := watch_cell data_dir t (boot (volume:=volume) (vec:=vec) (clf_t:=clf_t) d q obs) in
  match fst out with
  | Ok _ =>
      observers (snd out) = obs ++ [false] /\
      forall j, (j < t)%nat ->
        lookup (data_dir ++ file_pattern j)%string (disk (snd out)) <> None
  | _ => observers (snd out) = obs ++ [true]
  end /\
  calls (snd out) = [] /\ tr_data (snd out) = [] /\ clf (snd out) = None.
Proof.
  intros out.
  cut (exists r s2, out = (r, s2) /\
         match r with
         | Ok _ =>
             observers s2 = obs ++ [false] /\
             forall j, (j < t)%nat ->
               lookup (data_dir ++ file_pattern j)%string (disk s2) <> None
         | _ => observers s2 = obs ++ [true]
         end /\
         calls s2 = [] /\ tr_data s2 = [] /\ clf s2 = None).
  { intros (r & s2 & -> & H). exact H. }
  subst out. unfold watch_cell.
  unfold bind at 1. unfold Observer at 1. cbv iota.
  unfold bind at 1. unfold observer_start at 1. unfold modify at 1. cbv iota.
  cbn [boot observers with_observers disk file_queue calls tr_data clf
       num_correct accuracy length].
  rewrite replace_nth_last.
  unfold bind at 1.
  match goal with |- context [for_each _ ?body ?s1] =>
    set (b := body); set (s0 := s1) end.
  set (F := fun s : state volume vec clf_t =>
              observers s = obs ++ [true] /\ calls s = [] /\ tr_data s = [] /\
              clf s = None).
  assert (HF : F (snd (for_each (seq 0 t) b s0))).
  { apply for_each_preserves; [|unfold F, s0; simpl; tauto].
    intros j s _ (H1 & H2 & H3 & H4). unfold b, bind.
    pose proof (tr_watcher_frame _ _ _ (data_dir ++ file_pattern j) s) as Hfr.
    destruct (tr_watcher (data_dir ++ file_pattern j) s) as [[vol|e|] s1];
      simpl in Hfr |- *; unfold frame_of in Hfr;
      injection Hfr as E1 E2 E3 E4 _ _; unfold F; rewrite E1, E2, E3, E4; tauto. }
  set (P := fun (i : nat) (s : state volume vec clf_t) =>
              forall j, (j < i)%nat ->
                lookup (data_dir ++ file_pattern j)%string (disk s) <> None).
  pose proof (for_each_ok_inv _ _ _ P b t 0 s0 ltac:(intros j Hj; lia)) as HP.
  assert (Hstep : forall j s, (0 <= j < 0 + t)%nat -> P j s ->
            forall u, fst (b j s) = Ok u -> P (S j) (snd (b j s))).
  { intros j s _ Hs u. unfold b, bind.
    pose proof (tr_watcher_ok_file (data_dir ++ file_pattern j) s) as Hok.
    pose proof (fun name => tr_watcher_keeps name (data_dir ++ file_pattern j) s) as Hk.
    destruct (tr_watcher (data_dir ++ file_pattern j) s) as [[vol|e|] s1];
      simpl in *; try discriminate.
    intros _ i Hi. destruct (Nat.eq_dec i j) as [->|Hne].
    - rewrite (Hok vol eq_refl). discriminate.
    - apply Hk, Hs. lia. }
  specialize (HP Hstep).
  destruct (for_each (seq 0 t) b s0) as [[u|e|] s2]; simpl in HF, HP |- *;
    destruct HF as (H1 & H2 & H3 & H4).
  - unfold observer_stop, modify. do 2 eexists. split; [reflexivity|]. simpl.
    rewrite H1, replace_nth_last.
    split; [split; [reflexivity | exact (HP u eq_refl)] | tauto].
  - do 2 eexists. split; [reflexivity|]. tauto.
  - do 2 eexists. split; [reflexivity|]. tauto.
Qed.

End StreamingCell.

(** ** Names of the participants' folders *)

Lemma digits_value_sids (a : nat) : digits_value (sids a) = Some a.
Proof.
  unfold sids. destruct (a <? 10)%nat.
  - simpl append. rewrite digits_value_zero. apply digits_value_str.
  - apply digits_value_str.
Qed.

(** X19: Two participants have the same folder name exactly when they have
    the same number; and up to 99 the number is written with two digits. *)
Theorem sub_names_distinct (a b : nat) :
  String.eqb (sub a) (sub b) = Nat.eqb a b /\
  ((a < 100)%nat -> String.length (sub a) = 6%nat).
Proof.
  split.
  - destruct (Nat.eqb a b) eqn:E.
    + apply Nat.eqb_eq in E. subst b. apply String.eqb_refl.
    + apply String.eqb_neq. intros H. apply Nat.eqb_neq in E. apply E.
      unfold sub in H. simpl in H. injection H as H.
      pose proof (digits_value_sids a) as Ha.
      rewrite H, digits_value_sids in Ha. congruence.
  - intros Ha.
    assert (H : forallb (fun k => Nat.eqb (String.length (sub k)) 6) (seq 0 100) = true)
      by (vm_compute; reflexivity).
    rewrite forallb_forall in H. apply Nat.eqb_eq, H, in_seq. lia.
Qed.

(** ** From samples back to volumes *)

Section Volumes.

Import Searchlight.

Variable A : Type.
Variable zero : A.

Lemma nth_error_update_same {B} (f : B -> B) : forall (l : list B) n,
  nth_error (update l n f) n = option_map f (nth_error l n).
Proof.
  induction l as [|x l IH]; intros [|n]; simpl; try reflexivity. apply IH.
Qed.

Lemma nth_error_update_other {B} (f : B -> B) : forall (l : list B) n m,
  n <> m -> nth_error (update l n f) m = nth_error l m.
Proof.
  induction l as [|x l IH]; intros [|n] [|m] H; simpl; try reflexivity;
    try contradiction.
  apply IH. congruence.
Qed.

Lemma getitem3_set_same {B} (a : array3 B) c x :
  getitem3 a c <> None -> getitem3 (setitem3 a c x) c = Some x.
Proof.
  destruct c as [i [j k]]. unfold getitem3, setitem3. simpl.
  rewrite nth_error_update_same.
  destruct (nth_error a i) as [plane|]; simpl; [|intros H; congruence].
  rewrite nth_error_update_same.
  destruct (nth_error plane j) as [line|]; simpl; [|intros H; congruence].
  rewrite nth_error_update_same.
  destruct (nth_error line k); simpl; intros H; congruence.
Qed.

Lemma getitem3_set_other {B} (a : array3 B) c c' x :
  c <> c' -> getitem3 (setitem3 a c x) c' = getitem3 a c'.
Proof.
  destruct c as [i [j k]], c' as [i' [j' k']]. unfold getitem3, setitem3. simpl.
  intros H. destruct (Nat.eq_dec i i') as [<-|Hi];
    [|rewrite nth_error_update_other by exact Hi; reflexivity].
  rewrite nth_error_update_same.
  destruct (nth_error a i) as [plane|]; simpl; [|reflexivity].
  destruct (Nat.eq_dec j j') as [<-|Hj];
    [|rewrite nth_error_update_other by exact Hj; reflexivity].
  rewrite nth_error_update_same.
  destruct (nth_error plane j) as [line|]; simpl; [|reflexivity].
  rewrite nth_error_update_other; [reflexivity | congruence].
Qed.

Lemma coord_eq_dec (c c' : nat * (nat * nat)) : {c = c'} + {c <> c'}.
Proof. repeat decide equality. Qed.

Lemma fold_setitem3 {B} : forall (pairs : list (nat * (nat * nat) * B)) (vol : array3 B),
  NoDup (map fst pairs) ->
  (forall p, In p pairs -> getitem3 vol (fst p) <> None) ->
  let vol' := fold_left (fun v cv => setitem3 v (fst cv) (snd cv)) pairs vol in
  (forall p, In p pairs -> getitem3 vol' (fst p) = Some (snd p)) /\
  (forall c, ~ In c (map fst pairs) -> getitem3 vol' c = getitem3 vol c).
Proof.
  induction pairs as [|[c x] pairs IH]; intros vol Hnd Hin; simpl.
  - split; [tauto | reflexivity].
  - inversion Hnd as [|? ? Hc Hnd']; subst.
    destruct (IH (setitem3 vol c x) Hnd') as [H1 H2].
    { intros p Hp.
      destruct (coord_eq_dec c (fst p)) as [E|E].
      - rewrite <- E, getitem3_set_same; [discriminate|].
        apply (Hin (c, x)). left. reflexivity.
      - rewrite getitem3_set_other by exact E. apply Hin. right. exact Hp. }
    split.
    + intros p [<-|Hp]; [|apply H1, Hp]. simpl.
      rewrite H2 by exact Hc.
      apply getitem3_set_same. apply (Hin (c, x)). left. reflexivity.
    + intros c' Hc'. rewrite H2 by tauto.
      apply getitem3_set_other. intros ->. apply Hc'. left. reflexivity.
Qed.

Lemma NoDup_list_prod {B C} (l : list B) (l' : list C) :
  NoDup l -> NoDup l' -> NoDup (list_prod l l').
Proof.
  intros Hl Hl'. induction Hl as [|x l Hx Hl IH]; simpl; [constructor|].
  apply NoDup_app; [| exact IH |].
  - apply NoDup_map_NoDup_ForallPairs; [|exact Hl'].
    intros a b _ _ H. congruence.
  - intros [a b] H1 H2. apply in_map_iff in H1. destruct H1 as (b' & E & _).
    injection E as <- <-. apply in_prod_iff in H2. tauto.
Qed.

Lemma ndindex_NoDup x y z : NoDup (ndindex x y z).
Proof.
  unfold ndindex. repeat apply NoDup_list_prod; apply seq_NoDup.
Qed.

Lemma np_zeros_getitem x y z t c :
  In c (ndindex x y z) -> getitem3 (np_zeros zero x y z t) c = Some (repeat zero t).
Proof.
  destruct c as [i [j k]]. unfold ndindex. rewrite !in_prod_iff, !in_seq.
  intros (Hi & Hj & Hk). unfold getitem3, np_zeros. simpl.
  rewrite !nth_error_repeat by lia. reflexivity.
Qed.

Lemma map_fst_combine {B C} : forall (l : list B) (l' : list C),
  length l = length l' -> map fst (combine l l') = l.
Proof.
  induction l as [|b l IH]; intros [|c l'] H; simpl in *; try discriminate;
    [reflexivity|].
  f_equal. apply IH. lia.
Qed.

Lemma map_of_pairs {B C} (g : B -> option C) : forall (cs : list B) (vs : list C),
  length cs = length vs ->
  (forall p, In p (combine cs vs) -> g (fst p) = Some (snd p)) ->
  map g cs = map Some vs.
Proof.
  induction cs as [|c cs IH]; intros [|v vs] Hlen H; simpl in *; try discriminate;
    [reflexivity|].
  pose proof (H (c, v) (or_introl eq_refl)) as Hc. simpl in Hc. rewrite Hc. f_equal.
  apply IH; [lia|]. intros p Hp. apply H. right. exact Hp.
Qed.

(** X20: Stacking the samples as volumes undoes the masking: when every
    sample has one number for each non-zero entry of the mask, the volume
    array holds, at the non-zero entries of the mask taken in row-major
    order, the series of the columns of [bold_data] in their order, and a
    series of zeros everywhere else. *)
Theorem stack_volumes_round_trip (whole_brain_mask : array3 bool)
        (bold_data : list (list A)) :
  let coords := np_where whole_brain_mask in
  bold_data <> [] ->
  Forall (fun sample => length sample = length coords) bold_data ->
  exists bold_vol,
    stack_volumes zero whole_brain_mask bold_data = Some bold_vol /\
    map (getitem3 bold_vol) coords = map Some (transpose zero bold_data) /\
    (forall c, In c (ndindex (fst (fst (shape whole_brain_mask)))
                             (snd (fst (shape whole_brain_mask)))
                             (snd (shape whole_brain_mask))) ->
               ~ In c coords ->
               getitem3 bold_vol c = Some (repeat zero (length bold_data))).
Proof.
  intros coords Hne Hlen.
  assert (Hv : length (transpose zero bold_data) = length coords).
  { unfold transpose. rewrite length_map, length_seq.
    destruct bold_data as [|r rest]; [contradiction|].
    inversion Hlen; subst. simpl. assumption. }
  unfold stack_volumes.
  destruct (shape whole_brain_mask) as [[x y] z] eqn:Es. simpl fst. simpl snd.
  fold coords. rewrite Hv, Nat.eqb_refl.
  assert (Hsub : forall c, In c coords -> In c (ndindex x y z)).
  { intros c Hc. unfold coords, np_where in Hc. rewrite Es in Hc.
    apply filter_In in Hc. tauto. }
  assert (Hnd : NoDup coords).
  { unfold coords, np_where. rewrite Es. apply NoDup_filter, ndindex_NoDup. }
  destruct (fold_setitem3 (combine coords (transpose zero bold_data))
              (np_zeros zero x y z (length bold_data))) as [H1 H2].
  - rewrite map_fst_combine by (symmetry; exact Hv). exact Hnd.
  - intros [c v] Hp. apply in_combine_l in Hp. simpl.
    rewrite np_zeros_getitem by (apply Hsub, Hp). discriminate.
  - eexists. split; [reflexivity|]. split.
    + apply map_of_pairs; [symmetry; exact Hv | exact H1].
    + intros c Hc Hnot. rewrite H2.
      * apply np_zeros_getitem, Hc.
      * rewrite map_fst_combine by (symmetry; exact Hv). exact Hnot.
Qed.

End Volumes.

(** ** The volumes are processed in the order of their indices *)

Section IndexOrder.

Variables volume vec clf_t mask_t : Type.
Variable preprocess_vol : volume -> mask_t -> result vec.
Variable predict : clf_t -> row vec -> result prediction.

Lemma lookup_some_in name (d : list (string * file volume)) f :
  lookup name d = Some f -> In (name, f) d.
Proof.
  induction d as [|[n g] d IH]; simpl; [discriminate|].
  destruct (String.eqb n name) eqn:E.
  - apply String.eqb_eq in E. intros H. injection H as <-. left. congruence.
  - intros H. right. apply IH, H.
Qed.

Lemma append_cancel_l (s : string) : forall a b : string,
  (s ++ a)%string = (s ++ b)%string -> a = b.
Proof.
  induction s as [|c s IH]; intros a b H; simpl in H; [exact H|].
  injection H as H. apply IH, H.
Qed.

Lemma in_stored_rows (cs : list (call vec clf_t)) j r :
  In (j, r) (stored_rows cs) <-> In (Stored j r) cs.
Proof.
  unfold stored_rows. rewrite in_flat_map. split.
  - intros (c & Hc & Hin). apply in_rev in Hc.
    destruct c as [i r'|i dt l prev out|i m r' out]; simpl in Hin; try contradiction.
    destruct Hin as [E|[]]. injection E as <- <-. exact Hc.
  - intros H. exists (Stored j r). split; [apply -> in_rev; exact H | left; reflexivity].
Qed.

Lemma map_fst_stored_rows (cs : list (call vec clf_t)) :
  map fst (stored_rows cs) = rev (stored_idxs cs).
Proof.
  unfold stored_rows.
  induction cs as [|c cs IH]; [reflexivity|].
  simpl rev. rewrite flat_map_app, map_app, IH.
  destruct c as [i r|i dt l prev out|i m r out]; simpl; rewrite ?app_nil_r; reflexivity.
Qed.

Lemma row_at_unique (cs : list (call vec clf_t)) j r :
  NoDup (stored_idxs cs) -> In (Stored j r) cs -> row_at cs j = r.
Proof.
  induction cs as [|[i r0|i dt l prev out|i m r0 out] cs IH]; simpl; [tauto | | |].
  - intros Hnd [E|Hin].
    + injection E as -> ->. rewrite Nat.eqb_refl. reflexivity.
    + inversion Hnd as [|? ? Hi Hnd']; subst.
      destruct (Nat.eqb i j) eqn:E; [|apply IH; assumption].
      apply Nat.eqb_eq in E. subst i. exfalso. apply Hi.
      apply (stored_in_idxs _ _ _ _ _ Hin).
  - intros Hnd [E|Hin]; [discriminate | apply IH; assumption].
  - intros Hnd [E|Hin]; [discriminate | apply IH; assumption].
Qed.

Lemma pairs_of_fst {B C} (g : B -> C) : forall l : list (B * C),
  (forall p, In p l -> snd p = g (fst p)) ->
  l = map (fun b => (b, g b)) (map fst l).
Proof.
  induction l as [|[b c] l IH]; intros H; [reflexivity|].
  simpl. rewrite <- IH by (intros p Hp; apply H; right; exact Hp).
  pose proof (H (b, c) (or_introl eq_refl)) as Hb. simpl in Hb. rewrite <- Hb.
  reflexivity.
Qed.

(** Every file on disk has the contents of a file of the session that
    bears its name, and the queue holds events of the session only. *)
Lemma tr_watcher_session d q filename (s : state volume vec clf_t) :
  (forall n f, In (n, f) (disk s) ->
     exists f0, contents f0 = contents f /\ in_session d q n f0) ->
  (forall e, In e (file_queue s) -> In e q) ->
  (forall n f, In (n, f) (disk (snd (tr_watcher filename s))) ->
     exists f0, contents f0 = contents f /\ in_session d q n f0) /\
  (forall e, In e (file_queue (snd (tr_watcher filename s))) -> In e q).
Proof.
  intros Hd Hq.
  assert (L : forall t : state volume vec clf_t,
            (forall n f, In (n, f) (disk t) ->
               exists f0, contents f0 = contents f /\ in_session d q n f0) ->
            (forall e, In e (file_queue t) -> In e q) ->
            (forall n f, In (n, f) (disk (snd (np_load filename t))) ->
               exists f0, contents f0 = contents f /\ in_session d q n f0) /\
            (forall e, In e (file_queue (snd (np_load filename t))) -> In e q)).
  { intros t Ht Hqt. unfold np_load.
    destruct (lookup filename (disk t)) as [[[|k] c]|] eqn:E; simpl;
      try (split; assumption).
    split; [|exact Hqt].
    intros n f [H|H]; [|apply Ht, H].
    injection H as <- <-. apply lookup_some_in in E.
    destruct (Ht _ _ E) as (f0 & Hc & Hs). exists f0. split; assumption. }
  unfold tr_watcher, bind, os_path_exists, get, wait_for_event, ret.
  destruct (lookup filename (disk s)) as [f|] eqn:E.
  - specialize (L s Hd Hq). destruct (np_load filename s) as [[v|e|] s1]; exact L.
  - destruct (await_event_shape _ filename (file_queue s) (disk s)) as (taken & H1 & H2).
    assert (Hw : (forall n f,
                    In (n, f) (snd (fst (await_event filename (disk s) (file_queue s)))) ->
                    exists f0, contents f0 = contents f /\ in_session d q n f0) /\
                 (forall e, In e (snd (await_event filename (disk s) (file_queue s))) ->
                            In e q)).
    { split.
      - intros n f Hin. rewrite H2 in Hin. apply in_app_or in Hin.
        destruct Hin as [Hin|Hin]; [|apply Hd, Hin].
        apply in_rev, in_map_iff in Hin. destruct Hin as (e & He & Hin).
        injection He as <- <-. exists (created e). split; [reflexivity|].
        right. destruct e as [p c]. simpl. apply Hq. rewrite H1.
        apply in_or_app. left. exact Hin.
      - intros e He. apply Hq. rewrite H1. apply in_or_app. right. exact He. }
    destruct (await_event filename (disk s) (file_queue s)) as [[[|] d'] q'];
      simpl in Hw |- *; [|exact Hw].
    match goal with |- context [np_load filename ?t] =>
      specialize (L t (proj1 Hw) (proj2 Hw));
      destruct (np_load filename t) as [[v|e|] s1] end; exact L.
Qed.

(** A row stored at index [j] is the preprocessed contents of a file of
    the session named after [j]. *)
Lemma run_rows_of_session labels mask input_dir train_count clf_obj incremental_batch
      d q obs :
  forall j r,
    In (Stored j r)
       (calls (snd (realtime preprocess_vol predict labels mask input_dir train_count
                             clf_obj incremental_batch (boot d q obs)))) ->
    exists f v,
      in_session d q (data_dir input_dir ++ file_pattern j)%string f /\
      preprocess_vol (contents f) mask = Ok v /\ r = Vals v.
Proof.
  set (P := fun s : state volume vec clf_t =>
              ((forall n f, In (n, f) (disk s) ->
                  exists f0, contents f0 = contents f /\ in_session d q n f0) /\
               (forall e, In e (file_queue s) -> In e q)) /\
              forall j r, In (Stored j r) (calls s) ->
                exists f v,
                  in_session d q (data_dir input_dir ++ file_pattern j)%string f /\
                  preprocess_vol (contents f) mask = Ok v /\ r = Vals v).
  cut (P (snd (realtime preprocess_vol predict labels mask input_dir train_count
                        clf_obj incremental_batch (boot d q obs)))).
  { intros [_ H]. exact H. }
  apply (run_preserves _ _ _ _ preprocess_vol predict tr_shift labels mask input_dir
           train_count clf_obj incremental_batch P).
  - intros s o H. exact H.
  - split; [split|]; simpl.
    + intros n f H. exists f. split; [reflexivity | left; exact H].
    + tauto.
    + tauto.
  - intros i s _ [[Hd Hq] Hs].
    destruct (tr_watcher_session d q (data_dir input_dir ++ file_pattern i) s Hd Hq)
      as [Hd1 Hq1].
    pose proof (step_world _ _ _ _ preprocess_vol predict tr_shift labels mask
                  input_dir train_count clf_obj incremental_batch i s) as Hw.
    unfold world_of in Hw. injection Hw as Hw1 Hw2.
    split; [split|].
    + rewrite Hw1. exact Hd1.
    + rewrite Hw2. exact Hq1.
    + destruct (step_calls _ _ _ _ preprocess_vol predict tr_shift labels mask
                  input_dir train_count clf_obj incremental_batch i s)
        as (newer & -> & Hn).
      intros j r Hin. apply in_app_or in Hin. destruct Hin as [Hin|Hin];
        [|apply Hs, Hin].
      rewrite Forall_forall in Hn. specialize (Hn _ Hin). simpl in Hn.
      destruct Hn as (-> & vol & v & Hv & Hpp & ->).
      apply tr_watcher_ok_file, lookup_some_in in Hv.
      destruct (Hd1 _ _ Hv) as (f0 & Hc & Hses). simpl in Hc.
      exists f0, v. rewrite Hc. split; [exact Hses | split; [exact Hpp | reflexivity]].
Qed.

(** C2: whatever the disk and the queue hold, a call stores the volumes
    of the indices 0, 1, ..., k-1, in this order and each once; the row
    stored at index [j], which is then row [j] of [tr_data], is the
    preprocessed contents of a file of the session that bears the name of
    volume [j]; and a prediction comes right after the storing of the row
    it is made on.  When every volume is on disk or announced by an event,
    in whatever order the events are, and the collaborators return, all the
    volumes are stored.  In particular, when the volumes 0 to 3 are on disk
    and the creation of volume 5 is notified before that of volume 4, the
    rows stored are, in this order, the preprocessed volumes 0, 1, 2, 3, 4
    and 5. *)
Theorem volumes_in_index_order
        labels mask input_dir train_count clf_obj incremental_batch d q obs :
  let name j := (data_dir input_dir ++ file_pattern j)%string in
  let run := realtime preprocess_vol predict labels mask input_dir train_count
                      clf_obj incremental_batch in
  let cs := calls (snd (run (boot d q obs))) in
  (exists k, (k <= length labels)%nat /\ map fst (stored_rows cs) = seq 0 k) /\
  (forall j r, In (j, r) (stored_rows cs) ->
     nth_error (tr_data (snd (run (boot d q obs)))) j = Some r /\
     exists f v,
       in_session d q (name j) f /\
       preprocess_vol (contents f) mask = Ok v /\ r = Vals v) /\
  (forall newer idx m r out older,
     cs = newer ++ Predict idx m r out :: older ->
     exists older', older = Stored idx r :: older') /\
  ((0 <= train_count)%Z ->
   (forall vol, exists v, preprocess_vol vol mask = Ok v) ->
   (forall m r, exists p, predict m r = Ok p) ->
   (forall dt l prev, exists m, clf_obj dt l prev = Ok m) ->
   ready (map name (seq 0 (length labels))) (boot (vec:=vec) (clf_t:=clf_t) d q obs) ->
   map fst (stored_rows cs) = seq 0 (length labels)) /\
  (forall f0 f1 f2 f3 f4 f5 : volume,
     let d0 := [(name 0%nat, File 0 f0); (name 1%nat, File 0 f1);
                (name 2%nat, File 0 f2); (name 3%nat, File 0 f3)] in
     let q0 := [Created (name 5%nat) (File 0 f5); Created (name 4%nat) (File 0 f4)] in
     length labels = 6%nat ->
     (0 <= train_count)%Z ->
     (forall vol, exists v, preprocess_vol vol mask = Ok v) ->
     (forall m r, exists p, predict m r = Ok p) ->
     (forall dt l prev, exists m, clf_obj dt l prev = Ok m) ->
     exists v0 v1 v2 v3 v4 v5,
       preprocess_vol f0 mask = Ok v0 /\ preprocess_vol f1 mask = Ok v1 /\
       preprocess_vol f2 mask = Ok v2 /\ preprocess_vol f3 mask = Ok v3 /\
       preprocess_vol f4 mask = Ok v4 /\ preprocess_vol f5 mask = Ok v5 /\
       stored_rows (calls (snd (run (boot d0 q0 obs)))) =
         [(0, Vals v0); (1, Vals v1); (2, Vals v2); (3, Vals v3);
          (4, Vals v4); (5, Vals v5)]%nat /\
       tr_data (snd (run (boot d0 q0 obs))) =
         [Vals v0; Vals v1; Vals v2; Vals v3; Vals v4; Vals v5]).
Proof.
  intros name run cs.
  assert (Hord : forall d' q',
            let cs' := calls (snd (run (boot d' q' obs))) in
            exists k, (k <= length labels)%nat /\
              map fst (stored_rows cs') = seq 0 k /\
              tr_data (snd (run (boot d' q' obs))) = table (length labels) cs' /\
              hist_ok tr_shift labels train_count incremental_batch cs').
  { intros d' q' cs'.
    destruct (run_final _ _ _ _ preprocess_vol predict tr_shift labels mask input_dir
                        train_count clf_obj incremental_batch (boot d' q' obs) eq_refl)
      as (obs' & k & (_ & Hh & Htd & _) & Hk & Hidx).
    exists k. split; [exact Hk|]. split; [|split; [exact Htd | exact Hh]].
    rewrite map_fst_stored_rows. unfold cs', run, realtime.
    rewrite Hidx. apply rev_involutive. }
  assert (Hrow : forall d' q' j r,
            In (j, r) (stored_rows (calls (snd (run (boot d' q' obs))))) ->
            nth_error (tr_data (snd (run (boot d' q' obs)))) j = Some r).
  { intros d' q' j r Hin.
    destruct (Hord d' q') as (k & Hk & Hfst & Htd & _).
    assert (Hj : In j (map fst (stored_rows (calls (snd (run (boot d' q' obs)))))))
      by (apply in_map_iff; exists (j, r); split; [reflexivity | exact Hin]).
    rewrite Htd, nth_error_table
      by (rewrite Hfst in Hj; apply in_seq in Hj; lia).
    f_equal. apply row_at_unique; [|apply in_stored_rows; exact Hin].
    rewrite <- (rev_involutive (stored_idxs _)), <- map_fst_stored_rows, Hfst.
    apply NoDup_rev, seq_NoDup. }
  assert (Hall : forall d' q',
            (0 <= train_count)%Z ->
            (forall vol, exists v, preprocess_vol vol mask = Ok v) ->
            (forall m r, exists p, predict m r = Ok p) ->
            (forall dt l prev, exists m, clf_obj dt l prev = Ok m) ->
            ready (map name (seq 0 (length labels)))
                  (boot (vec:=vec) (clf_t:=clf_t) d' q' obs) ->
            map fst (stored_rows (calls (snd (run (boot d' q' obs))))) =
            seq 0 (length labels)).
  { intros d' q' Hpos Hpp Hpr Hfit Hready.
    destruct (ideal_run _ _ _ _ preprocess_vol predict tr_shift labels mask input_dir
                        train_count clf_obj incremental_batch (boot d' q' obs)
                        Hpp (fun _ => Hpr) Hfit eq_refl Hpos Hready) as (_ & _ & H).
    - intros j Hgt Hj. apply label_in_range. lia.
    - rewrite map_fst_stored_rows. unfold run, realtime. rewrite H.
      apply rev_involutive. }
  split; [|split; [|split; [|split]]].
  - destruct (Hord d q) as (k & Hk & Hfst & _). exists k. split; assumption.
  - intros j r Hin. split; [apply Hrow, Hin|].
    apply (run_rows_of_session labels mask input_dir train_count clf_obj
             incremental_batch d q obs j r).
    apply in_stored_rows, Hin.
  - intros newer idx m r out older E.
    destruct (Hord d q) as (k & _ & _ & _ & Hh). fold cs in Hh. rewrite E in Hh.
    apply hist_ok_split in Hh. destruct Hh as [Hok _]. simpl in Hok. tauto.
  - apply Hall.
  - intros f0 f1 f2 f3 f4 f5 d0 q0 Hlen Hpos Hpp Hpr Hfit.
    destruct (Hpp f0) as [v0 H0]. destruct (Hpp f1) as [v1 H1].
    destruct (Hpp f2) as [v2 H2]. destruct (Hpp f3) as [v3 H3].
    destruct (Hpp f4) as [v4 H4]. destruct (Hpp f5) as [v5 H5].
    exists v0, v1, v2, v3, v4, v5.
    do 6 (split; [assumption|]).
    assert (Hready : ready (map name (seq 0 (length labels)))
                           (boot (vec:=vec) (clf_t:=clf_t) d0 q0 obs)).
    { rewrite Hlen. unfold ready, boot, d0, q0; simpl.
      split; [repeat constructor|]. split; [repeat constructor|].
      intros n [<-|[<-|[<-|[<-|[<-|[<-|[]]]]]]];
        try (right; simpl; solve [auto]);
        left; rewrite String.eqb_refl;
        repeat match goal with
               | |- context [if ?b then _ else _] => destruct b
               end; discriminate. }
    pose proof (Hall d0 q0 Hpos Hpp Hpr Hfit Hready) as Hfst.
    rewrite Hlen in Hfst.
    set (g := fun j : nat => Vals (nth j [v0; v1; v2; v3; v4; v5] v0)).
    assert (Hg : forall p, In p (stored_rows (calls (snd (run (boot d0 q0 obs))))) ->
                           snd p = g (fst p)).
    { intros [j r] Hin. simpl.
      assert (Hj : In j (seq 0 6))
        by (rewrite <- Hfst; apply in_map_iff; exists (j, r);
            split; [reflexivity | exact Hin]).
      apply in_stored_rows in Hin.
      destruct (run_rows_of_session labels mask input_dir train_count clf_obj
                  incremental_batch d0 q0 obs j r Hin) as (f & v & Hses & Hv & ->).
      assert (Hname : forall i, name j = name i -> j = i)
        by (intros i Hi; apply file_pattern_inj;
            apply (append_cancel_l (data_dir input_dir)); exact Hi).
      unfold g.
      destruct Hses as [Hin'|Hin']; unfold d0, q0 in Hin'; simpl in Hin';
        repeat (destruct Hin' as [E|Hin'];
                [injection E as En <-; fold (name j) in En; symmetry in En;
                 apply Hname in En; subst j; simpl in Hv |- *; congruence|]);
        contradiction. }
    pose proof (pairs_of_fst g _ Hg) as Hrows. rewrite Hfst in Hrows.
    split; [exact Hrows|].
    destruct (Hord d0 q0) as (k & _ & _ & Htd & _).
    assert (Hnth : forall j r, In (j, r) (stored_rows (calls (snd (run (boot d0 q0 obs))))) ->
                     nth_error (tr_data (snd (run (boot d0 q0 obs)))) j = Some r)
      by (intros j r; apply Hrow).
    assert (Hlen' : length (tr_data (snd (run (boot d0 q0 obs)))) = 6%nat)
      by (rewrite Htd; unfold table; rewrite length_map, length_seq; exact Hlen).
    rewrite Hrows in Hnth.
    pose proof (Hnth 0%nat _ (or_introl eq_refl)) as N0.
    pose proof (Hnth 1%nat _ (or_intror (or_introl eq_refl))) as N1.
    pose proof (Hnth 2%nat _ (or_intror (or_intror (or_introl eq_refl)))) as N2.
    pose proof (Hnth 3%nat _ (or_intror (or_intror (or_intror (or_introl eq_refl))))) as N3.
    pose proof (Hnth 4%nat _ (or_intror (or_intror (or_intror (or_intror
                                (or_introl eq_refl)))))) as N4.
    pose proof (Hnth 5%nat _ (or_intror (or_intror (or_intror (or_intror (or_intror
                                (or_introl eq_refl))))))) as N5.
    destruct (tr_data (snd (run (boot d0 q0 obs)))) as [|r0 [|r1 [|r2 [|r3 [|r4 [|r5 [|r6 rest]]]]]]];
      simpl in Hlen'; try discriminate.
    unfold g in N0, N1, N2, N3, N4, N5. simpl in N0, N1, N2, N3, N4, N5.
    congruence.
Qed.

End IndexOrder.

(** ** The theorems on the small session *)

Lemma tr_watcher_consumes_up_to_match_witness :
  let s := boot (vec:=Z) (clf_t:=nat) []
                [Created "b.npy" (File 0 5%Z); Created "a.npy" (File 0 7%Z);
                 Created "c.npy" (File 1 9%Z)] [] in
  fst (tr_watcher "a.npy" s) = Ok 7%Z /\
  file_queue (snd (tr_watcher "a.npy" s)) = [Created "c.npy" (File 1 9%Z)] /\
  lookup "b.npy" (disk (snd (tr_watcher "a.npy" s))) <> None.
Proof.
  intros s.
  assert (Hb : forall e, In e [Created "b.npy" (File 0 5%Z)] ->
                         src_path e <> "a.npy"%string)
    by (intros e [<-|[]]; discriminate).
  destruct (tr_watcher_consumes_up_to_match Z Z nat "a.npy" s
              [Created "b.npy" (File 0 5%Z)] (Created "a.npy" (File 0 7%Z))
              [Created "c.npy" (File 1 9%Z)] eq_refl eq_refl eq_refl Hb)
    as (H1 & H2 & H3 & _).
  split; [exact H1 | split; [exact H2|]].
  exact (H3 (Created "b.npy" (File 0 5%Z)) (or_introl (or_introl eq_refl))).
Defined.

Lemma tr_watcher_blocks_without_event_witness :
  let s := boot (vec:=Z) (clf_t:=nat) [("c.npy"%string, File 0 9%Z)]
                [Created "b.npy" (File 0 5%Z)] [] in
  fst (tr_watcher "a.npy" s) = Blocked /\
  file_queue (snd (tr_watcher "a.npy" s)) = [] /\
  lookup "a.npy" (disk (snd (tr_watcher "a.npy" s))) = None.
Proof.
  intros s.
  assert (Hq : forall e, In e (file_queue s) -> src_path e <> "a.npy"%string)
    by (intros e [<-|[]]; discriminate).
  exact (tr_watcher_blocks_without_event Z Z nat "a.npy" s eq_refl Hq).
Defined.

Lemma fit_below_shift_witness :
  let cs := calls (snd (realtime Demo.preprocess_vol Demo.predict Demo.alternating tt
                                 Demo.input_dir (Z.of_nat 1) Demo.clf_obj 0
                                 (boot (Demo.disk_upto 10) [] [false]))) in
  filter is_fit cs = [Train 1 [] [1; 2; 1; 2; 1; 2; 1; 2]%Z None (Ok 1%nat)] /\
  (forall idx data lbls out, In (Train idx data lbls None out) cs ->
     idx = 1%nat /\ data = [] /\
     lbls = firstn (length Demo.alternating + 1 - 3) Demo.alternating) /\
  (In 1%nat (stored_idxs cs) ->
   exists out,
     filter is_fit cs =
       [Train 1 [] (firstn (length Demo.alternating + 1 - 3) Demo.alternating)
              None out]).
Proof.
  intros cs. split; [vm_compute; reflexivity|].
  exact (fit_below_shift _ _ _ _ Demo.preprocess_vol Demo.predict Demo.alternating tt
           Demo.input_dir 1 Demo.clf_obj 0 (Demo.disk_upto 10) [] [false]
           ltac:(lia) ltac:(simpl; lia)).
Defined.

Lemma update_on_empty_batch_witness :
  let cs := calls (snd (realtime Demo.preprocess_vol Demo.predict Demo.alternating tt
                                 Demo.input_dir (Z.of_nat 3) Demo.clf_obj (Z.of_nat 2)
                                 (boot (Demo.disk_upto 10) [] [false]))) in
  filter is_update cs =
    [Train 9 [] [] (Some 3%nat) (Ok 4%nat); Train 7 [] [] (Some 2%nat) (Ok 3%nat);
     Train 5 [] [] (Some 1%nat) (Ok 2%nat)] /\
  (forall idx data lbls m out, In (Train idx data lbls (Some m) out) cs ->
     data = [] /\ lbls = []) /\
  (forall idx m r p, In (Predict idx m r (Ok p)) cs ->
     ((idx - 3) mod 2 = 0)%nat ->
     exists out, In (Train idx [] [] (Some m) out) cs).
Proof.
  intros cs. split; [vm_compute; reflexivity|].
  exact (update_on_empty_batch _ _ _ _ Demo.preprocess_vol Demo.predict
           Demo.alternating tt Demo.input_dir 3 2 Demo.clf_obj (Demo.disk_upto 10)
           [] [false] ltac:(lia) ltac:(lia)).
Defined.

Lemma accuracy_is_share_of_correct_witness :
  let run := realtime Demo.preprocess_vol Demo.predict Demo.alternating tt
                      Demo.input_dir 5 Demo.clf_obj 0
                      (boot (Demo.disk_upto 10) [] [false]) in
  let cs := calls (snd run) in
  fst run = Ok (2 # 4) /\
  (0 <= 5)%Z /\
  Z.of_nat (length (filter is_predict cs)) =
    (Z.of_nat (length Demo.alternating) - 1 - 5)%Z /\
  (0 < length (filter is_predict cs))%nat /\
  Py.truediv (Z.of_nat (length (filter (is_correct tr_shift Demo.alternating) cs)))
             (Z.of_nat (length (filter is_predict cs))) = Some (2 # 4).
Proof.
  intros run cs.
  assert (H : fst run = Ok (2 # 4)) by (vm_compute; reflexivity).
  split; [exact H|].
  exact (accuracy_is_share_of_correct _ _ _ _ Demo.preprocess_vol Demo.predict
           Demo.alternating tt Demo.input_dir 5 Demo.clf_obj 0 (Demo.disk_upto 10)
           [] [false] (2 # 4) H).
Defined.

Lemma disk_upto_10 (j : nat) :
  (j < 10)%nat ->
  lookup (data_dir Demo.input_dir ++ file_pattern j)%string (Demo.disk_upto 10) =
  Some (File 0 (Z.of_nat j)).
Proof.
  intros Hj.
  do 10 (destruct j as [|j]; [vm_compute; reflexivity|]). lia.
Defined.

Lemma rows_are_preprocessed_volumes_witness :
  let run := realtime Demo.preprocess_vol Demo.predict Demo.alternating tt
                      Demo.input_dir 5 Demo.clf_obj 0
                      (boot (Demo.disk_upto 10) [] [false]) in
  let s' := snd run in
  disk s' = Demo.disk_upto 10 /\
  file_queue s' = [] /\
  exists k, (k <= length Demo.alternating)%nat /\
    (forall j, (j < k)%nat ->
       exists v, Demo.preprocess_vol (Z.of_nat j) tt = Ok v /\
                 nth_error (tr_data s') j = Some (Vals v)) /\
    (forall j, (k <= j < length Demo.alternating)%nat ->
       nth_error (tr_data s') j = Some NaNs) /\
    (forall a, fst run = Ok a -> k = length Demo.alternating).
Proof.
  exact (rows_are_preprocessed_volumes _ _ _ _ Demo.preprocess_vol Demo.predict
           Demo.alternating tt Demo.input_dir 5 Demo.clf_obj 0 (Demo.disk_upto 10)
           [] [false] Z.of_nat disk_upto_10).
Defined.

Lemma incremental_model_replays_batches_witness :
  let run := realtime Demo.preprocess_vol Demo.predict Demo.alternating tt
                      Demo.input_dir 3
                      (train_incremental Trial.SGDClassifier Trial.partial_fit) 4
                      (boot (Demo.disk_upto 10) [] [false]) in
  fst run = Ok (3 # 6) /\
  training_batches (calls (snd run)) = [([], []); ([Vals 6%Z], [2%Z])] /\
  exists m,
    clf (snd run) = Some m /\
    replay Trial.SGDClassifier Trial.partial_fit
           (training_batches (calls (snd run))) = Ok m.
Proof.
  intros run.
  assert (H : fst run = Ok (3 # 6)) by (vm_compute; reflexivity).
  split; [exact H|]. split; [vm_compute; reflexivity|].
  exact (incremental_model_replays_batches _ _ _ _ Demo.preprocess_vol Demo.predict
           Trial.SGDClassifier Trial.partial_fit Demo.alternating tt Demo.input_dir
           3 4 (Demo.disk_upto 10) [] [false] (3 # 6) H).
Defined.

Lemma preprocess_cell_fills_rows_witness :
  let out := preprocess_cell Demo.preprocess_vol tt (data_dir Demo.input_dir) 4
                             (boot (vec:=Z) (clf_t:=nat) (Demo.disk_upto 10) [] [false]) in
  fst out = Ok tt /\
  tr_data (snd out) = map (fun j => Vals (Z.of_nat j)) (seq 0 4) /\
  observers (snd out) = [false] ++ [false] /\
  disk (snd out) = Demo.disk_upto 10 /\
  file_queue (snd out) = [].
Proof.
  exact (preprocess_cell_fills_rows _ _ nat _ Demo.preprocess_vol tt
           (data_dir Demo.input_dir) 4 (Demo.disk_upto 10) [] [false]
           Z.of_nat Z.of_nat
           (fun j Hj => disk_upto_10 j ltac:(lia)) (fun j _ => eq_refl)).
Defined.

Lemma offline_fit_is_realtime_fit_witness :
  let offline :=
    bind (preprocess_cell Demo.preprocess_vol tt (data_dir Demo.input_dir) 5)
         (fun _ => fit_cell Trial.LogisticRegression_fit Demo.alternating 5)
         (boot (Demo.disk_upto 10) [] [false]) in
  let cs := calls (snd (realtime Demo.preprocess_vol Demo.predict Demo.alternating tt
                                 Demo.input_dir (Z.of_nat 5)
                                 (train_logistic Trial.LogisticRegression_fit) 0
                                 (boot (Demo.disk_upto 10) [] [false]))) in
  fst offline = Ok 2%nat /\
  fst offline =
    train_logistic Trial.LogisticRegression_fit
      (map (fun j => Vals (Z.of_nat j)) (seq 3 (5 - 3)))
      (Py.slice Demo.alternating 0 (Z.of_nat 5 - 3)) None /\
  (In 5%nat (stored_idxs cs) ->
   exists data lbls, filter is_fit cs = [Train 5 data lbls None (fst offline)]).
Proof.
  intros offline cs. split; [vm_compute; reflexivity|].
  exact (offline_fit_is_realtime_fit _ _ _ _ Demo.preprocess_vol Demo.predict
           Trial.LogisticRegression_fit Demo.alternating tt Demo.input_dir 5 0
           (Demo.disk_upto 10) [] [false] Z.of_nat Z.of_nat
           disk_upto_10 (fun j _ => eq_refl) ltac:(simpl; lia)).
Defined.

Lemma realtime_waits_for_missing_volume_witness :
  let run := realtime Demo.preprocess_vol Demo.predict Demo.alternating tt
                      Demo.input_dir 5 Demo.clf_obj 0
                      (boot (Demo.disk_upto 4) [] [false]) in
  fst run = Blocked /\
  (forall a, fst run <> Ok a) /\
  ~ In 4%nat (stored_idxs (calls (snd run))) /\
  observers (snd run) = [false] ++ [true].
Proof.
  intros run. split; [vm_compute; reflexivity|].
  exact (realtime_waits_for_missing_volume _ _ _ _ Demo.preprocess_vol Demo.predict
           Demo.alternating tt Demo.input_dir 5 Demo.clf_obj 0 (Demo.disk_upto 4)
           [] [false] 4 ltac:(simpl; lia) eq_refl (fun e (H : In e []) => match H with end)).
Defined.

Lemma stack_volumes_round_trip_witness :
  let mask := [[[true; false]; [false; true]]; [[false; false]; [true; false]]] in
  let bold_data := [[1; 2; 3]; [4; 5; 6]]%Z in
  let coords := Searchlight.np_where mask in
  Searchlight.stack_volumes 0%Z mask bold_data =
    Some [[[[1; 4]; [0; 0]]; [[0; 0]; [2; 5]]];
          [[[0; 0]; [0; 0]]; [[3; 6]; [0; 0]]]]%Z /\
  exists bold_vol,
    Searchlight.stack_volumes 0%Z mask bold_data = Some bold_vol /\
    map (Searchlight.getitem3 bold_vol) coords =
      map Some (Searchlight.transpose 0%Z bold_data) /\
    (forall c, In c (Searchlight.ndindex (fst (fst (Searchlight.shape mask)))
                                         (snd (fst (Searchlight.shape mask)))
                                         (snd (Searchlight.shape mask))) ->
               ~ In c coords ->
               Searchlight.getitem3 bold_vol c = Some (repeat 0%Z (length bold_data))).
Proof.
  intros mask bold_data coords. split; [reflexivity|].
  apply (stack_volumes_round_trip Z 0%Z mask bold_data).
  - discriminate.
  - repeat constructor.
Defined.

Lemma predictions_cover_volumes_past_train_count_witness :
  let run := realtime Demo.preprocess_vol Demo.predict Demo.alternating tt
                      Demo.input_dir (Z.of_nat 5) Demo.clf_obj 0
                      (boot (Demo.disk_upto 10) [] [false]) in
  let cs := calls (snd run) in
  fst run = Ok (2 # 4) /\
  rev (predicted_idxs cs) = seq 6 (length Demo.alternating - 6) /\
  (forall idx m r out, In (Predict idx m r out) cs ->
     In (Stored idx r) cs /\ out = Demo.predict m r).
Proof.
  intros run cs.
  assert (H : fst run = Ok (2 # 4)) by (vm_compute; reflexivity).
  split; [exact H|].
  exact (predictions_cover_volumes_past_train_count _ _ _ _ Demo.preprocess_vol
           Demo.predict Demo.alternating tt Demo.input_dir 5 Demo.clf_obj 0
           (Demo.disk_upto 10) [] [false] (2 # 4) H).
Defined.

Lemma negative_train_count_ends_on_unbound_clf_witness :
  let run := realtime Demo.preprocess_vol Demo.predict Demo.alternating tt
                      Demo.input_dir (-1) Demo.clf_obj 0
                      (boot (Demo.disk_upto 10) [] [false]) in
  fst run = Raise (UnboundLocalError "clf") /\
  observers (snd run) = [false] ++ [true] /\
  calls (snd run) = [Stored 0 (Vals 0%Z)].
Proof.
  intros run.
  exact (proj2 (negative_train_count_ends_on_unbound_clf _ _ _ _ Demo.preprocess_vol
                  Demo.predict Demo.alternating tt Demo.input_dir (-1) Demo.clf_obj 0
                  (Demo.disk_upto 10) [] [false] 0%Z 0%Z ltac:(lia))
               (disk_upto_10 0 ltac:(lia)) eq_refl ltac:(discriminate)).
Defined.

(** A run of the theorem of C2: the creation of volume 5 is notified
    before that of volume 4, and the rows come out in the order of the
    indices, each with the contents of its own file. *)
Lemma volumes_in_index_order_witness :
  let s0 := boot (vec:=Z) (clf_t:=nat)
                 [(Demo.path 0, File 0 10%Z); (Demo.path 1, File 0 11%Z);
                  (Demo.path 2, File 0 12%Z); (Demo.path 3, File 0 13%Z)]
                 [Created (Demo.path 5) (File 0 15%Z);
                  Created (Demo.path 4) (File 0 14%Z)]
                 [false] in
  let run := realtime Demo.preprocess_vol Demo.predict [1; 2; 1; 2; 1; 2]%Z tt
                      Demo.input_dir 2 Demo.clf_obj 0 in
  stored_rows (calls (snd (run s0))) =
    [(0, Vals 10%Z); (1, Vals 11%Z); (2, Vals 12%Z); (3, Vals 13%Z);
     (4, Vals 14%Z); (5, Vals 15%Z)]%nat /\
  tr_data (snd (run s0)) =
    [Vals 10%Z; Vals 11%Z; Vals 12%Z; Vals 13%Z; Vals 14%Z; Vals 15%Z].
Proof.
  intros s0 run.
  destruct (proj2 (proj2 (proj2 (proj2
              (volumes_in_index_order _ _ _ _ Demo.preprocess_vol Demo.predict
                 [1; 2; 1; 2; 1; 2]%Z tt Demo.input_dir 2 Demo.clf_obj 0
                 [] [] [false]))))
              10%Z 11%Z 12%Z 13%Z 14%Z 15%Z eq_refl ltac:(lia)
              (fun vol => ex_intro _ vol eq_refl)
              (fun m r => ex_intro _ (PInt 1) eq_refl)
              (fun dt l prev => ex_intro _ _ eq_refl))
    as (v0 & v1 & v2 & v3 & v4 & v5 & H0 & H1 & H2 & H3 & H4 & H5 & Hrows & Htd).
  injection H0 as <-. injection H1 as <-. injection H2 as <-.
  injection H3 as <-. injection H4 as <-. injection H5 as <-.
  split; [exact Hrows | exact Htd].
Defined.
